(** * The team-configuration validator of [validate_team.py]

    A shallow embedding of [TeamValidator] (the seven validation rules,
    the reporting-cycle detector and [validate]) together with the
    properties its specification states about it.

    The validator walks a document produced by [json.load] /
    [yaml.safe_load]; Python checks nothing about the shape of that
    document before the rules run, so the embedding works on untyped
    values and every primitive that Python can refuse ([in], subscript,
    [.get], iteration, hashing, [.lower]) returns a [result].

    Scope of the value universe: [None], booleans, integers, strings,
    lists and string-keyed dictionaries.  Floating-point numbers and
    non-string dictionary keys are outside it.  The interpreter's
    recursion limit is assumed to exceed the number of roles. *)

From Stdlib Require Import String Ascii List ZArith Lia Bool.
From Stdlib Require Import DecimalString.
From Stdlib Require DecimalZ DecimalFacts.
Import ListNotations.
Set Warnings "-register-all".
Local Open Scope Z_scope.
Local Open Scope list_scope.

Infix "+++" := String.append (right associativity, at level 60).

(** ** Python values *)

Inductive value : Type :=
| VNone
| VBool (b : bool)
| VInt (z : Z)
| VStr (s : string)
| VList (items : list value)
| VDict (items : list (string * value)).

(** The built-ins whose full behaviour depends on Unicode tables or on
    CPython's printing of containers.  The development is parametric in
    them; [cpython] below is the instance used to run examples. *)
Class PyBuiltins : Type := {
  (** [str(x)] for a list or a dict *)
  py_str_container : value -> string;
  (** [int(s)]; [None] stands for [ValueError] *)
  py_int : string -> option Z;
  (** [s.lower()] *)
  py_lower : string -> string;
  (** the characters of [s], as iteration over a [str] yields them *)
  py_chars : string -> list string
}.

Inductive exn : Type :=
| KeyError
| TypeError
| AttributeError
| RecursionError.

Inductive result (A : Type) : Type :=
| Ok (a : A)
| Raise (e : exn).
Arguments Ok {A} a.
Arguments Raise {A} e.

Definition bindR {A B} (r : result A) (f : A -> result B) : result B :=
  match r with
  | Ok a => f a
  | Raise e => Raise e
  end.

Notation "'let?' x := r 'in' k" := (bindR r (fun x => k))
  (at level 10, x name, r at level 100, k at level 200).

(** ** Strings *)

Fixpoint str_contains (needle hay : string) : bool :=
  String.prefix needle hay ||
  match hay with
  | EmptyString => false
  | String _ rest => str_contains needle rest
  end.

Fixpoint endswith_percent (s : string) : bool :=
  match s with
  | EmptyString => false
  | String c EmptyString => Ascii.eqb c "%"%char
  | String _ rest => endswith_percent rest
  end.

(** [s[:-1]] *)
Fixpoint drop_last (s : string) : string :=
  match s with
  | EmptyString => EmptyString
  | String _ EmptyString => EmptyString
  | String c rest => String c (drop_last rest)
  end.

Definition str_of_Z (z : Z) : string := NilZero.string_of_int (Z.to_int z).

(** ** Hashable values: the keys of Python sets and dicts

    Python compares keys with [==] after hashing: [True == 1] and
    [False == 0], so booleans and integers share one constructor.
    Lists and dicts are unhashable. *)

Inductive hkey : Type :=
| KNone
| KNum (z : Z)
| KStr (s : string).

Definition hkey_eqb (a b : hkey) : bool :=
  match a, b with
  | KNone, KNone => true
  | KNum x, KNum y => Z.eqb x y
  | KStr x, KStr y => String.eqb x y
  | _, _ => false
  end.

Definition py_hash (v : value) : result hkey :=
  match v with
  | VNone => Ok KNone
  | VBool b => Ok (KNum (if b then 1 else 0))
  | VInt z => Ok (KNum z)
  | VStr s => Ok (KStr s)
  | VList _ | VDict _ => Raise TypeError
  end.

Definition key_value (k : hkey) : value :=
  match k with
  | KNone => VNone
  | KNum z => VInt z
  | KStr s => VStr s
  end.

Definition pyset := list hkey.

Definition set_mem (k : hkey) (s : pyset) : bool := existsb (hkey_eqb k) s.

Definition set_add (k : hkey) (s : pyset) : pyset :=
  if set_mem k s then s else k :: s.

Definition set_remove (k : hkey) (s : pyset) : result pyset :=
  if set_mem k s then Ok (filter (fun k' => negb (hkey_eqb k k')) s)
  else Raise KeyError.

(** [v in s] for a set [s] *)
Definition set_contains (v : value) (s : pyset) : result bool :=
  let? k := py_hash v in Ok (set_mem k s).

(** A dict with hashable keys, in insertion order. *)
Definition pydict := list (hkey * value).

Fixpoint dict_get (k : hkey) (d : pydict) : option value :=
  match d with
  | [] => None
  | (k', v) :: rest => if hkey_eqb k k' then Some v else dict_get k rest
  end.

Fixpoint dict_set (k : hkey) (v : value) (d : pydict) : pydict :=
  match d with
  | [] => [(k, v)]
  | (k', v') :: rest =>
      if hkey_eqb k k' then (k', v) :: rest else (k', v') :: dict_set k v rest
  end.

(** ** Operations on document values *)

Fixpoint lookup (k : string) (d : list (string * value)) : option value :=
  match d with
  | [] => None
  | (k', v) :: rest => if String.eqb k k' then Some v else lookup k rest
  end.

(** [v == s] for a string literal [s] *)
Definition eq_str (s : string) (v : value) : bool :=
  match v with
  | VStr t => String.eqb s t
  | _ => false
  end.

Definition is_str (v : value) : bool :=
  match v with
  | VStr _ => true
  | _ => false
  end.

Definition is_nil {A} (l : list A) : bool :=
  match l with
  | [] => true
  | _ => false
  end.

Definition truthy (v : value) : bool :=
  match v with
  | VNone => false
  | VBool b => b
  | VInt z => negb (Z.eqb z 0)
  | VStr s => negb (String.eqb s "")
  | VList l => negb (is_nil l)
  | VDict d => negb (is_nil d)
  end.

(** ['k' in v] for a string literal [k] *)
Definition py_in (k : string) (v : value) : result bool :=
  match v with
  | VDict d => Ok (match lookup k d with Some _ => true | None => false end)
  | VList l => Ok (existsb (eq_str k) l)
  | VStr s => Ok (str_contains k s)
  | VNone | VBool _ | VInt _ => Raise TypeError
  end.

(** [v['k']] *)
Definition py_getitem (v : value) (k : string) : result value :=
  match v with
  | VDict d => match lookup k d with Some x => Ok x | None => Raise KeyError end
  | _ => Raise TypeError
  end.

(** [v.get('k', default)] *)
Definition py_get (v : value) (k : string) (default : value) : result value :=
  match v with
  | VDict d => Ok (match lookup k d with Some x => x | None => default end)
  | _ => Raise AttributeError
  end.

(** [x in [s1, ..., sn]] for string literals *)
Definition in_literals (x : value) (l : list string) : bool :=
  existsb (fun s => eq_str s x) l.

Section Builtins.
Context {py : PyBuiltins}.

(** [str(v)], as an f-string interpolates it *)
Definition py_str (v : value) : string :=
  match v with
  | VNone => "None"
  | VBool true => "True"
  | VBool false => "False"
  | VInt z => str_of_Z z
  | VStr s => s
  | VList _ | VDict _ => py_str_container v
  end.

(** the elements [for x in v] yields *)
Definition py_iter (v : value) : result (list value) :=
  match v with
  | VList l => Ok l
  | VDict d => Ok (map (fun kv => VStr (fst kv)) d)
  | VStr s => Ok (map VStr (py_chars s))
  | VNone | VBool _ | VInt _ => Raise TypeError
  end.

(** [len(v)] *)
Definition py_len (v : value) : result Z :=
  match v with
  | VList l => Ok (Z.of_nat (length l))
  | VDict d => Ok (Z.of_nat (length d))
  | VStr s => Ok (Z.of_nat (length (py_chars s)))
  | VNone | VBool _ | VInt _ => Raise TypeError
  end.

End Builtins.

(** [enumerate(xs)], counting from [i] *)
Fixpoint enumerate_from {A} (i : Z) (xs : list A) : list (Z * A) :=
  match xs with
  | [] => []
  | x :: rest => (i, x) :: enumerate_from (i + 1) rest
  end.

Definition enumerate {A} (xs : list A) : list (Z * A) := enumerate_from 0 xs.

(** ** Issue model *)

Inductive ValidationLevel : Type := ERROR | WARNING | INFO.

Record ValidationIssue : Type := mkIssue {
  level : ValidationLevel;
  category : string;
  message : string;
  suggestion : option string;
  path : option string
}.

Definition level_eqb (a b : ValidationLevel) : bool :=
  match a, b with
  | ERROR, ERROR | WARNING, WARNING | INFO, INFO => true
  | _, _ => false
  end.

Definition is_error (x : ValidationIssue) : bool := level_eqb (level x) ERROR.

(** ** The validator's monad: [self.issues] threaded through fallible code *)

Definition M (A : Type) : Type :=
  list ValidationIssue -> result A * list ValidationIssue.

Definition ret {A} (a : A) : M A := fun issues => (Ok a, issues).

Definition bind {A B} (m : M A) (f : A -> M B) : M B :=
  fun issues =>
    match m issues with
    | (Ok a, issues') => f a issues'
    | (Raise e, issues') => (Raise e, issues')
    end.

Definition lift {A} (r : result A) : M A :=
  fun issues => (r, issues).

Notation "'do' x <- m ; k" := (bind m (fun x => k))
  (at level 10, x name, m at level 100, k at level 200).
Notation "'do' ' p <- m ; k" := (bind m (fun x => match x with p => k end))
  (at level 10, p pattern, m at level 100, k at level 200).
Notation "m ;; k" := (bind m (fun _ => k))
  (at level 100, k at level 200, right associativity).

Definition when (b : bool) (m : M unit) : M unit := if b then m else ret tt.

Fixpoint for_each {A S} (body : A -> S -> M S) (xs : list A) (s : S) : M S :=
  match xs with
  | [] => ret s
  | x :: rest => do s' <- body x s; for_each body rest s'
  end.

Fixpoint for_ {A} (body : A -> M unit) (xs : list A) : M unit :=
  match xs with
  | [] => ret tt
  | x :: rest => body x ;; for_ body rest
  end.

(** [any(f(x) for x in xs)]: stops at the first true element *)
Fixpoint any_ {A} (f : A -> result bool) (xs : list A) : result bool :=
  match xs with
  | [] => Ok false
  | x :: rest => let? b := f x in if b then Ok true else any_ f rest
  end.

(** [self._add_issue(level, category, message, suggestion, path)] *)
Definition _add_issue (lvl : ValidationLevel) (cat msg : string)
    (sugg pth : option string) : M unit :=
  fun issues => (Ok tt, issues ++ [mkIssue lvl cat msg sugg pth]).

(** ** The validator *)

Section Validator.
Context {py : PyBuiltins}.

(** [self.role_models], in declaration order *)
Definition role_models : list (string * string) :=
  [ ("ceo", "opus"); ("cto", "opus"); ("product-owner", "opus");
    ("tech-lead", "opus"); ("architect", "sonnet"); ("developer", "sonnet");
    ("designer", "sonnet"); ("qa", "sonnet"); ("writer", "haiku");
    ("monitor", "haiku") ]%string.

(** the [for key, model in self.role_models.items()] loop of
    [_suggest_model], over the lowered role type; [None] when the loop
    falls through *)
Fixpoint suggest_loop (items : list (string * string)) (lowered : string)
    : option string :=
  match items with
  | [] => None
  | (key, model) :: rest =>
      if str_contains key lowered then Some model
      else suggest_loop rest lowered
  end.

Definition _suggest_model (role_type : value) : result string :=
  match role_type with
  | VStr s =>
      Ok (match suggest_loop role_models (py_lower s) with
          | Some model => model
          | None => "sonnet"%string
          end)
  | _ => Raise AttributeError
  end.

Definition _validate_structure (config : value) : M unit :=
  for_ (fun field =>
          do present <- lift (py_in field config);
          when (negb present)
            (_add_issue ERROR "structure"
               ("Missing required field: " +++ field)
               (Some ("Add '" +++ field +++ "' to your configuration"))
               (Some field)))
       ["name"; "roles"; "workflow"]%string ;;
  do has_name <- lift (py_in "name" config);
  if has_name then
    do name <- lift (py_getitem config "name");
    when (negb (truthy name) || negb (is_str name))
      (_add_issue ERROR "structure"
         "Team name must be a non-empty string"
         (Some "Provide a descriptive team name"%string) None)
  else ret tt.

(** the loop over [enumerate(roles)] has three blocks per role: the checks
    on the id, on the model, and on the responsibilities *)

Definition missing_id_issue (i : Z) : ValidationIssue :=
  mkIssue ERROR "roles"
    ("Role at index " +++ py_str (VInt i) +++ " missing 'id' field")
    (Some "Add unique identifier for the role"%string)
    (Some ("roles[" +++ py_str (VInt i) +++ "]")).

Definition duplicate_id_issue (i : Z) (rid : value) : ValidationIssue :=
  mkIssue ERROR "roles"
    ("Duplicate role ID: " +++ py_str rid)
    (Some "Ensure all role IDs are unique"%string)
    (Some ("roles[" +++ py_str (VInt i) +++ "]")).

Definition model_fit_issue (i : Z) (rid model : value)
    (suggested_model : string) (role_type : value) : ValidationIssue :=
  mkIssue INFO "optimization"
    ("Role '" +++ py_str rid +++ "' uses " +++ py_str model +++ ", but "
       +++ suggested_model +++ " might be more cost-effective")
    (Some ("Consider using " +++ suggested_model +++ " for "
             +++ py_str role_type +++ " roles"))
    (Some (("roles[" +++ py_str (VInt i) +++ "]") +++ ".model")).

(** [self._add_issue] called with the fields of a named issue *)
Definition add (x : ValidationIssue) : M unit :=
  _add_issue (level x) (category x) (message x) (suggestion x) (path x).

Definition check_role_id (i : Z) (role : value) (role_ids : pyset) : M pyset :=
  do has_id <- lift (py_in "id" role);
  if negb has_id then
    add (missing_id_issue i) ;;
    ret role_ids
  else
    do rid <- lift (py_getitem role "id");
    do dup <- lift (set_contains rid role_ids);
    when dup (add (duplicate_id_issue i rid)) ;;
    do k <- lift (py_hash rid);
    ret (set_add k role_ids).

Definition check_role_model (i : Z) (role : value) : M unit :=
  let role_path := "roles[" +++ py_str (VInt i) +++ "]" in
  do has_model <- lift (py_in "model" role);
  if has_model then
    do model <- lift (py_getitem role "model");
    (if negb (in_literals model ["opus"; "sonnet"; "haiku"]%string) then
       do rid <- lift (py_get role "id" (VInt i));
       _add_issue ERROR "roles"
         ("Invalid model '" +++ py_str model +++ "' for role " +++ py_str rid)
         (Some "Use one of: opus, sonnet, haiku"%string)
         (Some (role_path +++ ".model"))
     else ret tt) ;;
    do role_type <- lift (py_get role "type" (VStr ""));
    do suggested_model <- lift (_suggest_model role_type);
    if truthy (VStr suggested_model) && negb (eq_str suggested_model model)
    then
      do rid <- lift (py_get role "id" VNone);
      add (model_fit_issue i rid model suggested_model role_type)
    else ret tt
  else ret tt.

Definition check_role_responsibilities (i : Z) (role : value) : M unit :=
  let role_path := "roles[" +++ py_str (VInt i) +++ "]" in
  do has_resp <- lift (py_in "responsibilities" role);
  do missing <-
    (if negb has_resp then ret true
     else do resp <- lift (py_getitem role "responsibilities");
          ret (negb (truthy resp)));
  if missing : bool then
    do rid <- lift (py_get role "id" VNone);
    _add_issue WARNING "roles"
      ("Role '" +++ py_str rid +++ "' has no defined responsibilities")
      (Some "Add clear responsibilities for better task allocation"%string)
      (Some (role_path +++ ".responsibilities"))
  else ret tt.

(** one iteration of the loop; the loop state is [role_ids] *)
Definition roles_body (ir : Z * value) (role_ids : pyset) : M pyset :=
  let '(i, role) := ir in
  do role_ids <- check_role_id i role role_ids;
  check_role_model i role ;;
  check_role_responsibilities i role ;;
  ret role_ids.

(** the team-size block that follows the loop *)
Definition check_team_size (team_size : Z) : M unit :=
  if 15 <? team_size then
    _add_issue WARNING "roles"
      ("Large team size (" +++ py_str (VInt team_size)
         +++ ") may cause coordination overhead")
      (Some "Consider splitting into smaller sub-teams"%string)
      (Some "roles"%string)
  else if team_size <? 3 then
    _add_issue INFO "roles"
      ("Small team size (" +++ py_str (VInt team_size)
         +++ ") may limit parallelization")
      (Some "Consider if additional roles would help"%string)
      (Some "roles"%string)
  else ret tt.

Definition _validate_roles (config : value) : M unit :=
  do has_roles <- lift (py_in "roles" config);
  if negb has_roles then ret tt
  else
    do roles <- lift (py_getitem config "roles");
    if negb (truthy roles) then
      _add_issue ERROR "roles"
        "Team must have at least one role"
        (Some "Add role definitions to your team"%string) None
    else
      do items <- lift (py_iter roles);
      for_each roles_body (enumerate items) [] ;;
      do team_size <- lift (py_len roles);
      check_team_size team_size.

(** the loop over [enumerate(phases)] has three blocks per phase: the
    checks on the name, on the dependencies, and the duration *)

Definition undefined_dependency_issue (i : Z) (name dep : value)
    : ValidationIssue :=
  mkIssue ERROR "workflow"
    ("Phase '" +++ py_str name +++ "' depends on undefined phase '"
       +++ py_str dep +++ "'")
    (Some ("Ensure '" +++ py_str dep +++ "' is defined before this phase"))
    (Some (("workflow.phases[" +++ py_str (VInt i) +++ "]")
             +++ ".dependencies")).

Definition duration_issue (total_duration : Z) : ValidationIssue :=
  mkIssue WARNING "workflow"
    ("Phase durations sum to " +++ py_str (VInt total_duration)
       +++ "%, not 100%")
    (Some "Adjust phase durations to sum to 100%"%string)
    (Some "workflow.phases"%string).

Definition check_phase_name (i : Z) (phase : value) (phase_names : pyset)
    : M pyset :=
  let phase_path := "workflow.phases[" +++ py_str (VInt i) +++ "]" in
  do has_name <- lift (py_in "name" phase);
  if negb has_name then
    _add_issue ERROR "workflow"
      ("Phase at index " +++ py_str (VInt i) +++ " missing 'name'")
      (Some "Add name for the phase"%string)
      (Some phase_path) ;;
    ret phase_names
  else
    do name <- lift (py_getitem phase "name");
    do dup <- lift (set_contains name phase_names);
    when dup
      (_add_issue ERROR "workflow"
         ("Duplicate phase name: " +++ py_str name)
         (Some "Ensure phase names are unique"%string)
         (Some (phase_path +++ ".name"))) ;;
    do k <- lift (py_hash name);
    ret (set_add k phase_names).

(** the [for dep in phase['dependencies']] loop *)
Definition deps_body (i : Z) (phase : value) (phase_names : pyset)
    (dep : value) : M unit :=
  do known <- lift (set_contains dep phase_names);
  if negb known then
    do name <- lift (py_get phase "name" VNone);
    add (undefined_dependency_issue i name dep)
  else ret tt.

Definition check_phase_dependencies (i : Z) (phase : value)
    (phase_names : pyset) : M unit :=
  do has_deps <- lift (py_in "dependencies" phase);
  if has_deps then
    do deps <- lift (py_getitem phase "dependencies");
    do items <- lift (py_iter deps);
    for_ (deps_body i phase phase_names) items
  else ret tt.

(** [total_duration] after one phase's [duration] value *)
Definition add_duration (duration : value) (total_duration : Z) : Z :=
  match duration with
  | VStr s =>
      if endswith_percent s then
        match py_int (drop_last s) with
        | Some n => total_duration + n
        | None => total_duration
        end
      else total_duration
  | _ => total_duration
  end.

Definition phase_duration (phase : value) (total_duration : Z) : M Z :=
  do has_duration <- lift (py_in "duration" phase);
  if has_duration then
    do duration <- lift (py_getitem phase "duration");
    ret (add_duration duration total_duration)
  else ret total_duration.

(** one iteration of the loop; the loop state is
    [(phase_names, total_duration)] *)
Definition phases_body (ip : Z * value) (st : pyset * Z) : M (pyset * Z) :=
  let '(i, phase) := ip in
  let '(phase_names, total_duration) := st in
  do phase_names <- check_phase_name i phase phase_names;
  check_phase_dependencies i phase phase_names ;;
  do total_duration <- phase_duration phase total_duration;
  ret (phase_names, total_duration).

Definition _validate_workflow (config : value) : M unit :=
  do has_workflow <- lift (py_in "workflow" config);
  if negb has_workflow then ret tt
  else
    do workflow <- lift (py_getitem config "workflow");
    do has_phases <- lift (py_in "phases" workflow);
    if negb has_phases then
      _add_issue WARNING "workflow"
        "No workflow phases defined"
        (Some "Define phases for better task organization"%string)
        (Some "workflow.phases"%string)
    else
      do phases <- lift (py_getitem workflow "phases");
      do items <- lift (py_iter phases);
      do '(_, total_duration) <- for_each phases_body (enumerate items) ([], 0);
      if (0 <? total_duration) && negb (total_duration =? 100) then
        add (duration_issue total_duration)
      else ret tt.

Definition channels_body (ic : Z * value) : M unit :=
  let '(i, channel) := ic in
  do has_freq <- lift (py_in "frequency" channel);
  if negb has_freq then
    do name <- lift (py_get channel "name" (VInt i));
    _add_issue INFO "communication"
      ("Channel '" +++ py_str name +++ "' has no defined frequency")
      (Some "Specify communication frequency"%string)
      (Some ("communication.channels[" +++ py_str (VInt i) +++ "].frequency"))
  else ret tt.

Definition _validate_communication (config : value) : M unit :=
  do has_comm <- lift (py_in "communication" config);
  if negb has_comm then
    _add_issue INFO "communication"
      "No communication protocols defined"
      (Some "Consider defining communication channels and protocols"%string)
      None
  else
    do comm <- lift (py_getitem config "communication");
    do has_channels <- lift (py_in "channels" comm);
    if has_channels then
      do channels <- lift (py_getitem comm "channels");
      do items <- lift (py_iter channels);
      do has_sync <-
        lift (any_ (fun ch => let? t := py_get ch "type" VNone in
                              Ok (eq_str "synchronous" t)) items);
      when (negb has_sync)
        (_add_issue WARNING "communication"
           "No synchronous communication channel defined"
           (Some "Add at least one synchronous channel (e.g., daily standup)"%string)
           None) ;;
      for_ channels_body (enumerate items)
    else ret tt.

(** [{role['id'] for role in roles if 'id' in role}] *)
Fixpoint role_id_set (roles : list value) (acc : pyset) : result pyset :=
  match roles with
  | [] => Ok acc
  | role :: rest =>
      let? has_id := py_in "id" role in
      if has_id then
        let? rid := py_getitem role "id" in
        let? k := py_hash rid in
        role_id_set rest (set_add k acc)
      else role_id_set rest acc
  end.

(** one iteration of the loop that checks the reporting references *)
Definition reports_body (role_ids : pyset) (role : value) : M unit :=
  do has_sup <- lift (py_in "reports_to" role);
  if has_sup then
    do supervisor <- lift (py_getitem role "reports_to");
    do known <- lift (set_contains supervisor role_ids);
    if negb known then
      do rid <- lift (py_getitem role "id");
      _add_issue ERROR "dependencies"
        ("Role '" +++ py_str rid +++ "' reports to undefined role '"
           +++ py_str supervisor +++ "'")
        (Some ("Ensure '" +++ py_str supervisor +++ "' is defined in roles"))
        (Some ("roles." +++ py_str rid +++ ".reports_to"))
    else ret tt
  else ret tt.

(** the nested function [visit] of [has_cycle]; the closure's two sets
    [(visited, rec_stack)] are threaded explicitly and [depth] bounds the
    nesting of calls *)
Fixpoint visit (depth : nat) (graph : pydict) (node : value)
    (st : pyset * pyset) : result bool * (pyset * pyset) :=
  match depth with
  | O => (Raise RecursionError, st)
  | S depth' =>
      let '(visited, rec_stack) := st in
      match py_hash node with
      | Raise e => (Raise e, st)
      | Ok k =>
          if set_mem k rec_stack then (Ok true, st)
          else if set_mem k visited then (Ok false, st)
          else
            let visited := set_add k visited in
            let rec_stack := set_add k rec_stack in
            match dict_get k graph with
            | Some next =>
                match visit depth' graph next (visited, rec_stack) with
                | (Ok true, st') => (Ok true, st')
                | (Ok false, (visited', rec_stack')) =>
                    match set_remove k rec_stack' with
                    | Ok rec_stack'' => (Ok false, (visited', rec_stack''))
                    | Raise e => (Raise e, (visited', rec_stack'))
                    end
                | (Raise e, st') => (Raise e, st')
                end
            | None =>
                match set_remove k rec_stack with
                | Ok rec_stack' => (Ok false, (visited, rec_stack'))
                | Raise e => (Raise e, (visited, rec_stack))
                end
            end
      end
  end.

(** the [for node in graph] loop of [has_cycle] *)
Fixpoint has_cycle_loop (depth : nat) (graph : pydict) (nodes : list hkey)
    (st : pyset * pyset) : result bool :=
  match nodes with
  | [] => Ok false
  | node :: rest =>
      if set_mem node (fst st) then has_cycle_loop depth graph rest st
      else
        match visit depth graph (key_value node) st with
        | (Ok true, _) => Ok true
        | (Ok false, st') => has_cycle_loop depth graph rest st'
        | (Raise e, _) => Raise e
        end
  end.

Definition has_cycle (graph : pydict) : result bool :=
  has_cycle_loop (S (length graph)) graph (map fst graph) ([], []).

(** [{role['id']: role['reports_to'] for role in roles
      if 'id' in role and 'reports_to' in role}] *)
Fixpoint reporting_of (roles : list value) (acc : pydict) : result pydict :=
  match roles with
  | [] => Ok acc
  | role :: rest =>
      let? has_id := py_in "id" role in
      let? both := (if has_id then py_in "reports_to" role else Ok false) in
      if both then
        let? rid := py_getitem role "id" in
        let? supervisor := py_getitem role "reports_to" in
        let? k := py_hash rid in
        reporting_of rest (dict_set k supervisor acc)
      else reporting_of rest acc
  end.

Definition cycle_issue : ValidationIssue :=
  mkIssue ERROR "dependencies" "Circular reporting dependency detected"
    (Some "Remove circular dependencies in reporting structure"%string) None.

Definition _validate_dependencies (config : value) : M unit :=
  do has_roles <- lift (py_in "roles" config);
  if negb has_roles then ret tt
  else
    do roles <- lift (py_getitem config "roles");
    do items <- lift (py_iter roles);
    do role_ids <- lift (role_id_set items []);
    for_ (reports_body role_ids) items ;;
    do reporting <- lift (reporting_of items []);
    do cyclic <- lift (has_cycle reporting);
    if cyclic : bool then add cycle_issue else ret tt.

(** [sum(1 for r in roles if r.get('model') == 'opus')] *)
Fixpoint count_opus (roles : list value) : result Z :=
  match roles with
  | [] => Ok 0
  | r :: rest =>
      let? model := py_get r "model" VNone in
      let? n := count_opus rest in
      Ok ((if eq_str "opus" model then 1 else 0) + n)
  end.

Definition _validate_resources (config : value) : M unit :=
  do has_budget <- lift (py_in "token_budget" config);
  (if has_budget then
     do budget <- lift (py_getitem config "token_budget");
     when (negb (in_literals budget ["premium"; "balanced"; "economic"]%string))
       (_add_issue WARNING "resources"
          ("Unknown token budget '" +++ py_str budget +++ "'")
          (Some "Use one of: premium, balanced, economic"%string)
          (Some "token_budget"%string))
   else ret tt) ;;
  do has_roles <- lift (py_in "roles" config);
  do both <- (if has_roles then lift (py_in "token_budget" config)
              else ret false);
  if both then
    do budget <- lift (py_getitem config "token_budget");
    do roles <- lift (py_getitem config "roles");
    do items <- lift (py_iter roles);
    do opus_count <- lift (count_opus items);
    do total_count <- lift (py_len roles);
    if eq_str "economic" budget && (1 <? opus_count) then
      _add_issue WARNING "resources"
        ("Economic budget with " +++ py_str (VInt opus_count)
           +++ " Opus agents may be expensive")
        (Some "Consider using more Sonnet/Haiku models"%string)
        (Some "roles"%string)
    else if eq_str "premium" budget && (opus_count <? 2) then
      _add_issue INFO "resources"
        "Premium budget allows for more Opus agents if needed"
        (Some "Consider using Opus for critical decision-making roles"%string)
        None
    else ret tt
  else ret tt.

Definition _validate_best_practices (config : value) : M unit :=
  do has_gates <- lift (py_in "quality_gates" config);
  when (negb has_gates)
    (_add_issue INFO "best-practices" "No quality gates defined"
       (Some "Consider adding quality checkpoints"%string) None) ;;
  do has_recovery <- lift (py_in "error_recovery" config);
  when (negb has_recovery)
    (_add_issue WARNING "best-practices" "No error recovery strategy defined"
       (Some "Add error recovery mechanisms for resilience"%string) None) ;;
  do has_metrics <- lift (py_in "success_metrics" config);
  when (negb has_metrics)
    (_add_issue INFO "best-practices" "No success metrics defined"
       (Some "Define measurable success criteria"%string) None) ;;
  do has_workflow <- lift (py_in "workflow" config);
  do has_phases <-
    (if has_workflow then
       do workflow <- lift (py_getitem config "workflow");
       lift (py_in "phases" workflow)
     else ret false);
  if has_phases then
    do workflow <- lift (py_getitem config "workflow");
    do phases <- lift (py_getitem workflow "phases");
    do items <- lift (py_iter phases);
    let has_parallel :=
      existsb (fun phase => str_contains "parallel" (py_str phase)) items in
    if negb has_parallel then
      do n <- lift (py_len phases);
      if 3 <? n then
        _add_issue INFO "optimization"
          "No parallel phases detected in workflow"
          (Some "Consider parallelizing independent tasks for faster completion"%string)
          None
      else ret tt
    else ret tt
  else ret tt.

(** ** [validate] *)

(** the fields of a [TeamValidator] that [validate] reads or writes *)
Record TeamValidator : Type := mkValidator {
  config : value;
  issues : list ValidationIssue
}.

(** the rules, in the order [validate] calls them *)
Definition rules : list (value -> M unit) :=
  [ _validate_structure; _validate_roles; _validate_workflow;
    _validate_communication; _validate_dependencies; _validate_resources;
    _validate_best_practices ].

Definition run_checks (cfg : value) : M unit :=
  _validate_structure cfg ;;
  _validate_roles cfg ;;
  _validate_workflow cfg ;;
  _validate_communication cfg ;;
  _validate_dependencies cfg ;;
  _validate_resources cfg ;;
  _validate_best_practices cfg.

(** [validate]: the returned value (or the exception that escapes) and
    the validator afterwards *)
Definition validate (self : TeamValidator)
    : result (bool * list ValidationIssue) * TeamValidator :=
  let self := mkValidator (config self) [] in
  match run_checks (config self) (issues self) with
  | (Ok _, found) =>
      let has_errors := existsb is_error found in
      (Ok (negb has_errors, found), mkValidator (config self) found)
  | (Raise e, found) => (Raise e, mkValidator (config self) found)
  end.

End Validator.

(** ** The built-ins on ASCII text

    [cpython] gives the parametric built-ins the behaviour CPython has on
    ASCII text (bytes above 127 are passed through unchanged); it is the
    instance the examples run with. *)

Module CPython.

Definition quote : ascii := "'"%char.
Definition dquote : ascii := ascii_of_nat 34.
Definition backslash : ascii := ascii_of_nat 92.

Fixpoint has_char (c : ascii) (s : string) : bool :=
  match s with
  | EmptyString => false
  | String c' rest => Ascii.eqb c c' || has_char c rest
  end.

Definition hex_digit (n : nat) : ascii :=
  ascii_of_nat (if Nat.ltb n 10 then 48 + n else 87 + n).

(** the escape of one character inside [repr(s)], [q] being the quote
    character chosen for the whole string *)
Definition repr_char (q c : ascii) : string :=
  let n := nat_of_ascii c in
  if Ascii.eqb c q || Ascii.eqb c backslash then String backslash (String c "")
  else if Nat.eqb n 9 then String backslash "t"
  else if Nat.eqb n 10 then String backslash "n"
  else if Nat.eqb n 13 then String backslash "r"
  else if Nat.ltb n 32 || Nat.eqb n 127 then
    String backslash
      (String "x" (String (hex_digit (Nat.div n 16))
                     (String (hex_digit (Nat.modulo n 16)) "")))
  else String c "".

Fixpoint repr_chars (q : ascii) (s : string) : string :=
  match s with
  | EmptyString => EmptyString
  | String c rest => repr_char q c +++ repr_chars q rest
  end.

(** [repr(s)] *)
Definition repr_str (s : string) : string :=
  let q := if has_char quote s && negb (has_char dquote s) then dquote
           else quote in
  String q (repr_chars q s +++ String q "").

Fixpoint join (sep : string) (l : list string) : string :=
  match l with
  | [] => ""
  | [x] => x
  | x :: rest => x +++ sep +++ join sep rest
  end.

(** [repr(v)] *)
Fixpoint repr (v : value) : string :=
  match v with
  | VNone => "None"
  | VBool true => "True"
  | VBool false => "False"
  | VInt z => str_of_Z z
  | VStr s => repr_str s
  | VList l => "[" +++ join ", " (map repr l) +++ "]"
  | VDict d =>
      "{" +++ join ", " (map (fun kv => let '(k, x) := kv in
                                        repr_str k +++ ": " +++ repr x) d)
          +++ "}"
  end.

Definition is_space (c : ascii) : bool :=
  let n := nat_of_ascii c in
  Nat.eqb n 32 || (Nat.leb 9 n && Nat.leb n 13) || (Nat.leb 28 n && Nat.leb n 31).

Definition is_digit (c : ascii) : bool :=
  let n := nat_of_ascii c in Nat.leb 48 n && Nat.leb n 57.

Definition digit (c : ascii) : Z := Z.of_nat (nat_of_ascii c) - 48.

Fixpoint lstrip (l : list ascii) : list ascii :=
  match l with
  | c :: rest => if is_space c then lstrip rest else l
  | [] => []
  end.

Definition strip (l : list ascii) : list ascii := rev (lstrip (rev (lstrip l))).

(** the digits after the first one: single underscores may separate them *)
Fixpoint more_digits (acc : Z) (l : list ascii) : option Z :=
  match l with
  | [] => Some acc
  | c :: rest =>
      if is_digit c then more_digits (10 * acc + digit c) rest
      else if Ascii.eqb c "_"%char then
        match rest with
        | d :: rest' =>
            if is_digit d then more_digits (10 * acc + digit d) rest' else None
        | [] => None
        end
      else None
  end.

Definition unsigned (l : list ascii) : option Z :=
  match l with
  | c :: rest => if is_digit c then more_digits (digit c) rest else None
  | [] => None
  end.

(** [int(s)] in base 10 *)
Definition int (s : string) : option Z :=
  match strip (list_ascii_of_string s) with
  | c :: rest =>
      if Ascii.eqb c "-"%char then option_map Z.opp (unsigned rest)
      else if Ascii.eqb c "+"%char then unsigned rest
      else unsigned (c :: rest)
  | [] => None
  end.

Definition lower_char (c : ascii) : ascii :=
  let n := nat_of_ascii c in
  if Nat.leb 65 n && Nat.leb n 90 then ascii_of_nat (n + 32) else c.

Fixpoint lower (s : string) : string :=
  match s with
  | EmptyString => EmptyString
  | String c rest => String (lower_char c) (lower rest)
  end.

Fixpoint chars (s : string) : list string :=
  match s with
  | EmptyString => []
  | String c rest => String c "" :: chars rest
  end.

End CPython.

Definition cpython : PyBuiltins := {|
  py_str_container := CPython.repr;
  py_int := CPython.int;
  py_lower := CPython.lower;
  py_chars := CPython.chars
|}.


(** * The report of [generate_optimization_report]

    The report is built as the list [report] of its lines and joined at
    the end.  Text is held as its UTF-8 bytes: concatenation, [join] and
    the printing of integers act on them as they do on Python's [str]. *)

(** [l.append(x)] *)
Definition list_append {A} (l : list A) (x : A) : list A := l ++ [x].

Section Report.
Local Open Scope string_scope.

(** the line break *)
Definition nl : string := String (ascii_of_nat 10) "".

(** [s * n] *)
Fixpoint str_repeat (s : string) (n : nat) : string :=
  match n with
  | O => ""
  | S n' => s +++ str_repeat s n'
  end.

(** [sep.join(parts)] *)
Fixpoint str_join (sep : string) (parts : list string) : string :=
  match parts with
  | [] => ""
  | [x] => x
  | x :: rest => x +++ sep +++ str_join sep rest
  end.

(** the truth value of an [Optional[str]] *)
Definition has_text (o : option string) : bool :=
  match o with
  | Some s => negb (String.eqb s "")
  | None => false
  end.

(** an [Optional[str]] inside an f-string *)
Definition text_of (o : option string) : string :=
  match o with
  | Some s => s
  | None => "None"
  end.

(** [[i for i in issues if i.level == lvl]] *)
Definition of_level (lvl : ValidationLevel) (issues : list ValidationIssue)
    : list ValidationIssue :=
  filter (fun i => level_eqb (level i) lvl) issues.

(** the body of the loop over the errors, which is also the body of the
    loop over the warnings: the issue, its suggestion and its location *)
Definition report_located (report : list string) (issue : ValidationIssue)
    : list string :=
  let report :=
    list_append report
      (nl +++ "  [" +++ category issue +++ "] " +++ message issue) in
  let report :=
    if has_text (suggestion issue) then
      list_append report ("    💡 " +++ text_of (suggestion issue))
    else report in
  if has_text (path issue) then
    list_append report ("    📍 Location: " +++ text_of (path issue))
  else report.

(** the body of the loop over the info issues: no location *)
Definition report_unlocated (report : list string) (issue : ValidationIssue)
    : list string :=
  let report :=
    list_append report
      (nl +++ "  [" +++ category issue +++ "] " +++ message issue) in
  if has_text (suggestion issue) then
    list_append report ("    💡 " +++ text_of (suggestion issue))
  else report.

(** the three conclusions *)
Definition failed_line : string :=
  "❌ Validation FAILED - Please fix errors before proceeding".

Definition warnings_line : string :=
  "⚠️  Validation PASSED with warnings - Consider addressing warnings".

Definition ready_line : string :=
  "✅ Validation PASSED - Configuration is ready to use".

(** the list [report] when the function returns *)
Definition report_lines (issues : list ValidationIssue) : list string :=
  let report := [] in
  let report := list_append report (nl +++ str_repeat "=" 60) in
  let report := list_append report "TEAM CONFIGURATION VALIDATION REPORT" in
  let report := list_append report (str_repeat "=" 60 +++ nl) in
  let errors := of_level ERROR issues in
  let warnings := of_level WARNING issues in
  let info := of_level INFO issues in
  let report := list_append report "📊 Summary:" in
  let report :=
    list_append report
      ("  • Errors: " +++ str_of_Z (Z.of_nat (length errors))) in
  let report :=
    list_append report
      ("  • Warnings: " +++ str_of_Z (Z.of_nat (length warnings))) in
  let report :=
    list_append report ("  • Info: " +++ str_of_Z (Z.of_nat (length info))) in
  let report := list_append report "" in
  let report :=
    if negb (is_nil errors) then
      fold_left report_located errors
        (list_append report "❌ ERRORS (must fix):")
    else report in
  let report :=
    if negb (is_nil warnings) then
      fold_left report_located warnings
        (list_append report (nl +++ "⚠️  WARNINGS (should fix):"))
    else report in
  let report :=
    if negb (is_nil info) then
      fold_left report_unlocated info
        (list_append report (nl +++ "ℹ️  INFO (suggestions):"))
    else report in
  let report := list_append report (nl +++ str_repeat "-" 60) in
  if negb (is_nil errors) then list_append report failed_line
  else if negb (is_nil warnings) then list_append report warnings_line
  else list_append report ready_line.

Definition generate_optimization_report (issues : list ValidationIssue)
    : string :=
  str_join nl (report_lines issues).

End Report.

(** * Vocabulary of the specification

    The notions the properties below are stated with: the reporting
    graph and its cycles, what a computation emits, the views of a
    document the rules work on. *)

Section Vocabulary.
Context {py : PyBuiltins}.

(** the node a key reports to *)
Definition succ_of (g : pydict) (k : hkey) : option hkey :=
  match dict_get k g with
  | Some v => match py_hash v with Ok k' => Some k' | Raise _ => None end
  | None => None
  end.

(** [steps g n a b]: following [n] reporting links from [a] leads to [b] *)
Fixpoint steps (g : pydict) (n : nat) (a b : hkey) : Prop :=
  match n with
  | O => a = b
  | S n' => exists c, succ_of g a = Some c /\ steps g n' c b
  end.

(** some node leads back to itself by one link or more *)
Definition cyclic (g : pydict) : Prop :=
  exists k n, (1 <= n)%nat /\ steps g n k k.

(** [ends_in g h k]: the chain of links that starts at [k] stops after
    [h] links, at a node that reports to nobody *)
Inductive ends_in (g : pydict) : nat -> hkey -> Prop :=
| ends_here k : dict_get k g = None -> ends_in g 0 k
| ends_next k v k' h :
    dict_get k g = Some v -> py_hash v = Ok k' -> ends_in g h k' ->
    ends_in g (S h) k.

(** the entries of the graph whose key is not yet in [visited]: what bounds
    the nesting of [visit] *)
Definition unvisited (g : pydict) (visited : pyset) : nat :=
  length (filter (fun kv => negb (set_mem (fst kv) visited)) g).

(** every node that [visit] has finished with starts a chain that stops *)
Definition finished_ok (g : pydict) (st : pyset * pyset) : Prop :=
  forall x, In x (fst st) -> ~ In x (snd st) -> exists h, ends_in g h x.

(** [k] occurs in [s] *)
Definition is_substring (k s : string) : Prop :=
  exists a b, s = a +++ k +++ b.

(** what a computation returns, and the issues it adds, when it starts
    on the empty list *)
Definition outcome {A} (m : M A) : result A := fst (m []).

Definition emitted {A} (m : M A) : list ValidationIssue := snd (m []).

(** [m] only appends to the issues it is started on, the same issues
    whatever it is started on, and each of them satisfies [P] *)
Definition emits {A} (P : ValidationIssue -> Prop) (m : M A) : Prop :=
  (forall acc, m acc = (outcome m, acc ++ emitted m)) /\ Forall P (emitted m).

Definition appends {A} (m : M A) : Prop := emits (fun _ => True) m.

(** the issues each rule can emit, by category *)
Definition from_structure (x : ValidationIssue) : Prop :=
  category x = "structure"%string.

Definition from_roles (x : ValidationIssue) : Prop :=
  category x = "roles"%string \/
  (category x = "optimization"%string /\ path x <> None).

Definition from_workflow (x : ValidationIssue) : Prop :=
  category x = "workflow"%string.

Definition from_communication (x : ValidationIssue) : Prop :=
  category x = "communication"%string.

Definition from_dependencies (x : ValidationIssue) : Prop :=
  category x = "dependencies"%string /\ (path x <> None \/ x = cycle_issue).

Definition from_resources (x : ValidationIssue) : Prop :=
  category x = "resources"%string.

Definition from_best_practices (x : ValidationIssue) : Prop :=
  category x = "best-practices"%string \/
  (category x = "optimization"%string /\ path x = None).

(** the rule returns on the document *)
Definition rule_ok (cfg : value) (rule : value -> M unit) : Prop :=
  outcome (rule cfg) = Ok tt.

(** the view of a document value as a dict *)
Definition field (k : string) (v : value) : option value :=
  match v with
  | VDict d => lookup k d
  | _ => None
  end.

(** the loop state after the elements [xs], when one element changes it
    by [step] *)
Definition state_after {A St} (step : A -> St -> St) (xs : list A) (s : St)
    : St :=
  fold_left (fun t y => step y t) xs s.

(** the key under which a role's id enters [role_ids] *)
Definition role_key (role : value) : option hkey :=
  match field "id" role with
  | Some rid => match py_hash rid with Ok k => Some k | Raise _ => None end
  | None => None
  end.

(** [role.get('id')] *)
Definition role_id (role : value) : value :=
  match field "id" role with
  | Some rid => rid
  | None => VNone
  end.

(** the duplicate-id errors among the issues *)
Definition is_duplicate_error (x : ValidationIssue) : bool :=
  is_error x && String.eqb (category x) "roles"
  && String.prefix "Duplicate role ID: " (message x).

(** the duplicate-id errors of the loop, from index [i] on, [ids] being
    the keys seen before *)
Fixpoint duplicate_errors (i : Z) (roles : list value) (ids : pyset)
    : list ValidationIssue :=
  match roles with
  | [] => []
  | role :: rest =>
      match role_key role with
      | Some k =>
          (if set_mem k ids then [duplicate_id_issue i (role_id role)] else [])
          ++ duplicate_errors (i + 1) rest (set_add k ids)
      | None => duplicate_errors (i + 1) rest ids
      end
  end.

(** [role] at position [m] of [roles] has the key [k] *)
Definition key_at (roles : list value) (m : nat) (k : hkey) : Prop :=
  exists role, nth_error roles m = Some role /\ role_key role = Some k.

(** the key at position [m] is new: not in [ids], and the key of no
    earlier role *)
Definition fresh_at (roles : list value) (ids : pyset) (m : nat) : Prop :=
  forall k, key_at roles m k ->
  ~ In k ids /\ forall a, (a < m)%nat -> ~ key_at roles a k.

(** [role_ids] after one role *)
Definition role_step (role : value) (ids : pyset) : pyset :=
  match role_key role with
  | Some k => set_add k ids
  | None => ids
  end.

(** [role.get('type', '')] *)
Definition role_type (role : value) : value :=
  match field "type" role with
  | Some t => t
  | None => VStr ""
  end.

(** the suggestion the specification describes: the model of the first
    entry of the table, in declaration order, whose keyword occurs in the
    lowered role type, and ["sonnet"] when no keyword does *)
Definition suggestion_spec (lowered sug : string) : Prop :=
  (exists pre key post,
      role_models = pre ++ (key, sug) :: post /\
      is_substring key lowered /\
      forall kv, In kv pre -> ~ is_substring (fst kv) lowered)
  \/ ((forall kv, In kv role_models -> ~ is_substring (fst kv) lowered) /\
      sug = "sonnet"%string).

(** the path every issue of the model block carries *)
Definition model_path (i : Z) : string :=
  ("roles[" +++ str_of_Z i +++ "]") +++ ".model".

(** the key under which a phase's name enters [phase_names] *)
Definition phase_key (phase : value) : option hkey :=
  match field "name" phase with
  | Some name => match py_hash name with Ok k => Some k | Raise _ => None end
  | None => None
  end.

(** [phase.get('name')] *)
Definition phase_name (phase : value) : value :=
  match field "name" phase with
  | Some name => name
  | None => VNone
  end.

(** [phase_names] after one phase *)
Definition name_step (phase : value) (names : pyset) : pyset :=
  match phase_key phase with
  | Some k => set_add k names
  | None => names
  end.

(** the percentage a [duration] value stands for: a string that ends in
    [%] and whose part before it [int] accepts *)
Definition percentage_of (duration : value) : option Z :=
  match duration with
  | VStr s => if endswith_percent s then py_int (drop_last s) else None
  | _ => None
  end.

(** what a phase adds to [total_duration] *)
Definition phase_percentage (phase : value) : Z :=
  match field "duration" phase with
  | Some duration =>
      match percentage_of duration with Some n => n | None => 0 end
  | None => 0
  end.

(** the sum of the parseable percentages of the phases *)
Definition sum_percentages (phases : list value) : Z :=
  fold_right (fun phase acc => phase_percentage phase + acc) 0 phases.

(** [(phase_names, total_duration)] after one phase *)
Definition phase_step (phase : value) (st : pyset * Z) : pyset * Z :=
  (name_step phase (fst st), snd st + phase_percentage phase).

(** the phase at position [j] declares the name with key [k] *)
Definition named_at (phases : list value) (j : nat) (k : hkey) : Prop :=
  exists phase, nth_error phases j = Some phase /\ phase_key phase = Some k.

(** equality of issues is decidable: issues can be counted *)
Definition issue_eq_dec (x y : ValidationIssue) : {x = y} + {x <> y}.
Proof.
  decide equality; try apply string_dec;
    try (decide equality; apply string_dec).
Defined.

(** a cycle, as the list of its nodes: each reports to the next one and
    the last one to the first *)
Fixpoint chain (g : pydict) (a : hkey) (rest : list hkey) (last : hkey)
    : Prop :=
  match rest with
  | [] => succ_of g a = Some last
  | b :: rest' => succ_of g a = Some b /\ chain g b rest' last
  end.

Definition is_cycle (g : pydict) (c : list hkey) : Prop :=
  match c with
  | [] => False
  | a :: rest => chain g a rest a
  end.

Definition acyclic (g : pydict) : Prop := forall c, ~ is_cycle g c.

(** the link a role contributes to the reporting graph *)
Definition reports_link (role : value) : option (hkey * value) :=
  match role_key role, field "reports_to" role with
  | Some k, Some supervisor => Some (k, supervisor)
  | _, _ => None
  end.

(** the reporting graph after one role *)
Definition link_step (acc : pydict) (role : value) : pydict :=
  match reports_link role with
  | Some (k, supervisor) => dict_set k supervisor acc
  | None => acc
  end.

(** the error of the structure rule for a required key that is absent *)
Definition missing_field_issue (field : string) : ValidationIssue :=
  mkIssue ERROR "structure" ("Missing required field: " +++ field)
    (Some ("Add '" +++ field +++ "' to your configuration")) (Some field).

Definition required_fields : list string :=
  ["name"; "roles"; "workflow"]%string.

(** the error of the roles rule for an empty list of roles *)
Definition no_roles_issue : ValidationIssue :=
  mkIssue ERROR "roles" "Team must have at least one role"
    (Some "Add role definitions to your team"%string) None.

(** *** Documents that conform to the data model

    Every key may be absent; a key that is present holds a value of the
    shape the data model gives it. *)










End Vocabulary.

(** * Example documents *)

Module Examples.

Local Open Scope string_scope.

Definition role (id : string) (fields : list (string * value)) : value :=
  VDict (("id", VStr id) :: fields
         ++ [("responsibilities", VList [VStr "deliver"])]).

(** the keys that keep the communication, resources and best-practices
    rules silent *)
Definition quiet : list (string * value) :=
  [ ("communication",
     VDict [("channels",
             VList [VDict [("type", VStr "synchronous");
                           ("name", VStr "standup");
                           ("frequency", VStr "daily")]])]);
    ("quality_gates", VList [VStr "review"]);
    ("error_recovery", VStr "retry");
    ("success_metrics", VList [VStr "coverage"]) ].

Definition doc (roles phases : list value) : TeamValidator :=
  mkValidator
    (VDict ([("name", VStr "T"); ("roles", VList roles);
             ("workflow", VDict [("phases", VList phases)])] ++ quiet))
    [].

Definition three_roles : list value :=
  [role "a" []; role "b" []; role "c" []].

(** [{"name": "T", "roles": [...], "workflow": null}] *)
Definition null_workflow : TeamValidator :=
  mkValidator
    (VDict [("name", VStr "T"); ("roles", VList three_roles);
            ("workflow", VNone)])
    [].

(** a role without an id that reports to a role nobody declares *)
Definition anonymous_report : TeamValidator :=
  mkValidator
    (VDict [("name", VStr "T");
            ("roles", VList [VDict [("reports_to", VStr "boss")]]);
            ("workflow", VDict [("phases", VList [])])])
    [].

(** a phase that names itself as a dependency *)
Definition self_dependency : TeamValidator :=
  doc three_roles
    [VDict [("name", VStr "build"); ("dependencies", VList [VStr "build"])]].

(** a phase that depends on a phase declared after it *)
Definition design_phase : value :=
  VDict [("name", VStr "design"); ("dependencies", VList [VStr "build"])].

Definition forward_phases : list value :=
  [design_phase; VDict [("name", VStr "build")]].

Definition forward_dependency : TeamValidator := doc three_roles forward_phases.

Definition negative_duration : TeamValidator :=
  doc three_roles [VDict [("name", VStr "a"); ("duration", VStr "-20%")]].

Definition eighty_phases : list value :=
  [VDict [("name", VStr "design"); ("duration", VStr "40%")];
   VDict [("name", VStr "build"); ("duration", VStr "40%")]].

Definition eighty_percent : TeamValidator := doc three_roles eighty_phases.

Definition twice_a_roles : list value :=
  [role "a" []; role "a" []; role "c" []].

Definition twice_a : TeamValidator := doc twice_a_roles [].

Definition developer_role : value :=
  role "a" [("model", VStr "opus"); ("type", VStr "Senior Developer")].

Definition senior_developer : TeamValidator :=
  doc [developer_role; role "b" []; role "c" []] [].

Definition two_cycle_roles : list value :=
  [role "a" [("reports_to", VStr "b")];
   role "b" [("reports_to", VStr "a")]; role "c" []].

Definition two_cycle : TeamValidator := doc two_cycle_roles [].

Definition self_report_roles : list value :=
  [role "a" [("reports_to", VStr "a")]; role "b" []; role "c" []].

Definition self_report : TeamValidator := doc self_report_roles [].

(** the first role reports to itself, the second one repeats its id and
    reports elsewhere *)
Definition overridden_self_report : TeamValidator :=
  doc [role "a" [("reports_to", VStr "a")];
       role "a" [("reports_to", VStr "b")]; role "b" []] [].

Definition two_cycles_roles : list value :=
  [role "a" [("reports_to", VStr "b")];
   role "b" [("reports_to", VStr "a")];
   role "c" [("reports_to", VStr "d")];
   role "d" [("reports_to", VStr "c")]].

Definition two_cycles : TeamValidator := doc two_cycles_roles [].

(** a document without the required [workflow] key *)
Definition no_workflow_items : list (string * value) :=
  [("name", VStr "T"); ("roles", VList three_roles)] ++ quiet.

Definition no_workflow : TeamValidator := mkValidator (VDict no_workflow_items) [].

Definition no_roles : TeamValidator := doc [] [].

(** a document given by its name, its roles, its phases and further
    top-level keys *)
Definition items_of (name : value) (roles phases : list value)
    (more : list (string * value)) : list (string * value) :=
  [("name", name); ("roles", VList roles);
   ("workflow", VDict [("phases", VList phases)])] ++ more.

Definition unnamed_items : list (string * value) :=
  items_of (VStr "") three_roles [] quiet.

Definition unnamed : TeamValidator := mkValidator (VDict unnamed_items) [].

(** the keys that keep the best-practices rule silent *)
Definition practices : list (string * value) :=
  [ ("quality_gates", VList [VStr "review"]);
    ("error_recovery", VStr "retry");
    ("success_metrics", VList [VStr "coverage"]) ].

Definition no_communication_items : list (string * value) :=
  items_of (VStr "T") three_roles [] practices.

Definition no_communication : TeamValidator :=
  mkValidator (VDict no_communication_items) [].

(** a workflow without phases *)
Definition no_phases : TeamValidator :=
  mkValidator
    (VDict ([("name", VStr "T"); ("roles", VList three_roles);
             ("workflow", VDict [])] ++ quiet))
    [].

Definition cheap_budget_items : list (string * value) :=
  items_of (VStr "T") three_roles [] (("token_budget", VStr "cheap") :: quiet).

Definition cheap_budget : TeamValidator :=
  mkValidator (VDict cheap_budget_items) [].

Definition lead (id : string) : value :=
  role id [("model", VStr "opus"); ("type", VStr "tech-lead")].

Definition two_leads : list value := [lead "a"; lead "b"; role "c" []].

Definition economic_items : list (string * value) :=
  items_of (VStr "T") two_leads [] (("token_budget", VStr "economic") :: quiet).

Definition economic_leads : TeamValidator :=
  mkValidator (VDict economic_items) [].

(** a document without [error_recovery] *)
Definition no_recovery_items : list (string * value) :=
  items_of (VStr "T") three_roles []
    [ ("communication",
       VDict [("channels",
               VList [VDict [("type", VStr "synchronous");
                             ("frequency", VStr "daily")]])]);
      ("quality_gates", VList [VStr "review"]);
      ("success_metrics", VList [VStr "coverage"]) ].

Definition no_recovery : TeamValidator :=
  mkValidator (VDict no_recovery_items) [].

Definition phase (name : string) : value := VDict [("name", VStr name)].

Definition four_phases : list value :=
  [phase "plan"; phase "design"; phase "build"; phase "test"].

Definition four_phases_items : list (string * value) :=
  items_of (VStr "T") three_roles four_phases quiet.

Definition sequential : TeamValidator :=
  mkValidator (VDict four_phases_items) [].

(** a role without [id] *)
Definition anonymous_role : value :=
  VDict [("responsibilities", VList [VStr "deliver"])].

Definition anonymous_roles : list value :=
  [anonymous_role; role "b" []; role "c" []].

Definition anonymous : TeamValidator := doc anonymous_roles [].

(** a role whose model is not a model name *)
Definition gpt_role : value :=
  role "a" [("model", VStr "gpt"); ("type", VStr "developer")].

Definition gpt_roles : list value := [gpt_role; role "b" []; role "c" []].

Definition gpt : TeamValidator := doc gpt_roles [].

(** a role without [responsibilities] *)
Definition idle_role : value := VDict [("id", VStr "a")].

Definition idle_roles : list value := [idle_role; role "b" []; role "c" []].

Definition idle : TeamValidator := doc idle_roles [].

Definition solo : TeamValidator := doc [role "a" []] [].

(** a phase without [name] *)
Definition unnamed_phase : value := VDict [("duration", VStr "100%")].

Definition unnamed_phases : TeamValidator := doc three_roles [unnamed_phase].

Definition twice_build : list value := [phase "build"; phase "build"].

Definition repeated_phase : TeamValidator := doc three_roles twice_build.

(** a document given by its channels *)
Definition channels_items (channels : list value) : list (string * value) :=
  items_of (VStr "T") three_roles []
    (("communication", VDict [("channels", VList channels)]) :: practices).

Definition mail : list (string * value) :=
  [("type", VStr "asynchronous"); ("name", VStr "mail");
   ("frequency", VStr "daily")].

Definition asynchronous_only : TeamValidator :=
  mkValidator (VDict (channels_items [VDict mail])) [].

Definition standup : list (string * value) :=
  [("type", VStr "synchronous"); ("name", VStr "standup")].

Definition unscheduled : TeamValidator :=
  mkValidator (VDict (channels_items [VDict standup])) [].

(** a role that reports to a role nobody declares *)
Definition orphan_roles : list value :=
  [role "a" [("reports_to", VStr "boss")]; role "b" []; role "c" []].

Definition orphan : TeamValidator := doc orphan_roles [].

End Examples.

(** * The findings of the rules, by name

    The issues the rules add, as values the properties can speak about:
    each one is the record a call of [_add_issue] in [validate_team.py]
    builds. *)

Section Findings.
Context {py : PyBuiltins}.
Local Open Scope string_scope.

(** *** Structure *)

Definition team_name_issue : ValidationIssue :=
  mkIssue ERROR "structure" "Team name must be a non-empty string"
    (Some "Provide a descriptive team name") None.

(** what [_validate_structure] accepts as a team name: [name] is true and
    an instance of [str] *)
Definition acceptable_name (name : value) : Prop :=
  exists s, name = VStr s /\ s <> "".

(** *** Roles *)

(** [role.get('id', i)] *)
Definition role_id_or (i : Z) (role : value) : value :=
  match field "id" role with
  | Some rid => rid
  | None => VInt i
  end.

Definition valid_models : list string := ["opus"; "sonnet"; "haiku"].

Definition invalid_model_issue (i : Z) (model rid : value) : ValidationIssue :=
  mkIssue ERROR "roles"
    ("Invalid model '" +++ py_str model +++ "' for role " +++ py_str rid)
    (Some "Use one of: opus, sonnet, haiku")
    (Some (("roles[" +++ py_str (VInt i) +++ "]") +++ ".model")).

Definition no_responsibilities_issue (i : Z) (rid : value) : ValidationIssue :=
  mkIssue WARNING "roles"
    ("Role '" +++ py_str rid +++ "' has no defined responsibilities")
    (Some "Add clear responsibilities for better task allocation")
    (Some (("roles[" +++ py_str (VInt i) +++ "]") +++ ".responsibilities")).

(** ['responsibilities' not in role or not role['responsibilities']] *)
Definition lacks_responsibilities (role : value) : Prop :=
  match field "responsibilities" role with
  | Some resp => truthy resp = false
  | None => True
  end.

Definition large_team_issue (team_size : Z) : ValidationIssue :=
  mkIssue WARNING "roles"
    ("Large team size (" +++ py_str (VInt team_size)
       +++ ") may cause coordination overhead")
    (Some "Consider splitting into smaller sub-teams") (Some "roles").

Definition small_team_issue (team_size : Z) : ValidationIssue :=
  mkIssue INFO "roles"
    ("Small team size (" +++ py_str (VInt team_size)
       +++ ") may limit parallelization")
    (Some "Consider if additional roles would help") (Some "roles").

(** the findings of the three blocks of the loop on one role, [role_ids]
    being the ids seen before it *)
Definition id_findings (i : Z) (role : value) (role_ids : pyset)
    : list ValidationIssue :=
  match role_key role with
  | Some k =>
      if set_mem k role_ids then [duplicate_id_issue i (role_id role)] else []
  | None => [missing_id_issue i]
  end.

Definition model_findings (i : Z) (role : value) : list ValidationIssue :=
  match field "model" role with
  | Some model =>
      (if in_literals model valid_models then []
       else [invalid_model_issue i model (role_id_or i role)])
      ++ match _suggest_model (role_type role) with
         | Ok suggested_model =>
             if eq_str suggested_model model then []
             else [model_fit_issue i (role_id role) model suggested_model
                     (role_type role)]
         | Raise _ => []
         end
  | None => []
  end.

Definition responsibility_findings (i : Z) (role : value)
    : list ValidationIssue :=
  match field "responsibilities" role with
  | Some resp =>
      if truthy resp then [] else [no_responsibilities_issue i (role_id role)]
  | None => [no_responsibilities_issue i (role_id role)]
  end.

Definition role_findings (i : Z) (role : value) (role_ids : pyset)
    : list ValidationIssue :=
  id_findings i role role_ids ++ model_findings i role
  ++ responsibility_findings i role.

(** the findings of the loop over the roles, from index [i] on *)
Fixpoint roles_findings (i : Z) (roles : list value) (role_ids : pyset)
    : list ValidationIssue :=
  match roles with
  | [] => []
  | role :: rest =>
      role_findings i role role_ids
      ++ roles_findings (i + 1)%Z rest (role_step role role_ids)
  end.

Definition team_size_findings (team_size : Z) : list ValidationIssue :=
  if (15 <? team_size)%Z then [large_team_issue team_size]
  else if (team_size <? 3)%Z then [small_team_issue team_size]
  else [].

Definition is_dict (v : value) : Prop := exists d, v = VDict d.

(** a role the loop gets through: a dict whose [id], when it has one, is
    hashable, and whose [type] is a string when it has a [model] *)
Definition readable_role (role : value) : Prop :=
  is_dict role /\
  (role_key role = None -> field "id" role = None) /\
  (field "model" role <> None ->
   exists suggested_model, _suggest_model (role_type role) = Ok suggested_model).

(** *** Workflow *)

Definition no_phases_issue : ValidationIssue :=
  mkIssue WARNING "workflow" "No workflow phases defined"
    (Some "Define phases for better task organization")
    (Some "workflow.phases").

Definition missing_phase_name_issue (i : Z) : ValidationIssue :=
  mkIssue ERROR "workflow"
    ("Phase at index " +++ py_str (VInt i) +++ " missing 'name'")
    (Some "Add name for the phase")
    (Some ("workflow.phases[" +++ py_str (VInt i) +++ "]")).

Definition duplicate_phase_issue (i : Z) (name : value) : ValidationIssue :=
  mkIssue ERROR "workflow"
    ("Duplicate phase name: " +++ py_str name)
    (Some "Ensure phase names are unique")
    (Some (("workflow.phases[" +++ py_str (VInt i) +++ "]") +++ ".name")).

(** the findings of the two blocks of the loop on one phase,
    [phase_names] being the names seen before it; the dependency block
    sees the name of the phase itself as well *)
Definition name_findings (i : Z) (phase : value) (phase_names : pyset)
    : list ValidationIssue :=
  match phase_key phase with
  | Some k =>
      if set_mem k phase_names
      then [duplicate_phase_issue i (phase_name phase)] else []
  | None => [missing_phase_name_issue i]
  end.

Definition dependency_finding (i : Z) (phase : value) (phase_names : pyset)
    (dep : value) : list ValidationIssue :=
  match py_hash dep with
  | Ok k =>
      if set_mem k phase_names then []
      else [undefined_dependency_issue i (phase_name phase) dep]
  | Raise _ => []
  end.

Definition dependency_findings (i : Z) (phase : value) (phase_names : pyset)
    : list ValidationIssue :=
  match field "dependencies" phase with
  | Some deps =>
      match py_iter deps with
      | Ok items => flat_map (dependency_finding i phase phase_names) items
      | Raise _ => []
      end
  | None => []
  end.

Definition phase_findings (i : Z) (phase : value) (phase_names : pyset)
    : list ValidationIssue :=
  name_findings i phase phase_names
  ++ dependency_findings i phase (name_step phase phase_names).

(** the findings of the loop over the phases, from index [i] on *)
Fixpoint phases_findings (i : Z) (phases : list value) (phase_names : pyset)
    : list ValidationIssue :=
  match phases with
  | [] => []
  | phase :: rest =>
      phase_findings i phase phase_names
      ++ phases_findings (i + 1)%Z rest (name_step phase phase_names)
  end.

(** a phase the loop gets through: when no name is recorded for it, it
    has no [name] *)
Definition readable_phase (phase : value) : Prop :=
  phase_key phase = None -> field "name" phase = None.

(** the names recorded before the phase at position [m] *)
Definition names_before (phases : list value) (m : nat) : pyset :=
  state_after name_step (firstn m phases) [].

(** the name with key [k] is declared by the phase at position [i] or by
    an earlier one *)
Definition declared_by (phases : list value) (i : nat) (k : hkey) : Prop :=
  exists j, (j <= i)%nat /\ named_at phases j k.

(** *** Communication *)

Definition no_communication_issue : ValidationIssue :=
  mkIssue INFO "communication" "No communication protocols defined"
    (Some "Consider defining communication channels and protocols") None.

Definition no_sync_issue : ValidationIssue :=
  mkIssue WARNING "communication"
    "No synchronous communication channel defined"
    (Some "Add at least one synchronous channel (e.g., daily standup)") None.

(** [channel.get('name', i)] *)
Definition channel_name_or (i : Z) (channel : value) : value :=
  match field "name" channel with
  | Some name => name
  | None => VInt i
  end.

Definition no_frequency_issue (i : Z) (name : value) : ValidationIssue :=
  mkIssue INFO "communication"
    ("Channel '" +++ py_str name +++ "' has no defined frequency")
    (Some "Specify communication frequency")
    (Some ("communication.channels[" +++ py_str (VInt i) +++ "].frequency")).

(** [ch.get('type') == 'synchronous'] *)
Definition is_synchronous (channel : value) : bool :=
  match field "type" channel with
  | Some t => eq_str "synchronous" t
  | None => false
  end.

Definition sync_findings (channels : list value) : list ValidationIssue :=
  if existsb is_synchronous channels then [] else [no_sync_issue].

(** the finding of the loop on one channel *)
Definition channel_findings (ic : Z * value) : list ValidationIssue :=
  let '(i, channel) := ic in
  match channel with
  | VDict c =>
      match lookup "frequency" c with
      | Some _ => []
      | None => [no_frequency_issue i (channel_name_or i channel)]
      end
  | _ => []
  end.

(** *** Dependencies *)

Definition undefined_supervisor_issue (rid supervisor : value)
    : ValidationIssue :=
  mkIssue ERROR "dependencies"
    ("Role '" +++ py_str rid +++ "' reports to undefined role '"
       +++ py_str supervisor +++ "'")
    (Some ("Ensure '" +++ py_str supervisor +++ "' is defined in roles"))
    (Some ("roles." +++ py_str rid +++ ".reports_to")).

(** some role of the list declares the id with key [k] *)
Definition declared_id (roles : list value) (k : hkey) : Prop :=
  exists role, In role roles /\ role_key role = Some k.

(** the finding of the reference check on one role, [role_ids] being the
    ids of all the roles *)
Definition supervisor_findings (role_ids : pyset) (role : value)
    : list ValidationIssue :=
  match field "reports_to" role with
  | Some supervisor =>
      match py_hash supervisor with
      | Ok k =>
          if set_mem k role_ids then []
          else [undefined_supervisor_issue (role_id role) supervisor]
      | Raise _ => []
      end
  | None => []
  end.

(** *** Resources *)

Definition budgets : list string := ["premium"; "balanced"; "economic"].

Definition unknown_budget_issue (budget : value) : ValidationIssue :=
  mkIssue WARNING "resources"
    ("Unknown token budget '" +++ py_str budget +++ "'")
    (Some "Use one of: premium, balanced, economic") (Some "token_budget").

Definition economic_opus_issue (opus_count : Z) : ValidationIssue :=
  mkIssue WARNING "resources"
    ("Economic budget with " +++ py_str (VInt opus_count)
       +++ " Opus agents may be expensive")
    (Some "Consider using more Sonnet/Haiku models") (Some "roles").

Definition premium_issue : ValidationIssue :=
  mkIssue INFO "resources"
    "Premium budget allows for more Opus agents if needed"
    (Some "Consider using Opus for critical decision-making roles") None.

(** the roles whose [model] is ["opus"] *)
Definition uses_opus (role : value) : bool :=
  match field "model" role with
  | Some model => eq_str "opus" model
  | None => false
  end.

Definition opus_roles (roles : list value) : Z :=
  Z.of_nat (length (filter uses_opus roles)).

(** *** Best practices *)

Definition no_gates_issue : ValidationIssue :=
  mkIssue INFO "best-practices" "No quality gates defined"
    (Some "Consider adding quality checkpoints") None.

Definition no_recovery_issue : ValidationIssue :=
  mkIssue WARNING "best-practices" "No error recovery strategy defined"
    (Some "Add error recovery mechanisms for resilience") None.

Definition no_metrics_issue : ValidationIssue :=
  mkIssue INFO "best-practices" "No success metrics defined"
    (Some "Define measurable success criteria") None.

Definition no_parallel_issue : ValidationIssue :=
  mkIssue INFO "optimization" "No parallel phases detected in workflow"
    (Some "Consider parallelizing independent tasks for faster completion")
    None.

(** the reminder for the key [k], made when the dict lacks it *)
Definition key_reminder (d : list (string * value)) (k : string)
    (x : ValidationIssue) : list ValidationIssue :=
  match lookup k d with
  | Some _ => []
  | None => [x]
  end.

(** the remark on parallel phases, made when [parallel] occurs in the
    printed form of no phase and there are more than three phases *)
Definition parallel_hint (phases : list value) : list ValidationIssue :=
  if negb (existsb (fun phase => str_contains "parallel" (py_str phase)) phases)
     && (3 <? Z.of_nat (length phases))%Z
  then [no_parallel_issue] else [].

(** *** All issues *)

(** the issue comes with a suggestion that is not empty *)
Definition has_advice (x : ValidationIssue) : bool :=
  match suggestion x with
  | Some (String _ _) => true
  | _ => false
  end.

Definition categories : list string :=
  ["structure"; "roles"; "optimization"; "workflow"; "communication";
   "dependencies"; "resources"; "best-practices"].

(** the categories in which an issue can be an ERROR *)
Definition failing_categories : list string :=
  ["structure"; "roles"; "workflow"; "dependencies"].

Definition one_of (l : list string) (s : string) : bool :=
  existsb (String.eqb s) l.

(** the category is a known one, and an ERROR has a failing category *)
Definition well_classified (x : ValidationIssue) : bool :=
  one_of categories (category x)
  && (negb (is_error x) || one_of failing_categories (category x)).

(** *** The report *)

Definition has_line_break (s : string) : bool :=
  CPython.has_char (ascii_of_nat 10) s.

(** the text after the last line break of [s] *)
Fixpoint last_line (s : string) : string :=
  match s with
  | EmptyString => ""
  | String c rest =>
      if has_line_break rest then last_line rest
      else if Ascii.eqb c (ascii_of_nat 10) then rest
      else s
  end.

Definition is_warning (x : ValidationIssue) : bool :=
  level_eqb (level x) WARNING.

(** the conclusion of the report, from the levels of the issues *)
Definition verdict_line (issues : list ValidationIssue) : string :=
  if existsb is_error issues then failed_line
  else if existsb is_warning issues then warnings_line
  else ready_line.

(** the lines of the entry of an issue, with and without its location *)
Definition located_lines (x : ValidationIssue) : list string :=
  report_located [] x.

Definition unlocated_lines (x : ValidationIssue) : list string :=
  report_unlocated [] x.

(** the line that opens the entry of an issue in the report *)
Definition entry_line (x : ValidationIssue) : string :=
  nl +++ "  [" +++ category x +++ "] " +++ message x.

Definition is_entry_line (line : string) : bool :=
  String.prefix (nl +++ "  [") line.

(** an issue without its location when it is an INFO *)
Definition without_info_path (x : ValidationIssue) : ValidationIssue :=
  match level x with
  | INFO => mkIssue (level x) (category x) (message x) (suggestion x) None
  | _ => x
  end.

End Findings.
(** * Properties *)

(** ** Keys, sets and dicts *)

Lemma hkey_eqb_eq (a b : hkey) : hkey_eqb a b = true <-> a = b.
Proof.
  destruct a, b; simpl; split; intros H; try discriminate; try reflexivity.
  - apply Z.eqb_eq in H. now subst.
  - inversion H. apply Z.eqb_refl.
  - apply String.eqb_eq in H. now subst.
  - inversion H. apply String.eqb_refl.
Qed.

Lemma hkey_eqb_refl (a : hkey) : hkey_eqb a a = true.
Proof. now apply hkey_eqb_eq. Qed.

Lemma hkey_eqb_neq (a b : hkey) : hkey_eqb a b = false <-> a <> b.
Proof.
  split.
  - intros H E. apply hkey_eqb_eq in E. congruence.
  - intros H. destruct (hkey_eqb a b) eqn:E; [|reflexivity].
    apply hkey_eqb_eq in E. contradiction.
Qed.

Lemma set_mem_In (k : hkey) (s : pyset) : set_mem k s = true <-> In k s.
Proof.
  unfold set_mem. rewrite existsb_exists. split.
  - intros [x [Hx E]]. apply hkey_eqb_eq in E. now subst.
  - intros H. exists k. split; [assumption | apply hkey_eqb_refl].
Qed.

Lemma set_mem_notIn (k : hkey) (s : pyset) : set_mem k s = false <-> ~ In k s.
Proof.
  rewrite <- set_mem_In. destruct (set_mem k s); split; congruence.
Qed.

Lemma set_add_In (k x : hkey) (s : pyset) :
  In x (set_add k s) <-> x = k \/ In x s.
Proof.
  unfold set_add. destruct (set_mem k s) eqn:E; simpl.
  - apply set_mem_In in E. split; [tauto | intros [-> | H]; assumption].
  - split; intros [H | H]; auto.
Qed.

Lemma filter_other_notIn (k : hkey) (s : pyset) :
  ~ In k s -> filter (fun k' => negb (hkey_eqb k k')) s = s.
Proof.
  induction s as [|x s IH]; simpl; intros H; [reflexivity|].
  destruct (hkey_eqb k x) eqn:E; simpl.
  - apply hkey_eqb_eq in E. subst. tauto.
  - f_equal. apply IH. tauto.
Qed.

(** removing an element that was pushed on a set it was not in gives the
    set back *)
Lemma set_remove_add (k : hkey) (s : pyset) :
  set_mem k s = false -> set_remove k (set_add k s) = Ok s.
Proof.
  intros H. unfold set_add, set_remove. rewrite H. unfold set_mem. simpl.
  rewrite hkey_eqb_refl. simpl. f_equal.
  apply filter_other_notIn. now apply set_mem_notIn.
Qed.

Lemma dict_get_In (k : hkey) (v : value) (d : pydict) :
  dict_get k d = Some v -> In k (map fst d).
Proof.
  induction d as [|[k' v'] d IH]; simpl; [discriminate|].
  destruct (hkey_eqb k k') eqn:E.
  - apply hkey_eqb_eq in E. auto.
  - auto.
Qed.

Lemma dict_get_set_same (k : hkey) (v : value) (d : pydict) :
  dict_get k (dict_set k v d) = Some v.
Proof.
  induction d as [|[k' v'] d IH]; simpl.
  - now rewrite hkey_eqb_refl.
  - destruct (hkey_eqb k k') eqn:E; simpl; rewrite E; auto.
Qed.

Lemma dict_get_set_other (k k' : hkey) (v : value) (d : pydict) :
  k <> k' -> dict_get k (dict_set k' v d) = dict_get k d.
Proof.
  intros N. induction d as [|[k0 v0] d IH]; simpl.
  - apply hkey_eqb_neq in N. now rewrite N.
  - destruct (hkey_eqb k' k0) eqn:E; simpl.
    + apply hkey_eqb_eq in E. subst k0.
      apply hkey_eqb_neq in N. now rewrite N.
    + now rewrite IH.
Qed.

Lemma py_hash_key_value (k : hkey) : py_hash (key_value k) = Ok k.
Proof. now destruct k. Qed.

(** ** The reporting graph and its cycles *)

Lemma steps_snoc (g : pydict) (n : nat) (a b c : hkey) :
  steps g n a b -> succ_of g b = Some c -> steps g (S n) a c.
Proof.
  revert a. induction n as [|n IH]; simpl; intros a H Hs.
  - subst. exists c. auto.
  - destruct H as [x [Hx H]]. exists x. split; [assumption|].
    apply (IH x H Hs).
Qed.

Lemma ends_in_steps (g : pydict) (n : nat) :
  forall a b h, steps g n a b -> ends_in g h a ->
  exists h', h = (n + h')%nat /\ ends_in g h' b.
Proof.
  induction n as [|n IH]; simpl; intros a b h Hs He.
  - subst. exists h. auto.
  - destruct Hs as [c [Hc Hs]]. unfold succ_of in Hc.
    inversion He as [k Hk | k v k' h0 Hk Hh He']; subst.
    + rewrite Hk in Hc. discriminate.
    + rewrite Hk, Hh in Hc. inversion Hc; subst.
      destruct (IH _ _ _ Hs He') as [h' [-> Hb]]. exists h'. auto.
Qed.

Lemma ends_in_fun (g : pydict) (k : hkey) (h : nat) :
  ends_in g h k -> forall h', ends_in g h' k -> h = h'.
Proof.
  induction 1 as [k Hk | k v k' h Hk Hh He IH]; intros h' H'.
  - inversion H'; subst; [reflexivity | congruence].
  - inversion H' as [? Hk' | ? v2 k2 h2 Hk2 Hh2 He2]; subst; [congruence|].
    rewrite Hk in Hk2. inversion Hk2; subst.
    rewrite Hh in Hh2. inversion Hh2; subst.
    f_equal. now apply IH.
Qed.

(** a node whose chain stops is on no cycle *)
Lemma ends_in_no_cycle (g : pydict) (k : hkey) (h n : nat) :
  ends_in g h k -> (1 <= n)%nat -> ~ steps g n k k.
Proof.
  intros He Hn Hs.
  destruct (ends_in_steps g n k k h Hs He) as [h' [E He']].
  pose proof (ends_in_fun g k h He h' He'). lia.
Qed.

Section CycleDetection.
Context {py : PyBuiltins}.

Lemma unvisited_le_length (g : pydict) (V : pyset) :
  (unvisited g V <= length g)%nat.
Proof. apply filter_length_le. Qed.

Lemma unvisited_mono (g : pydict) (V V' : pyset) :
  incl V V' -> (unvisited g V' <= unvisited g V)%nat.
Proof.
  intros Hi. unfold unvisited. induction g as [|[k v] g IH]; simpl; [lia|].
  destruct (set_mem k V') eqn:E'; destruct (set_mem k V) eqn:E; simpl; try lia.
  apply set_mem_In in E. apply Hi in E. apply set_mem_In in E. congruence.
Qed.

Lemma unvisited_cons (g : pydict) (V : pyset) (k : hkey) (v : value) :
  dict_get k g = Some v -> set_mem k V = false ->
  (unvisited g (k :: V) < unvisited g V)%nat.
Proof.
  intros Hg Hv. unfold unvisited.
  induction g as [|[k' v'] g IH]; [discriminate|].
  pose proof (unvisited_mono g V (k :: V) (incl_tl k (incl_refl V))) as Hle.
  unfold unvisited in Hle.
  cbn [filter fst dict_get] in *.
  change (set_mem k' (k :: V)) with (hkey_eqb k' k || set_mem k' V).
  destruct (hkey_eqb k k') eqn:E.
  - apply hkey_eqb_eq in E. subst k'.
    rewrite hkey_eqb_refl, Hv. cbn [negb orb length]. lia.
  - specialize (IH Hg).
    destruct (hkey_eqb k' k) eqn:E2.
    + apply hkey_eqb_eq in E2. subst. rewrite hkey_eqb_refl in E. discriminate.
    + cbn [orb]. destruct (set_mem k' V); cbn [negb length]; lia.
Qed.

Lemma py_hash_raise (v : value) (e : exn) : py_hash v = Raise e -> e = TypeError.
Proof. destruct v; simpl; congruence. Qed.

Lemma set_add_new (k : hkey) (s : pyset) :
  set_mem k s = false -> set_add k s = k :: s.
Proof. intros H. unfold set_add. now rewrite H. Qed.

(** what a call of [visit] guarantees, when the nodes on the recursion
    stack all lead to the node visited *)
Lemma visit_spec (g : pydict) (depth : nat) :
  forall (node : value) (st : pyset * pyset),
  (unvisited g (fst st) < depth)%nat ->
  finished_ok g st ->
  (forall k, py_hash node = Ok k ->
     forall r, In r (snd st) -> exists n, (1 <= n)%nat /\ steps g n r k) ->
  match visit depth g node st with
  | (Ok true, _) => cyclic g
  | (Ok false, st') =>
      snd st' = snd st /\ incl (fst st) (fst st') /\ finished_ok g st' /\
      exists k h, py_hash node = Ok k /\ In k (fst st') /\ ends_in g h k
  | (Raise e, _) =>
      e = TypeError /\
      (py_hash node = Raise TypeError \/
       exists k v, dict_get k g = Some v /\ py_hash v = Raise TypeError)
  end.
Proof.
  induction depth as [|d IH]; intros node [V R] Hd Hfin Hpath; [simpl in Hd; lia|].
  cbn [visit fst snd] in *.
  destruct (py_hash node) as [k|e] eqn:Hk;
    [|apply py_hash_raise in Hk as He; subst e; auto].
  specialize (Hpath k eq_refl).
  destruct (set_mem k R) eqn:HR.
  { apply set_mem_In in HR. destruct (Hpath k HR) as [n [Hn Hs]].
    exists k, n. auto. }
  destruct (set_mem k V) eqn:HV.
  { apply set_mem_In in HV. apply set_mem_notIn in HR. cbn [fst snd].
    repeat split; auto using incl_refl.
    destruct (Hfin k HV HR) as [h Hh]. exists k, h. auto. }
  rewrite (set_add_new k V HV).
  assert (Hfin' : finished_ok g (k :: V, set_add k R)).
  { intros x [Hx|Hx] Hn; simpl in *.
    - subst. exfalso. apply Hn. apply set_add_In. auto.
    - apply Hfin; [assumption|]. intros Hx'. apply Hn. apply set_add_In. auto. }
  destruct (dict_get k g) as [next|] eqn:Hg.
  - assert (Hd' : (unvisited g (k :: V) < d)%nat).
    { pose proof (unvisited_cons g V k next Hg HV). lia. }
    assert (Hpath' : forall k', py_hash next = Ok k' ->
              forall r, In r (set_add k R) ->
              exists n, (1 <= n)%nat /\ steps g n r k').
    { intros k' Hk' r Hr. apply set_add_In in Hr.
      assert (Hsucc : succ_of g k = Some k').
      { unfold succ_of. now rewrite Hg, Hk'. }
      destruct Hr as [->|Hr].
      - exists 1%nat. split; [lia|]. simpl. exists k'. auto.
      - destruct (Hpath r Hr) as [n [Hn Hs]]. exists (S n). split; [lia|].
        now apply steps_snoc with (b := k). }
    specialize (IH next (@pair pyset pyset (k :: V) (set_add k R))
                  Hd' Hfin' Hpath').
    match goal with
    | |- context [visit d g next ?st] =>
        destruct (visit d g next st) as [[[|]|e] [V' R']]
    end; [assumption| |].
    2:{ destruct IH as [-> [Hn|Hv]]; split; auto.
        right. exists k, next. auto. }
    cbn [fst snd] in IH.
    destruct IH as [-> [Hincl [Hfin2 [k' [h [Hk' [Hin He]]]]]]].
    rewrite (set_remove_add k R HR). cbn [fst snd].
    assert (Hends : ends_in g (S h) k) by (eapply ends_next; eauto).
    repeat split.
    + intros x Hx. apply Hincl. now right.
    + intros x Hx Hn. simpl in *.
      destruct (hkey_eqb x k) eqn:E.
      * apply hkey_eqb_eq in E. subst. eauto.
      * apply hkey_eqb_neq in E. apply Hfin2; [assumption|].
        simpl. intros Hx'. apply set_add_In in Hx'. tauto.
    + exists k, (S h). repeat split; auto. apply Hincl. now left.
  - rewrite (set_remove_add k R HR). cbn [fst snd].
    assert (Hends : ends_in g 0 k) by now apply ends_here.
    repeat split.
    + intros x Hx. now right.
    + intros x Hx Hn. simpl in *. destruct Hx as [<-|Hx]; eauto.
    + exists k, 0%nat. repeat split; auto. now left.
Qed.

Lemma has_cycle_loop_spec (g : pydict) (depth : nat) (nodes : list hkey) :
  forall st : pyset * pyset,
  snd st = [] ->
  (unvisited g (fst st) < depth)%nat ->
  finished_ok g st ->
  match has_cycle_loop depth g nodes st with
  | Ok true => cyclic g
  | Ok false =>
      exists V', incl (fst st) V' /\ (forall x, In x nodes -> In x V') /\
                 (forall x, In x V' -> exists h, ends_in g h x)
  | Raise e =>
      e = TypeError /\
      exists k v, dict_get k g = Some v /\ py_hash v = Raise TypeError
  end.
Proof.
  induction nodes as [|node nodes IH]; intros st HR Hd Hfin;
    cbn [has_cycle_loop].
  - exists (fst st). repeat split; [apply incl_refl | intros x [] |].
    intros x Hx. apply Hfin; [assumption|]. rewrite HR. intros [].
  - destruct (set_mem node (fst st)) eqn:HV.
    + specialize (IH st HR Hd Hfin).
      destruct (has_cycle_loop depth g nodes st) as [[|]|e]; auto.
      destruct IH as [V' [Hincl [Hall Hfin']]]. exists V'.
      repeat split; [assumption| |assumption].
      intros x [<-|Hx]; auto. apply Hincl. now apply set_mem_In.
    + assert (Hp : forall k, py_hash (key_value node) = Ok k ->
                forall r, In r (snd st) ->
                exists n, (1 <= n)%nat /\ steps g n r k).
      { intros k _ r Hr. rewrite HR in Hr. destruct Hr. }
      pose proof (visit_spec g depth (key_value node) st Hd Hfin Hp) as Hv.
      destruct (visit depth g (key_value node) st) as [[[|]|e] st1];
        [assumption| |].
      2:{ destruct Hv as [-> [Hn|Hv]]; [|auto].
          rewrite py_hash_key_value in Hn. discriminate. }
      destruct Hv as [HR1 [Hincl [Hfin1 [k [h [Hk [Hin _]]]]]]].
      rewrite py_hash_key_value in Hk. inversion Hk; subst k.
      assert (Hd1 : (unvisited g (fst st1) < depth)%nat).
      { pose proof (unvisited_mono g (fst st) (fst st1) Hincl). lia. }
      rewrite <- HR1 in HR.
      specialize (IH st1 HR Hd1 Hfin1).
      destruct (has_cycle_loop depth g nodes st1) as [[|]|e]; auto.
      destruct IH as [V' [Hincl' [Hall Hfin']]]. exists V'.
      repeat split; [| |assumption].
      * intros x Hx. auto.
      * intros x [<-|Hx]; auto.
Qed.

(** [has_cycle] decides whether the graph has a cycle; the only exception
    it can let escape is the [TypeError] of an unhashable supervisor, and
    in particular the depth budget of [visit] is never exhausted *)
Lemma has_cycle_spec (g : pydict) :
  match has_cycle g with
  | Ok b => b = true <-> cyclic g
  | Raise e =>
      e = TypeError /\
      exists k v, dict_get k g = Some v /\ py_hash v = Raise TypeError
  end.
Proof.
  unfold has_cycle.
  assert (Hd : (unvisited g [] < S (length g))%nat).
  { pose proof (unvisited_le_length g []). lia. }
  assert (Hfin : finished_ok g ([], [])) by (intros x []).
  pose proof (has_cycle_loop_spec g (S (length g)) (map fst g) ([], [])
                eq_refl Hd Hfin) as H.
  destruct (has_cycle_loop (S (length g)) g (map fst g) ([], [])) as [[|]|e];
    [tauto| |assumption].
  destruct H as [V' [_ [Hall Hfin']]].
  split; [discriminate|]. intros [k [n [Hn Hs]]]. exfalso.
  assert (Hk : In k (map fst g)).
  { destruct n as [|n]; [lia|]. destruct Hs as [c [Hc _]].
    unfold succ_of in Hc. destruct (dict_get k g) eqn:Hg; [|discriminate].
    eapply dict_get_In; eauto. }
  destruct (Hfin' k (Hall k Hk)) as [h Hh].
  exact (ends_in_no_cycle g k h n Hh Hn Hs).
Qed.

End CycleDetection.


(** ** Strings *)

Lemma to_int_not_nil (z : Z) :
  Z.to_int z <> Decimal.Pos Decimal.Nil /\ Z.to_int z <> Decimal.Neg Decimal.Nil.
Proof.
  rewrite <- (DecimalZ.of_to z), DecimalZ.to_of.
  destruct (Z.to_int z) as [u|u]; simpl.
  - split; [|discriminate]. intros H. inversion H as [H1].
    now apply DecimalFacts.unorm_nonnil in H1.
  - destruct (Decimal.nzhead u) eqn:E; split; try discriminate.
Qed.

Lemma str_of_Z_inj (a b : Z) : str_of_Z a = str_of_Z b -> a = b.
Proof.
  unfold str_of_Z. intros H.
  apply DecimalZ.to_int_inj.
  destruct (to_int_not_nil a) as [Ha1 Ha2], (to_int_not_nil b) as [Hb1 Hb2].
  pose proof (NilZero.isi _ Ha1 Ha2) as Ea.
  pose proof (NilZero.isi _ Hb1 Hb2) as Eb.
  rewrite H in Ea. congruence.
Qed.

Lemma append_inj_l (p x y : string) : p +++ x = p +++ y -> x = y.
Proof. induction p as [|c p IH]; simpl; intros H; [assumption|]. inversion H. auto. Qed.

Lemma length_append (a b : string) : String.length (a +++ b) = (String.length a + String.length b)%nat.
Proof. induction a; simpl; auto. Qed.

Lemma append_inj_r (a b c : string) : a +++ c = b +++ c -> a = b.
Proof.
  revert b. induction a as [|x a IH]; intros [|y b] H; simpl in H.
  - reflexivity.
  - apply (f_equal String.length) in H. simpl in H. rewrite length_append in H. lia.
  - apply (f_equal String.length) in H. simpl in H. rewrite length_append in H. lia.
  - inversion H. f_equal. auto.
Qed.

Lemma prefix_spec (k s : string) : String.prefix k s = true <-> exists b, s = k +++ b.
Proof.
  revert s. induction k as [|c k IH]; intros s.
  - split; [intros _; exists s; reflexivity|]. intros _. now destruct s.
  - destruct s as [|d s]; simpl.
    + split; [discriminate|]. intros [b Hb]. discriminate.
    + destruct (ascii_dec c d) as [->|N].
      * rewrite IH. split; intros [b Hb]; exists b; [now subst|now inversion Hb].
      * split; [discriminate|]. intros [b Hb]. inversion Hb. congruence.
Qed.

Lemma str_contains_spec (k s : string) : str_contains k s = true <-> is_substring k s.
Proof.
  unfold is_substring. induction s as [|c s IH]; cbn [str_contains].
  - rewrite orb_false_r, prefix_spec. split.
    + intros [b Hb]. exists ""%string, b. assumption.
    + intros [a [b H]]. destruct a; simpl in H; [eauto|discriminate].
  - rewrite orb_true_iff, IH, prefix_spec. split.
    + intros [[b Hb]|[a [b H]]].
      * exists ""%string, b. assumption.
      * exists (String c a), b. simpl. now rewrite H.
    + intros [a [b H]]. destruct a as [|x a]; simpl in H.
      * left. eauto.
      * right. inversion H. eauto.
Qed.

Lemma prefix_append (a b : string) : String.prefix a (a +++ b) = true.
Proof. apply prefix_spec. now exists b. Qed.
(** ** What a computation emits

    [self.issues] only ever grows: a computation started on any list of
    issues leaves that list in place and appends to it what it appends
    to the empty list, with the same outcome. *)

Lemma emits_weaken {A} (P Q : ValidationIssue -> Prop) (m : M A) :
  (forall x, P x -> Q x) -> emits P m -> emits Q m.
Proof.
  intros HPQ [Hf HP]. split; [assumption|].
  eapply Forall_impl; eauto.
Qed.

Lemma emits_appends {A} (P : ValidationIssue -> Prop) (m : M A) :
  emits P m -> appends m.
Proof. apply emits_weaken. auto. Qed.

Lemma emits_ret {A} P (a : A) : emits P (ret a).
Proof.
  split; [|constructor]. intros acc. unfold ret, outcome, emitted. simpl.
  now rewrite app_nil_r.
Qed.

Lemma emits_lift {A} P (r : result A) : emits P (lift r).
Proof.
  split; [|constructor]. intros acc. unfold lift, outcome, emitted. simpl.
  now rewrite app_nil_r.
Qed.

Lemma emits_add P lvl cat msg sugg pth :
  P (mkIssue lvl cat msg sugg pth) -> emits P (_add_issue lvl cat msg sugg pth).
Proof.
  intros H. split.
  - intros acc. reflexivity.
  - unfold emitted, _add_issue. simpl. auto.
Qed.

Lemma outcome_bind {A B} (m : M A) (f : A -> M B) :
  outcome (bind m f) =
  match outcome m with
  | Ok a => fst (f a (emitted m))
  | Raise e => Raise e
  end.
Proof.
  unfold outcome, emitted, bind. destruct (m []) as [[a|e] l]; reflexivity.
Qed.

Lemma emitted_bind {A B} (m : M A) (f : A -> M B) :
  emitted (bind m f) =
  match outcome m with
  | Ok a => snd (f a (emitted m))
  | Raise e => emitted m
  end.
Proof.
  unfold outcome, emitted, bind. destruct (m []) as [[a|e] l]; reflexivity.
Qed.

Lemma emits_bind {A B} P (m : M A) (f : A -> M B) :
  emits P m -> (forall a, emits P (f a)) -> emits P (bind m f).
Proof.
  intros [Hm HPm] Hf. split.
  - intros acc. rewrite outcome_bind, emitted_bind.
    unfold bind. rewrite (Hm acc).
    destruct (outcome m) as [a|e]; [|reflexivity].
    destruct (Hf a) as [Hfa _].
    rewrite (Hfa (acc ++ emitted m)), (Hfa (emitted m)). simpl.
    now rewrite app_assoc.
  - rewrite emitted_bind. destruct (outcome m) as [a|e]; [|assumption].
    destruct (Hf a) as [Hfa HPf]. rewrite (Hfa (emitted m)). simpl.
    apply Forall_app. auto.
Qed.

Lemma emits_when P (b : bool) (m : M unit) : emits P m -> emits P (when b m).
Proof. destruct b; simpl; auto using emits_ret. Qed.

Lemma emits_for_ {A} P (body : A -> M unit) (xs : list A) :
  (forall x, emits P (body x)) -> emits P (for_ body xs).
Proof.
  intros H. induction xs as [|x xs IH]; simpl.
  - apply emits_ret.
  - apply emits_bind; auto.
Qed.

Lemma emits_for_each {A S} P (body : A -> S -> M S) (xs : list A) :
  (forall x s, emits P (body x s)) -> forall s, emits P (for_each body xs s).
Proof.
  intros H. induction xs as [|x xs IH]; intros s; simpl.
  - apply emits_ret.
  - apply emits_bind; auto.
Qed.

(** running an appending computation: its outcome and what it added *)
Lemma appends_run {A} (m : M A) (acc : list ValidationIssue) :
  appends m -> m acc = (outcome m, acc ++ emitted m).
Proof. intros [H _]. apply H. Qed.

Lemma outcome_bind_appends {A B} (m : M A) (f : A -> M B) :
  (forall a, appends (f a)) ->
  outcome (bind m f) =
  match outcome m with
  | Ok a => outcome (f a)
  | Raise e => Raise e
  end.
Proof.
  intros Hf. rewrite outcome_bind. destruct (outcome m) as [a|e]; [|reflexivity].
  now rewrite (appends_run (f a) _ (Hf a)).
Qed.

Lemma emitted_bind_appends {A B} (m : M A) (f : A -> M B) :
  (forall a, appends (f a)) ->
  emitted (bind m f) =
  match outcome m with
  | Ok a => emitted m ++ emitted (f a)
  | Raise e => emitted m
  end.
Proof.
  intros Hf. rewrite emitted_bind. destruct (outcome m) as [a|e]; [|reflexivity].
  now rewrite (appends_run (f a) _ (Hf a)).
Qed.

Lemma emits_add' P (x : ValidationIssue) : P x -> emits P (add x).
Proof. intros H. unfold add. apply emits_add. now destruct x. Qed.

Ltac emits_step :=
  lazymatch goal with
  | |- emits _ (bind _ _) => apply emits_bind; [|intros ?]
  | |- emits _ (lift _) => apply emits_lift
  | |- emits _ (ret _) => apply emits_ret
  | |- emits _ (when _ _) => apply emits_when
  | |- emits _ (for_ _ _) => apply emits_for_; intros ?
  | |- emits _ (for_each _ _ _) => apply emits_for_each; intros ? ?
  | |- emits _ (_add_issue _ _ _ _ _) =>
      apply emits_add; cbn [category path level];
      solve [intuition (reflexivity || discriminate || auto)]
  | |- emits _ (add _) =>
      apply emits_add'; cbn [category path level];
      solve [intuition (reflexivity || discriminate || auto)]
  | |- emits _ (if ?b then _ else _) => destruct b
  | |- emits _ (match ?x with _ => _ end) => destruct x
  end.

Ltac emits_tac := repeat emits_step.

(** ** What each rule emits *)

Section RuleLogs.
Context {py : PyBuiltins}.

Lemma structure_emits cfg : emits from_structure (_validate_structure cfg).
Proof. unfold _validate_structure, from_structure. emits_tac. Qed.

Lemma check_role_id_emits i role ids :
  emits from_roles (check_role_id i role ids).
Proof. unfold check_role_id, from_roles. emits_tac. Qed.

Lemma check_role_model_emits i role :
  emits from_roles (check_role_model i role).
Proof. unfold check_role_model, from_roles. emits_tac. Qed.

Lemma check_role_responsibilities_emits i role :
  emits from_roles (check_role_responsibilities i role).
Proof. unfold check_role_responsibilities, from_roles. emits_tac. Qed.

Lemma roles_body_emits ir ids : emits from_roles (roles_body ir ids).
Proof.
  unfold roles_body. destruct ir as [i role].
  emits_tac; auto using check_role_id_emits, check_role_model_emits,
    check_role_responsibilities_emits.
Qed.

Lemma check_team_size_emits n : emits from_roles (check_team_size n).
Proof. unfold check_team_size, from_roles. emits_tac. Qed.

Lemma roles_emits cfg : emits from_roles (_validate_roles cfg).
Proof.
  unfold _validate_roles.
  emits_tac; try apply roles_body_emits; try apply check_team_size_emits;
    unfold from_roles; emits_tac.
Qed.

Lemma check_phase_name_emits i phase names :
  emits from_workflow (check_phase_name i phase names).
Proof. unfold check_phase_name, from_workflow. emits_tac. Qed.

Lemma deps_body_emits i phase names dep :
  emits from_workflow (deps_body i phase names dep).
Proof. unfold deps_body, from_workflow. emits_tac. Qed.

Lemma check_phase_dependencies_emits i phase names :
  emits from_workflow (check_phase_dependencies i phase names).
Proof.
  unfold check_phase_dependencies. emits_tac; apply deps_body_emits.
Qed.

Lemma phase_duration_emits phase total :
  emits from_workflow (phase_duration phase total).
Proof. unfold phase_duration. emits_tac. Qed.

Lemma phases_body_emits ip st : emits from_workflow (phases_body ip st).
Proof.
  unfold phases_body. destruct ip as [i phase], st as [names total].
  emits_tac; auto using check_phase_name_emits,
    check_phase_dependencies_emits, phase_duration_emits.
Qed.

Lemma workflow_emits cfg : emits from_workflow (_validate_workflow cfg).
Proof.
  unfold _validate_workflow. emits_tac; try apply phases_body_emits;
    unfold from_workflow; emits_tac.
Qed.

Lemma channels_body_emits ic : emits from_communication (channels_body ic).
Proof.
  unfold channels_body, from_communication. destruct ic as [i ch]. emits_tac.
Qed.

Lemma communication_emits cfg :
  emits from_communication (_validate_communication cfg).
Proof.
  unfold _validate_communication. emits_tac; try apply channels_body_emits;
    unfold from_communication; emits_tac.
Qed.

Lemma reports_body_emits ids role :
  emits from_dependencies (reports_body ids role).
Proof. unfold reports_body, from_dependencies. emits_tac. Qed.

Lemma dependencies_emits cfg :
  emits from_dependencies (_validate_dependencies cfg).
Proof.
  unfold _validate_dependencies. emits_tac; try apply reports_body_emits.
  apply emits_add'. split; [reflexivity | right; reflexivity].
Qed.

Lemma resources_emits cfg : emits from_resources (_validate_resources cfg).
Proof. unfold _validate_resources, from_resources. emits_tac. Qed.

Lemma best_practices_emits cfg :
  emits from_best_practices (_validate_best_practices cfg).
Proof. unfold _validate_best_practices, from_best_practices. emits_tac. Qed.

End RuleLogs.

(** ** [validate] runs the rules in order *)

Section Validate.
Context {py : PyBuiltins}.

Lemma rules_append (rule : value -> M unit) (cfg : value) :
  In rule rules -> appends (rule cfg).
Proof.
  unfold rules. simpl.
  intros [<-|[<-|[<-|[<-|[<-|[<-|[<-|[]]]]]]]].
  - exact (emits_appends _ _ (structure_emits cfg)).
  - exact (emits_appends _ _ (roles_emits cfg)).
  - exact (emits_appends _ _ (workflow_emits cfg)).
  - exact (emits_appends _ _ (communication_emits cfg)).
  - exact (emits_appends _ _ (dependencies_emits cfg)).
  - exact (emits_appends _ _ (resources_emits cfg)).
  - exact (emits_appends _ _ (best_practices_emits cfg)).
Qed.

(** a sequence of appending computations: it succeeds when all of them
    do and then emits their issues one after the other; otherwise it
    stops at the first one that raises *)
Lemma for_spec {A} (body : A -> M unit) (xs : list A) :
  (forall x, In x xs -> appends (body x)) ->
  appends (for_ body xs) /\
  match outcome (for_ body xs) with
  | Ok _ =>
      Forall (fun x => outcome (body x) = Ok tt) xs /\
      emitted (for_ body xs) = concat (map (fun x => emitted (body x)) xs)
  | Raise e =>
      exists pre x post,
        xs = pre ++ x :: post /\
        Forall (fun x => outcome (body x) = Ok tt) pre /\
        outcome (body x) = Raise e
  end.
Proof.
  induction xs as [|x xs IH]; intros H.
  - simpl. split; [apply emits_ret|]. split; constructor.
  - assert (Hx : appends (body x)) by (apply H; now left).
    destruct IH as [Hxs IH]; [intros y Hy; apply H; now right|].
    cbn [for_]. split; [apply emits_bind; auto|].
    rewrite outcome_bind_appends, emitted_bind_appends by auto.
    destruct (outcome (body x)) as [[]|e] eqn:Ex.
    + destruct (outcome (for_ body xs)) as [u|e].
      * destruct IH as [Hall Hem]. split; [constructor; auto|].
        simpl. now rewrite Hem.
      * destruct IH as [pre [y [post [-> [Hpre Hy]]]]].
        exists (x :: pre), y, post. repeat split; auto.
    + exists [], x, xs. repeat split; auto.
Qed.

Lemma run_checks_for (cfg : value) (acc : list ValidationIssue) :
  run_checks cfg acc = for_ (fun rule => rule cfg) rules acc.
Proof.
  unfold run_checks, rules. cbn [for_]. unfold bind, ret.
  repeat match goal with
  | |- context [match ?m acc with _ => _ end] => destruct (m acc) as [[[]|?] ?]
  | |- context [match ?m ?l with _ => _ end] => destruct (m l) as [[[]|?] ?]
  end; reflexivity.
Qed.

Lemma validate_unfold (self : TeamValidator) :
  fst (validate self) =
  match outcome (run_checks (config self)) with
  | Ok _ =>
      Ok (negb (existsb is_error (emitted (run_checks (config self)))),
          emitted (run_checks (config self)))
  | Raise e => Raise e
  end.
Proof.
  unfold validate, outcome, emitted. cbn [config issues].
  destruct (run_checks (config self) []) as [[u|e] found]; reflexivity.
Qed.

Lemma run_checks_spec (cfg : value) :
  match outcome (run_checks cfg) with
  | Ok _ =>
      Forall (rule_ok cfg) rules /\
      emitted (run_checks cfg) =
      concat (map (fun rule => emitted (rule cfg)) rules)
  | Raise e =>
      exists pre rule post,
        rules = pre ++ rule :: post /\
        Forall (rule_ok cfg) pre /\
        outcome (rule cfg) = Raise e
  end.
Proof.
  unfold outcome at 1, emitted at 1. rewrite run_checks_for.
  exact (proj2 (for_spec (fun rule => rule cfg) rules
                  (fun rule H => rules_append rule cfg H))).
Qed.

Lemma passed_iff (found : list ValidationIssue) :
  negb (existsb is_error found) = true <->
  (forall x, In x found -> level x <> ERROR).
Proof.
  rewrite negb_true_iff. split.
  - intros H x Hx E.
    assert (existsb is_error found = true); [|congruence].
    apply existsb_exists. exists x. split; [assumption|].
    unfold is_error. now rewrite E.
  - intros H. destruct (existsb is_error found) eqn:E; [|reflexivity].
    apply existsb_exists in E. destruct E as [x [Hx E]].
    exfalso. apply (H x Hx). unfold is_error in E.
    now destruct (level x).
Qed.

(** what a returning [validate] tells about the seven rules; the form the
    later proofs use *)
Lemma validate_ok_inv (self : TeamValidator) (passed : bool)
    (found : list ValidationIssue) :
  fst (validate self) = Ok (passed, found) ->
  let cfg := config self in
  Forall (rule_ok cfg) rules /\
  found = emitted (_validate_structure cfg) ++ emitted (_validate_roles cfg)
          ++ emitted (_validate_workflow cfg)
          ++ emitted (_validate_communication cfg)
          ++ emitted (_validate_dependencies cfg)
          ++ emitted (_validate_resources cfg)
          ++ emitted (_validate_best_practices cfg) /\
  passed = negb (existsb is_error found).
Proof.
  intros H cfg. rewrite validate_unfold in H. fold cfg in H.
  pose proof (run_checks_spec cfg) as Hs.
  destruct (outcome (run_checks cfg)) as [u|e]; [|discriminate].
  destruct Hs as [Hok Hem]. inversion H; subst.
  repeat split; [assumption|].
  rewrite Hem. unfold rules. simpl. now rewrite app_nil_r.
Qed.

End Validate.

(** ** Running computations on the empty list *)

Lemma outcome_ret {A} (a : A) : outcome (ret a) = Ok a.
Proof. reflexivity. Qed.

Lemma emitted_ret {A} (a : A) : emitted (ret a) = [].
Proof. reflexivity. Qed.


Lemma emitted_lift {A} (r : result A) : emitted (lift r) = [].
Proof. reflexivity. Qed.

Lemma outcome_add (x : ValidationIssue) : outcome (add x) = Ok tt.
Proof. reflexivity. Qed.

Lemma emitted_add (x : ValidationIssue) : emitted (add x) = [x].
Proof. now destruct x. Qed.

(** a successful sequence: both halves succeed and their issues follow
    one another *)
Lemma bind_ok {A B} (m : M A) (f : A -> M B) (b : B) :
  (forall a, appends (f a)) ->
  outcome (bind m f) = Ok b ->
  exists a, outcome m = Ok a /\ outcome (f a) = Ok b /\
            emitted (bind m f) = emitted m ++ emitted (f a).
Proof.
  intros Hf H. rewrite outcome_bind_appends in H by assumption.
  rewrite emitted_bind_appends by assumption.
  destruct (outcome m) as [a|e]; [|discriminate]. eauto.
Qed.

Lemma bind_lift_ok {A B} (r : result A) (f : A -> M B) (b : B) :
  outcome (bind (lift r) f) = Ok b ->
  exists a, r = Ok a /\ outcome (f a) = Ok b /\
            emitted (bind (lift r) f) = emitted (f a).
Proof.
  unfold outcome, emitted, bind, lift. destruct r as [a|e]; [|discriminate].
  eauto.
Qed.

Lemma for_each_cons {A S} (body : A -> S -> M S) (x : A) (xs : list A) (s : S) :
  (forall y t, appends (body y t)) ->
  outcome (for_each body (x :: xs) s) =
    match outcome (body x s) with
    | Ok s' => outcome (for_each body xs s')
    | Raise e => Raise e
    end /\
  emitted (for_each body (x :: xs) s) =
    match outcome (body x s) with
    | Ok s' => emitted (body x s) ++ emitted (for_each body xs s')
    | Raise e => emitted (body x s)
    end.
Proof.
  intros H. cbn [for_each].
  assert (Hk : forall s', appends (for_each body xs s')).
  { intros s'. apply emits_for_each. exact H. }
  now rewrite outcome_bind_appends, emitted_bind_appends.
Qed.

Lemma for_cons {A} (body : A -> M unit) (x : A) (xs : list A) :
  (forall y, appends (body y)) ->
  outcome (for_ body (x :: xs)) =
    match outcome (body x) with
    | Ok _ => outcome (for_ body xs)
    | Raise e => Raise e
    end /\
  emitted (for_ body (x :: xs)) =
    match outcome (body x) with
    | Ok _ => emitted (body x) ++ emitted (for_ body xs)
    | Raise e => emitted (body x)
    end.
Proof.
  intros H. cbn [for_].
  assert (Hk : forall u : unit, appends (for_ body xs)).
  { intros _. apply emits_for_. exact H. }
  now rewrite outcome_bind_appends, emitted_bind_appends.
Qed.

Create HintDb emits_db.
#[export] Hint Resolve structure_emits check_role_id_emits
  check_role_model_emits check_role_responsibilities_emits roles_body_emits
  check_team_size_emits
  roles_emits check_phase_name_emits deps_body_emits
  check_phase_dependencies_emits phase_duration_emits phases_body_emits
  workflow_emits channels_body_emits communication_emits reports_body_emits
  dependencies_emits resources_emits best_practices_emits : emits_db.

(** discharges [appends m] for the computations of the validator *)
Ltac appends_tac :=
  intros; unfold appends;
  repeat first
    [ emits_step
    | solve [eapply emits_weaken; [|eauto with emits_db]; auto] ].

Lemma py_getitem_field (v : value) (k : string) (x : value) :
  py_getitem v k = Ok x <-> field k v = Some x.
Proof.
  destruct v; simpl; split; try discriminate.
  - destruct (lookup k items); congruence.
  - intros ->. reflexivity.
Qed.

Lemma field_py_in (v : value) (k : string) (x : value) :
  field k v = Some x -> py_in k v = Ok true.
Proof. destruct v; simpl; try discriminate. now intros ->. Qed.

Lemma field_py_get (v : value) (k : string) (x dflt : value) :
  field k v = Some x -> py_get v k dflt = Ok x.
Proof. destruct v; simpl; try discriminate. now intros ->. Qed.

(** *** Loops over [enumerate(xs)]

    When an iteration that succeeds changes the loop state by the pure
    function [step], a loop that succeeds ran every iteration on the
    state the earlier elements produce, and emitted exactly what the
    iterations emitted. *)

Section Loops.
Context {A St : Type}.
Variable body : Z * A -> St -> M St.
Variable step : A -> St -> St.
Hypothesis body_appends : forall ia t, appends (body ia t).
Hypothesis body_step :
  forall i y t t', outcome (body (i, y) t) = Ok t' -> t' = step y t.

Lemma loop_state (xs : list A) :
  forall i0 s s',
  outcome (for_each body (enumerate_from i0 xs) s) = Ok s' ->
  s' = state_after step xs s.
Proof.
  induction xs as [|x xs IH]; intros i0 s s' H.
  - cbn in H. now inversion H.
  - cbn [enumerate_from] in H.
    destruct (for_each_cons body (i0, x) (enumerate_from (i0 + 1) xs) s
                body_appends) as [Ho _].
    rewrite Ho in H. clear Ho.
    destruct (outcome (body (i0, x) s)) as [s1|e] eqn:Hb; [|discriminate].
    apply body_step in Hb. subst s1. cbn. eapply IH; eauto.
Qed.

Lemma loop_iteration (xs : list A) :
  forall i0 s s' m y,
  outcome (for_each body (enumerate_from i0 xs) s) = Ok s' ->
  nth_error xs m = Some y ->
  let t := state_after step (firstn m xs) s in
  outcome (body (i0 + Z.of_nat m, y) t) = Ok (step y t) /\
  incl (emitted (body (i0 + Z.of_nat m, y) t))
       (emitted (for_each body (enumerate_from i0 xs) s)).
Proof.
  induction xs as [|x xs IH]; intros i0 s s' m y H Hm; [now destruct m|].
  cbn [enumerate_from] in *.
  destruct (for_each_cons body (i0, x) (enumerate_from (i0 + 1) xs) s
              body_appends) as [Ho He].
  rewrite Ho in H. rewrite He. clear Ho He.
  destruct (outcome (body (i0, x) s)) as [s1|e] eqn:Hb; [|discriminate].
  pose proof (body_step _ _ _ _ Hb) as ->.
  destruct m as [|m].
  - cbn in Hm. inversion Hm; subst y. cbn. rewrite Z.add_0_r.
    split; [assumption|]. apply incl_appl, incl_refl.
  - cbn [nth_error] in Hm. cbn [firstn state_after fold_left].
    replace (i0 + Z.of_nat (S m)) with ((i0 + 1) + Z.of_nat m) by lia.
    destruct (IH (i0 + 1) (step x s) s' m y H Hm) as [H1 H2].
    split; [exact H1|]. apply incl_appr. exact H2.
Qed.

Lemma loop_emitted (xs : list A) :
  forall i0 s s' x,
  outcome (for_each body (enumerate_from i0 xs) s) = Ok s' ->
  In x (emitted (for_each body (enumerate_from i0 xs) s)) ->
  exists m y,
    nth_error xs m = Some y /\
    In x (emitted (body (i0 + Z.of_nat m, y) (state_after step (firstn m xs) s))).
Proof.
  induction xs as [|x0 xs IH]; intros i0 s s' x H Hx; [destruct Hx|].
  cbn [enumerate_from] in *.
  destruct (for_each_cons body (i0, x0) (enumerate_from (i0 + 1) xs) s
              body_appends) as [Ho He].
  rewrite Ho in H. rewrite He in Hx. clear Ho He.
  destruct (outcome (body (i0, x0) s)) as [s1|e] eqn:Hb; [|discriminate].
  pose proof (body_step _ _ _ _ Hb) as ->.
  apply in_app_or in Hx. destruct Hx as [Hx|Hx].
  - exists 0%nat, x0. cbn. rewrite Z.add_0_r. auto.
  - destruct (IH (i0 + 1) (step x0 s) s' x H Hx) as [m [y [Hm Hin]]].
    exists (S m), y. cbn [nth_error firstn state_after fold_left].
    replace (i0 + Z.of_nat (S m)) with ((i0 + 1) + Z.of_nat m) by lia.
    auto.
Qed.

End Loops.

(** ** The roles rule *)

Section RolesRule.
Context {py : PyBuiltins}.

(** the id block of the loop, when it does not raise *)
Lemma check_role_id_ok (i : Z) (role : value) (ids ids' : pyset) :
  outcome (check_role_id i role ids) = Ok ids' ->
  match role_key role with
  | Some k =>
      ids' = set_add k ids /\
      emitted (check_role_id i role ids) =
        if set_mem k ids then [duplicate_id_issue i (role_id role)] else []
  | None =>
      ids' = ids /\ emitted (check_role_id i role ids) = [missing_id_issue i]
  end.
Proof.
  unfold role_key, role_id, check_role_id, outcome, emitted, bind, lift, ret,
    when, add, _add_issue, set_contains, bindR.
  destruct role as [| | | s | l | d]; cbn; try discriminate.
  - destruct (str_contains "id" s); cbn; [discriminate|].
    intros H; inversion H; auto.
  - destruct (existsb (eq_str "id") l); cbn; [discriminate|].
    intros H; inversion H; auto.
  - destruct (lookup "id" d) as [rid|]; cbn.
    + destruct (py_hash rid) as [k|e]; cbn; [|discriminate].
      destruct (set_mem k ids); cbn; intros H; inversion H; auto.
    + intros H; inversion H; auto.
Qed.

(** an iteration that does not raise: its three blocks did not, and what
    it emits is what they emit, in order *)
Lemma roles_body_ok (i : Z) (role : value) (ids ids' : pyset) :
  outcome (roles_body (i, role) ids) = Ok ids' ->
  outcome (check_role_id i role ids) = Ok ids' /\
  outcome (check_role_model i role) = Ok tt /\
  outcome (check_role_responsibilities i role) = Ok tt /\
  emitted (roles_body (i, role) ids) =
    emitted (check_role_id i role ids) ++ emitted (check_role_model i role)
      ++ emitted (check_role_responsibilities i role).
Proof.
  unfold roles_body. intros H.
  apply bind_ok in H; [|appends_tac]. destruct H as [ids1 [H1 [H E1]]].
  apply bind_ok in H; [|appends_tac]. destruct H as [[] [H2 [H E2]]].
  apply bind_ok in H; [|appends_tac]. destruct H as [[] [H3 [H E3]]].
  rewrite outcome_ret in H. inversion H; subst ids1.
  rewrite E1, E2, E3, emitted_ret, app_nil_r. auto.
Qed.


(** the roles rule on a non-empty list of roles, when it does not raise:
    the loop did not, and the team-size block follows it *)
Lemma roles_rule_ok (cfg : value) (roles : list value) :
  field "roles" cfg = Some (VList roles) -> roles <> [] ->
  outcome (_validate_roles cfg) = Ok tt ->
  exists ids,
    outcome (for_each roles_body (enumerate roles) []) = Ok ids /\
    emitted (_validate_roles cfg) =
      emitted (for_each roles_body (enumerate roles) [])
      ++ emitted (check_team_size (Z.of_nat (length roles))).
Proof.
  intros Hf Hne H. unfold _validate_roles in *.
  rewrite (field_py_in _ _ _ Hf) in *.
  apply bind_lift_ok in H. destruct H as [b [Hb [H ->]]].
  inversion Hb; subst b. cbn [negb] in *.
  rewrite (proj2 (py_getitem_field _ _ _) Hf) in *.
  apply bind_lift_ok in H. destruct H as [r [Hr [H ->]]].
  inversion Hr; subst r.
  destruct roles as [|r0 roles]; [congruence|]. cbn [truthy is_nil negb] in *.
  apply bind_lift_ok in H. destruct H as [items [Hi [H ->]]].
  cbn [py_iter] in Hi. inversion Hi; subst items.
  apply bind_ok in H; [|appends_tac]. destruct H as [ids [Hl [H ->]]].
  apply bind_lift_ok in H. destruct H as [n [Hn [H ->]]].
  cbn [py_len] in Hn. inversion Hn; subst n.
  exists ids. auto.
Qed.

(** *** Duplicate ids *)

Lemma filter_none {A} (f : A -> bool) (l : list A) :
  Forall (fun x => f x = false) l -> filter f l = [].
Proof.
  induction 1 as [|x l Hx _ IH]; simpl; [reflexivity|]. now rewrite Hx.
Qed.

Lemma check_role_model_no_duplicate i role :
  emits (fun x => is_duplicate_error x = false) (check_role_model i role).
Proof. unfold check_role_model. emits_tac. Qed.

Lemma check_role_responsibilities_no_duplicate i role :
  emits (fun x => is_duplicate_error x = false)
    (check_role_responsibilities i role).
Proof. unfold check_role_responsibilities. emits_tac. Qed.

Lemma check_team_size_no_duplicate n :
  emits (fun x => is_duplicate_error x = false) (check_team_size n).
Proof. unfold check_team_size. emits_tac. Qed.

Lemma duplicate_id_issue_is_duplicate i rid :
  is_duplicate_error (duplicate_id_issue i rid) = true.
Proof.
  unfold is_duplicate_error, duplicate_id_issue. cbn [level category message].
  now rewrite prefix_append.
Qed.

Lemma missing_id_issue_not_duplicate i :
  is_duplicate_error (missing_id_issue i) = false.
Proof. reflexivity. Qed.

Lemma roles_loop_duplicates (roles : list value) :
  forall i ids ids',
  outcome (for_each roles_body (enumerate_from i roles) ids) = Ok ids' ->
  filter is_duplicate_error
    (emitted (for_each roles_body (enumerate_from i roles) ids))
  = duplicate_errors i roles ids.
Proof.
  induction roles as [|role roles IH]; intros i ids ids' H; [reflexivity|].
  cbn [enumerate_from] in *.
  destruct (for_each_cons roles_body (i, role) (enumerate_from (i + 1) roles)
              ids ltac:(appends_tac)) as [Ho He].
  rewrite Ho in H. rewrite He. clear Ho He.
  destruct (outcome (roles_body (i, role) ids)) as [ids1|e] eqn:Hb;
    [|discriminate].
  apply roles_body_ok in Hb. destruct Hb as [Hid [_ [_ ->]]].
  apply check_role_id_ok in Hid.
  rewrite !filter_app.
  rewrite (filter_none _ _ (proj2 (check_role_model_no_duplicate i role))).
  rewrite (filter_none _ _
             (proj2 (check_role_responsibilities_no_duplicate i role))).
  rewrite (IH _ _ _ H). cbn [duplicate_errors app].
  destruct (role_key role) as [k|].
  - destruct Hid as [-> ->]. destruct (set_mem k ids); cbn [filter];
      rewrite ?duplicate_id_issue_is_duplicate; reflexivity.
  - destruct Hid as [-> ->]. cbn [filter].
    now rewrite missing_id_issue_not_duplicate.
Qed.


Lemma key_at_cons_S role roles m k :
  key_at (role :: roles) (S m) k <-> key_at roles m k.
Proof. reflexivity. Qed.

Lemma fresh_at_tail role roles ids m k0 :
  role_key role = Some k0 ->
  fresh_at (role :: roles) ids (S m) -> fresh_at roles (set_add k0 ids) m.
Proof.
  intros Hk0 Hf k Hk. destruct (Hf k Hk) as [Hn Hearlier]. split.
  - intros Hin. apply set_add_In in Hin. destruct Hin as [->|Hin]; [|tauto].
    apply (Hearlier 0%nat); [lia|]. exists role. auto.
  - intros a Ha Hka. apply (Hearlier (S a)); [lia|assumption].
Qed.

Lemma fresh_at_tail_nokey role roles ids m :
  fresh_at (role :: roles) ids (S m) -> fresh_at roles ids m.
Proof.
  intros Hf k Hk. destruct (Hf k Hk) as [Hn Hearlier]. split; [assumption|].
  intros a Ha Hka. apply (Hearlier (S a)); [lia|assumption].
Qed.

Lemma duplicate_errors_none (roles : list value) :
  forall i ids,
  (forall m, fresh_at roles ids m) -> duplicate_errors i roles ids = [].
Proof.
  induction roles as [|role roles IH]; intros i ids Hf; [reflexivity|].
  cbn [duplicate_errors]. destruct (role_key role) as [k|] eqn:Hk.
  - destruct (Hf 0%nat k) as [Hn _]; [exists role; auto|].
    apply set_mem_notIn in Hn. rewrite Hn. cbn [app].
    apply IH. intros m. eapply fresh_at_tail; eauto.
  - apply IH. intros m. eapply fresh_at_tail_nokey; eauto.
Qed.

(** when exactly one position [j] repeats a key seen before, the loop
    reports exactly that position *)
Lemma duplicate_errors_one (roles : list value) :
  forall i ids j rj kj,
  nth_error roles j = Some rj -> role_key rj = Some kj ->
  (In kj ids \/ exists a, (a < j)%nat /\ key_at roles a kj) ->
  (forall m, m <> j -> fresh_at roles ids m) ->
  duplicate_errors i roles ids
  = [duplicate_id_issue (i + Z.of_nat j) (role_id rj)].
Proof.
  induction roles as [|role roles IH]; intros i ids j rj kj Hj Hkj Hseen Hf.
  - destruct j; discriminate.
  - cbn [duplicate_errors]. destruct j as [|j].
    + cbn in Hj. inversion Hj; subst role. rewrite Hkj.
      assert (Hin : In kj ids).
      { destruct Hseen as [H|[a [Ha _]]]; [assumption|lia]. }
      apply set_mem_In in Hin. rewrite Hin.
      rewrite Z.add_0_r. cbn [app]. f_equal.
      apply duplicate_errors_none. intros m.
      eapply fresh_at_tail; eauto.
    + cbn [nth_error] in Hj.
      replace (i + Z.of_nat (S j)) with ((i + 1) + Z.of_nat j) by lia.
      destruct (role_key role) as [k0|] eqn:Hk0.
      * assert (H0 : fresh_at (role :: roles) ids 0) by (apply Hf; lia).
        destruct (H0 k0) as [Hn _]; [exists role; auto|].
        apply set_mem_notIn in Hn. rewrite Hn. cbn [app].
        apply (IH _ _ j rj kj Hj Hkj).
        -- destruct Hseen as [H|[a [Ha Hka]]].
           ++ left. apply set_add_In. auto.
           ++ destruct a as [|a].
              ** left. apply set_add_In. left.
                 destruct Hka as [r [Hr Hkr]]. cbn in Hr.
                 inversion Hr; subst r. congruence.
              ** right. exists a. split; [lia|assumption].
        -- intros m Hm. eapply fresh_at_tail; [eassumption|]. apply Hf. lia.
      * apply (IH _ _ j rj kj Hj Hkj).
        -- destruct Hseen as [H|[a [Ha Hka]]]; [auto|].
           destruct a as [|a].
           ++ destruct Hka as [r [Hr Hkr]]. cbn in Hr.
              inversion Hr; subst r. congruence.
           ++ right. exists a. split; [lia|assumption].
        -- intros m Hm. eapply fresh_at_tail_nokey. apply Hf. lia.
Qed.


(** *** The loop state *)

Lemma roles_body_appends ia t : appends (roles_body ia t).
Proof. appends_tac. Qed.

Lemma roles_body_step i role t t' :
  outcome (roles_body (i, role) t) = Ok t' -> t' = role_step role t.
Proof.
  intros H. apply roles_body_ok in H. destruct H as [H _].
  apply check_role_id_ok in H. unfold role_step.
  destruct (role_key role); tauto.
Qed.

(** *** The model-fit heuristic *)

Lemma suggest_loop_In items lowered model :
  suggest_loop items lowered = Some model -> In model (map snd items).
Proof.
  induction items as [|[k m] items IH]; simpl; [discriminate|].
  destruct (str_contains k lowered); [|auto].
  intros H. inversion H. auto.
Qed.

Lemma suggest_truthy role_type sug :
  _suggest_model role_type = Ok sug -> truthy (VStr sug) = true.
Proof.
  unfold _suggest_model. destruct role_type; try discriminate.
  destruct (suggest_loop role_models (py_lower s)) as [m|] eqn:E;
    intros H; inversion H; subst; [|reflexivity].
  apply suggest_loop_In in E. cbn in E.
  repeat (destruct E as [<-|E]; [reflexivity|]). destruct E.
Qed.

Lemma eq_str_false (s : string) (v : value) :
  eq_str s v = false <-> v <> VStr s.
Proof.
  destruct v; simpl; try (split; [discriminate|reflexivity]).
  rewrite String.eqb_neq. split; intros H E; apply H; congruence.
Qed.

(** the model block of the loop on a role that has a model, when it does
    not raise: possibly the invalid-model error, then the model-fit
    remark exactly when the model is not the suggested one *)
Lemma check_role_model_ok (i : Z) (role model : value) :
  field "model" role = Some model ->
  outcome (check_role_model i role) = Ok tt ->
  exists sug pre,
    _suggest_model (role_type role) = Ok sug /\
    Forall (fun x => level x = ERROR) pre /\
    emitted (check_role_model i role) =
      pre ++ (if eq_str sug model then []
              else [model_fit_issue i (role_id role) model sug
                      (role_type role)]).
Proof.
  intros Hm H. unfold check_role_model in *.
  rewrite (field_py_in _ _ _ Hm) in *.
  apply bind_lift_ok in H. destruct H as [b [Hb [H ->]]].
  inversion Hb; subst b.
  rewrite (proj2 (py_getitem_field _ _ _) Hm) in *.
  apply bind_lift_ok in H. destruct H as [m [Hb' [H ->]]].
  inversion Hb'; subst m.
  apply bind_ok in H; [|appends_tac]. destruct H as [[] [Hpre [H ->]]].
  match goal with
  | |- context [emitted ?c ++ _] =>
      assert (Hlvl : emits (fun x => level x = ERROR) c) by emits_tac
  end.
  destruct role as [| | | | |d]; try discriminate.
  change (py_get (VDict d) "type" (VStr "")) with (Ok (role_type (VDict d)))
    in *.
  apply bind_lift_ok in H. destruct H as [t [Ht [H ->]]].
  inversion Ht; subst t.
  apply bind_lift_ok in H. destruct H as [sug [Hs [H ->]]].
  rewrite (suggest_truthy _ _ Hs) in *. cbn [andb] in *.
  exists sug. eexists. split; [exact Hs|]. split; [exact (proj2 Hlvl)|].
  f_equal. destruct (eq_str sug model); cbn [negb] in *.
  - reflexivity.
  - change (py_get (VDict d) "id" VNone) with (Ok (role_id (VDict d))) in *.
    apply bind_lift_ok in H. destruct H as [rid [Hr [H ->]]].
    inversion Hr; subst rid. apply emitted_add.
Qed.


Lemma suggest_loop_first (items : list (string * string)) (lowered : string) :
  match suggest_loop items lowered with
  | Some m =>
      exists pre key post,
        items = pre ++ (key, m) :: post /\
        is_substring key lowered /\
        forall kv, In kv pre -> ~ is_substring (fst kv) lowered
  | None => forall kv, In kv items -> ~ is_substring (fst kv) lowered
  end.
Proof.
  induction items as [|[k m] items IH]; cbn [suggest_loop].
  - intros kv [].
  - destruct (str_contains k lowered) eqn:E.
    + exists [], k, items. repeat split.
      * now apply str_contains_spec.
      * intros kv [].
    + assert (Hk : ~ is_substring k lowered).
      { rewrite <- str_contains_spec. congruence. }
      destruct (suggest_loop items lowered) as [m'|].
      * destruct IH as [pre [key [post [-> [Hsub Hpre]]]]].
        exists ((k, m) :: pre), key, post. repeat split; auto.
        intros kv [<-|Hin]; auto.
      * intros kv [<-|Hin]; auto.
Qed.

Lemma suggest_model_spec (t sug : string) :
  _suggest_model (VStr t) = Ok sug -> suggestion_spec (py_lower t) sug.
Proof.
  unfold _suggest_model, suggestion_spec. intros H.
  pose proof (suggest_loop_first role_models (py_lower t)) as Hf.
  destruct (suggest_loop role_models (py_lower t)) as [m|];
    inversion H; subst; auto.
Qed.

Lemma model_path_inj (a b : Z) : model_path a = model_path b -> a = b.
Proof.
  unfold model_path. intros H.
  apply append_inj_r, append_inj_l, append_inj_r in H.
  now apply str_of_Z_inj.
Qed.

Lemma check_role_model_paths i role :
  emits (fun x => path x = Some (model_path i)) (check_role_model i role).
Proof. unfold check_role_model. emits_tac. Qed.

Lemma check_role_id_category i role ids :
  emits (fun x => category x = "roles"%string) (check_role_id i role ids).
Proof. unfold check_role_id. emits_tac. Qed.

Lemma check_role_responsibilities_category i role :
  emits (fun x => category x = "roles"%string)
    (check_role_responsibilities i role).
Proof. unfold check_role_responsibilities. emits_tac. Qed.

Lemma check_team_size_category n :
  emits (fun x => category x = "roles"%string) (check_team_size n).
Proof. unfold check_team_size. emits_tac. Qed.

(** an issue of category [optimization] with the model path of role [i]
    can only come from the model block of role [i] *)
Lemma optimization_issue_origin (roles : list value) (ids : pyset)
    (x : ValidationIssue) (i : nat) :
  outcome (for_each roles_body (enumerate roles) []) = Ok ids ->
  In x (emitted (for_each roles_body (enumerate roles) [])) ->
  category x = "optimization"%string ->
  path x = Some (model_path (Z.of_nat i)) ->
  exists role, nth_error roles i = Some role /\
               In x (emitted (check_role_model (Z.of_nat i) role)).
Proof.
  intros Hok Hx Hcat Hpath. unfold enumerate in *.
  destruct (loop_emitted roles_body role_step roles_body_appends
              roles_body_step roles 0 [] ids x Hok Hx) as [m [y [Hm Hin]]].
  destruct (loop_iteration roles_body role_step roles_body_appends
              roles_body_step roles 0 [] ids m y Hok Hm) as [Hb _].
  cbv zeta in Hb. rewrite Z.add_0_l in *.
  apply roles_body_ok in Hb. destruct Hb as [_ [_ [_ E]]].
  rewrite E in Hin. clear E.
  assert (Hmodel : In x (emitted (check_role_model (Z.of_nat m) y))).
  { apply in_app_or in Hin. destruct Hin as [Hin|Hin].
    - pose proof (proj2 (check_role_id_category (Z.of_nat m) y
                           (state_after role_step (firstn m roles) []))) as F.
      rewrite Forall_forall in F. apply F in Hin. congruence.
    - apply in_app_or in Hin. destruct Hin as [Hin|Hin]; [assumption|].
      pose proof (proj2 (check_role_responsibilities_category
                           (Z.of_nat m) y)) as F.
      rewrite Forall_forall in F. apply F in Hin. congruence. }
  pose proof (proj2 (check_role_model_paths (Z.of_nat m) y)) as F.
  rewrite Forall_forall in F. apply F in Hmodel as Hp.
  assert (Hp' : model_path (Z.of_nat i) = model_path (Z.of_nat m))
    by congruence.
  apply model_path_inj, Nat2Z.inj in Hp'. subst m.
  exists y. auto.
Qed.

End RolesRule.

(** ** The workflow rule *)

Lemma endswith_percent_spec (s : string) :
  endswith_percent s = true <-> exists s', s = s' +++ "%".
Proof.
  induction s as [|c s IH]; cbn [endswith_percent].
  - split; [discriminate|]. intros [[|c s'] H]; discriminate.
  - destruct s as [|d s].
    + rewrite Ascii.eqb_eq. split.
      * intros ->. now exists ""%string.
      * intros [[|c' [|c'' s']] H]; inversion H; reflexivity.
    + rewrite IH. split.
      * intros [s' H]. exists (String c s'). cbn. now rewrite H.
      * intros [[|c' s'] H]; [discriminate|]. inversion H. now exists s'.
Qed.

Lemma drop_last_append (s : string) (c : ascii) :
  drop_last (s +++ String c "") = s.
Proof.
  induction s as [|d s IH]; [reflexivity|]. cbn [String.append drop_last].
  destruct (s +++ String c "") eqn:E.
  - destruct s; discriminate.
  - now rewrite IH.
Qed.

Section WorkflowRule.
Context {py : PyBuiltins}.

Lemma percentage_of_spec (duration : value) (n : Z) :
  percentage_of duration = Some n <->
  exists s, duration = VStr (s +++ "%") /\ py_int s = Some n.
Proof.
  unfold percentage_of. split.
  - destruct duration as [| | |s| |]; try discriminate.
    destruct (endswith_percent s) eqn:E; [|discriminate].
    apply endswith_percent_spec in E. destruct E as [s' ->].
    rewrite drop_last_append. eauto.
  - intros [s [-> H]].
    rewrite (proj2 (endswith_percent_spec _) (ex_intro _ s eq_refl)).
    now rewrite drop_last_append.
Qed.

Lemma add_duration_percentage (duration : value) (total : Z) :
  add_duration duration total
  = total + match percentage_of duration with Some n => n | None => 0 end.
Proof.
  unfold add_duration, percentage_of. destruct duration; try lia.
  destruct (endswith_percent s); [|lia]. destruct (py_int _); lia.
Qed.

(** the name block of the loop, when it does not raise *)
Lemma check_phase_name_ok (i : Z) (phase : value) (names names' : pyset) :
  outcome (check_phase_name i phase names) = Ok names' ->
  names' = name_step phase names.
Proof.
  unfold name_step, phase_key, check_phase_name, outcome, bind, lift, ret,
    when, _add_issue, set_contains, bindR.
  destruct phase as [| | | s | l | d]; cbn; try discriminate.
  - destruct (str_contains "name" s); cbn; [discriminate|].
    intros H; now inversion H.
  - destruct (existsb (eq_str "name") l); cbn; [discriminate|].
    intros H; now inversion H.
  - destruct (lookup "name" d) as [name|]; cbn.
    + destruct (py_hash name) as [k|e]; cbn; [|discriminate].
      destruct (set_mem k names); cbn; intros H; now inversion H.
    + intros H; now inversion H.
Qed.

Lemma phase_duration_ok (phase : value) (total total' : Z) :
  outcome (phase_duration phase total) = Ok total' ->
  total' = total + phase_percentage phase.
Proof.
  unfold phase_percentage, phase_duration, outcome, bind, lift, ret.
  destruct phase as [| | | s | l | d]; cbn; try discriminate.
  - destruct (str_contains "duration" s); cbn; [discriminate|].
    intros H; inversion H; lia.
  - destruct (existsb (eq_str "duration") l); cbn; [discriminate|].
    intros H; inversion H; lia.
  - destruct (lookup "duration" d) as [duration|]; cbn.
    + intros H; inversion H. apply add_duration_percentage.
    + intros H; inversion H; lia.
Qed.

Lemma phases_body_appends ia t : appends (phases_body ia t).
Proof. destruct ia, t. appends_tac. Qed.

(** an iteration that does not raise: its blocks did not, and it emits
    what they emit, in order *)
Lemma phases_body_ok (i : Z) (phase : value) (st st' : pyset * Z) :
  outcome (phases_body (i, phase) st) = Ok st' ->
  st' = phase_step phase st /\
  outcome (check_phase_dependencies i phase (name_step phase (fst st)))
    = Ok tt /\
  emitted (phases_body (i, phase) st) =
    emitted (check_phase_name i phase (fst st))
    ++ emitted (check_phase_dependencies i phase (name_step phase (fst st))).
Proof.
  unfold phases_body. destruct st as [names total]. intros H.
  apply bind_ok in H; [|appends_tac]. destruct H as [names1 [H1 [H E1]]].
  apply check_phase_name_ok in H1. subst names1.
  apply bind_ok in H; [|appends_tac]. destruct H as [[] [H2 [H E2]]].
  apply bind_ok in H; [|appends_tac]. destruct H as [total1 [H3 [H E3]]].
  rewrite outcome_ret in H. inversion H; subst st'.
  apply phase_duration_ok in H3 as ->.
  rewrite E1, E2, E3, emitted_ret, List.app_nil_r.
  assert (Hd : emitted (phase_duration phase total) = []).
  { unfold phase_duration, emitted, bind, lift, ret.
    destruct (py_in "duration" phase) as [[|]|]; cbn; try reflexivity.
    destruct (py_getitem phase "duration"); reflexivity. }
  rewrite Hd, List.app_nil_r. auto.
Qed.

Lemma phases_body_step i phase t t' :
  outcome (phases_body (i, phase) t) = Ok t' -> t' = phase_step phase t.
Proof. intros H. now apply phases_body_ok in H. Qed.

Lemma phases_body_errors ia st :
  emits (fun x => level x = ERROR) (phases_body ia st).
Proof.
  destruct ia as [i phase], st as [names total].
  unfold phases_body, check_phase_name, check_phase_dependencies, deps_body,
    phase_duration.
  emits_tac.
Qed.

Lemma state_after_phases (phases : list value) :
  forall st,
  snd (state_after phase_step phases st) = snd st + sum_percentages phases.
Proof.
  induction phases as [|p phases IH]; intros st.
  - cbn. lia.
  - change (state_after phase_step (p :: phases) st)
      with (state_after phase_step phases (phase_step p st)).
    rewrite IH. unfold phase_step. cbn [snd sum_percentages fold_right].
    fold (sum_percentages phases). lia.
Qed.

(** the workflow rule on a list of phases, when it does not raise: the
    loop did not, and the duration warning follows it exactly when the
    sum of the percentages is positive and not 100 *)
Lemma workflow_rule_ok (cfg wf : value) (phases : list value) :
  field "workflow" cfg = Some wf ->
  field "phases" wf = Some (VList phases) ->
  outcome (_validate_workflow cfg) = Ok tt ->
  exists st,
    outcome (for_each phases_body (enumerate phases) ([], 0)) = Ok st /\
    emitted (_validate_workflow cfg) =
      emitted (for_each phases_body (enumerate phases) ([], 0))
      ++ (if (0 <? sum_percentages phases)
             && negb (sum_percentages phases =? 100)
          then [duration_issue (sum_percentages phases)] else []).
Proof.
  intros Hw Hp H. unfold _validate_workflow in *.
  rewrite (field_py_in _ _ _ Hw) in *.
  apply bind_lift_ok in H. destruct H as [b [Hb [H ->]]].
  inversion Hb; subst b. cbn [negb] in *.
  rewrite (proj2 (py_getitem_field _ _ _) Hw) in *.
  apply bind_lift_ok in H. destruct H as [w [Hw' [H ->]]].
  inversion Hw'; subst w.
  rewrite (field_py_in _ _ _ Hp) in *.
  apply bind_lift_ok in H. destruct H as [b [Hb' [H ->]]].
  inversion Hb'; subst b. cbn [negb] in *.
  rewrite (proj2 (py_getitem_field _ _ _) Hp) in *.
  apply bind_lift_ok in H. destruct H as [p [Hp' [H ->]]].
  inversion Hp'; subst p.
  apply bind_lift_ok in H. destruct H as [items [Hi [H ->]]].
  cbn [py_iter] in Hi. inversion Hi; subst items.
  apply bind_ok in H; [|intros [? ?]; appends_tac].
  destruct H as [[names total] [Hl [H ->]]].
  exists (names, total). split; [assumption|]. f_equal.
  unfold enumerate in Hl.
  pose proof (loop_state phases_body phase_step phases_body_appends
                phases_body_step phases 0 ([], 0) _ Hl) as Hst.
  assert (Ht : total = sum_percentages phases).
  { change total with (snd (names, total)). rewrite Hst.
    rewrite state_after_phases. cbn [snd]. lia. }
  subst total.
  destruct ((0 <? sum_percentages phases)
            && negb (sum_percentages phases =? 100)).
  - apply emitted_add.
  - reflexivity.
Qed.


(** *** Dependencies on phases not yet declared *)

Lemma name_step_In (phase : value) (names : pyset) (k : hkey) :
  In k (name_step phase names) <-> phase_key phase = Some k \/ In k names.
Proof.
  unfold name_step. destruct (phase_key phase) as [k'|].
  - rewrite set_add_In. split; intros [H|H]; auto; left; congruence.
  - split; [auto|]. intros [H|H]; [discriminate|assumption].
Qed.

Lemma names_after_In (phases : list value) :
  forall st k,
  In k (fst (state_after phase_step phases st)) ->
  In k (fst st) \/ exists j, named_at phases j k.
Proof.
  induction phases as [|p phases IH]; intros st k H; [now left|].
  change (state_after phase_step (p :: phases) st)
    with (state_after phase_step phases (phase_step p st)) in H.
  apply IH in H. destruct H as [H|[j [pj [Hj Hk]]]].
  - unfold phase_step in H. cbn [fst] in H. apply name_step_In in H.
    destruct H as [H|H]; [|now left].
    right. exists 0%nat, p. auto.
  - right. exists (S j), pj. auto.
Qed.

Lemma for_In {A} (body : A -> M unit) (xs : list A) (x : A) :
  (forall y, appends (body y)) ->
  outcome (for_ body xs) = Ok tt -> In x xs ->
  outcome (body x) = Ok tt /\
  incl (emitted (body x)) (emitted (for_ body xs)).
Proof.
  intros Ha H Hx.
  destruct (for_spec body xs (fun y _ => Ha y)) as [_ Hs].
  rewrite H in Hs. destruct Hs as [Hall Hem].
  rewrite Forall_forall in Hall. split; [auto|].
  rewrite Hem. intros y Hy. apply in_concat.
  exists (emitted (body x)). split; [|assumption].
  apply in_map_iff. eauto.
Qed.

(** the dependency block reports every dependency whose key is not among
    the names it is given *)
Lemma check_phase_dependencies_reports (i : Z) (phase : value)
    (names : pyset) (deps : list value) (dep : value) (k : hkey) :
  field "dependencies" phase = Some (VList deps) ->
  outcome (check_phase_dependencies i phase names) = Ok tt ->
  In dep deps -> py_hash dep = Ok k -> ~ In k names ->
  In (undefined_dependency_issue i (phase_name phase) dep)
     (emitted (check_phase_dependencies i phase names)).
Proof.
  intros Hd H Hin Hk Hnot. unfold check_phase_dependencies in *.
  rewrite (field_py_in _ _ _ Hd) in *.
  apply bind_lift_ok in H. destruct H as [b [Hb [H ->]]].
  inversion Hb; subst b.
  rewrite (proj2 (py_getitem_field _ _ _) Hd) in *.
  apply bind_lift_ok in H. destruct H as [d [Hd' [H ->]]].
  inversion Hd'; subst d.
  apply bind_lift_ok in H. destruct H as [items [Hi [H ->]]].
  cbn [py_iter] in Hi. inversion Hi; subst items.
  destruct (for_In (deps_body i phase names) deps dep ltac:(appends_tac)
              H Hin) as [_ Hincl].
  apply Hincl.
  destruct phase as [| | | | |d]; try discriminate.
  unfold deps_body, emitted, bind, lift, ret, add, _add_issue, set_contains,
    bindR.
  rewrite Hk. apply set_mem_notIn in Hnot. rewrite Hnot. cbn. now left.
Qed.

End WorkflowRule.

(** ** The dependency rule *)

Lemma chain_steps (g : pydict) (rest : list hkey) :
  forall a b, chain g a rest b -> steps g (S (length rest)) a b.
Proof.
  induction rest as [|x rest IH]; intros a b H; cbn in *.
  - exists b. auto.
  - destruct H as [Hx H]. exists x. split; [assumption|]. now apply IH.
Qed.

Lemma steps_chain (g : pydict) (n : nat) :
  forall a b, steps g (S n) a b ->
  exists rest, length rest = n /\ chain g a rest b.
Proof.
  induction n as [|n IH]; intros a b [c [Hc H]].
  - cbn in H. subst. exists []. auto.
  - destruct (IH c b H) as [rest [Hlen Hch]].
    exists (c :: rest). cbn. auto.
Qed.

Lemma is_cycle_cyclic (g : pydict) (c : list hkey) :
  is_cycle g c -> cyclic g.
Proof.
  destruct c as [|a rest]; [intros []|]. intros H.
  exists a, (S (length rest)). split; [lia|]. now apply chain_steps.
Qed.

Lemma cyclic_is_cycle (g : pydict) :
  cyclic g -> exists c, is_cycle g c.
Proof.
  intros [k [n [Hn H]]]. destruct n as [|n]; [lia|].
  destruct (steps_chain g n k k H) as [rest [_ Hch]].
  now exists (k :: rest).
Qed.

Section DependencyRule.
Context {py : PyBuiltins}.

(** the dict comprehension, when it does not raise: a later role with
    the same id replaces the link of an earlier one *)
Lemma reporting_of_ok (roles : list value) :
  forall acc g, reporting_of roles acc = Ok g -> g = fold_left link_step roles acc.
Proof.
  induction roles as [|role roles IH]; intros acc g H; cbn in H.
  - now inversion H.
  - cbn [fold_left]. unfold link_step at 2, reports_link, role_key.
    destruct role as [| | | s | l | d]; cbn in *; try discriminate.
    + destruct (str_contains "id" s); cbn in H; [|auto].
      destruct (str_contains "reports_to" s); cbn in H; [discriminate|auto].
    + destruct (existsb (eq_str "id") l); cbn in H; [|auto].
      destruct (existsb (eq_str "reports_to") l); cbn in H;
        [discriminate|auto].
    + destruct (lookup "id" d) as [rid|]; cbn in H; [|auto].
      destruct (lookup "reports_to" d) as [sup|]; cbn in H.
      * destruct (py_hash rid) as [k|e]; cbn in H; [auto|discriminate].
      * destruct (py_hash rid); auto.
Qed.

Lemma fold_link_untouched (roles : list value) (k : hkey) :
  forall acc,
  (forall role sup, In role roles -> reports_link role <> Some (k, sup)) ->
  dict_get k (fold_left link_step roles acc) = dict_get k acc.
Proof.
  induction roles as [|role roles IH]; intros acc H; [reflexivity|].
  cbn [fold_left]. rewrite IH by (intros r s Hr; apply H; now right).
  unfold link_step. destruct (reports_link role) as [[k' sup]|] eqn:E;
    [|reflexivity].
  apply dict_get_set_other. intros ->. apply (H role sup); [now left|assumption].
Qed.

(** the link of a role is in the graph unless a later role with the same
    id declares one *)
Lemma fold_link_last (roles : list value) (i : nat) (role : value)
    (k : hkey) (sup : value) :
  forall acc,
  nth_error roles i = Some role ->
  reports_link role = Some (k, sup) ->
  (forall j later sup', (i < j)%nat -> nth_error roles j = Some later ->
                        reports_link later <> Some (k, sup')) ->
  dict_get k (fold_left link_step roles acc) = Some sup.
Proof.
  revert i. induction roles as [|r roles IH]; intros i acc Hi Hl Hlater.
  - destruct i; discriminate.
  - destruct i as [|i]; cbn [fold_left].
    + cbn in Hi. inversion Hi; subst r.
      rewrite fold_link_untouched.
      * unfold link_step. rewrite Hl. apply dict_get_set_same.
      * intros later sup' Hin. apply In_nth_error in Hin.
        destruct Hin as [j Hj]. apply (Hlater (S j) later sup'); [lia|].
        exact Hj.
    + apply (IH i); [exact Hi|exact Hl|].
      intros j later sup' Hij Hj. apply (Hlater (S j) later sup'); [lia|].
      exact Hj.
Qed.

Lemma reports_body_paths ids role :
  emits (fun x => path x <> None) (reports_body ids role).
Proof. unfold reports_body. emits_tac. Qed.

(** the dependency rule on a list of roles, when it does not raise: the
    reference checks did not, the graph was built, [has_cycle] answered,
    and the cycle error follows the reference errors exactly when the
    answer is yes *)
Lemma dependencies_rule_ok (cfg : value) (roles : list value) :
  field "roles" cfg = Some (VList roles) ->
  outcome (_validate_dependencies cfg) = Ok tt ->
  exists ids g b,
    reporting_of roles [] = Ok g /\
    has_cycle g = Ok b /\
    emitted (_validate_dependencies cfg) =
      emitted (for_ (reports_body ids) roles)
      ++ (if b : bool then [cycle_issue] else []).
Proof.
  intros Hf H. unfold _validate_dependencies in *.
  rewrite (field_py_in _ _ _ Hf) in *.
  apply bind_lift_ok in H. destruct H as [b [Hb [H ->]]].
  inversion Hb; subst b. cbn [negb] in *.
  rewrite (proj2 (py_getitem_field _ _ _) Hf) in *.
  apply bind_lift_ok in H. destruct H as [r [Hr [H ->]]].
  inversion Hr; subst r.
  apply bind_lift_ok in H. destruct H as [items [Hi [H ->]]].
  cbn [py_iter] in Hi. inversion Hi; subst items.
  apply bind_lift_ok in H. destruct H as [ids [Hids [H ->]]].
  apply bind_ok in H; [|appends_tac]. destruct H as [[] [Hloop [H ->]]].
  apply bind_lift_ok in H. destruct H as [g [Hg [H ->]]].
  apply bind_lift_ok in H. destruct H as [b [Hc [H ->]]].
  exists ids, g, b. repeat split; auto. f_equal.
  destruct b; [apply emitted_add|reflexivity].
Qed.

End DependencyRule.

(** ** Documents on which no rule raises *)

Section Totality.
Context {py : PyBuiltins}.

































End Totality.

(** * The claims of the specification *)

Section Claims.
Context {py : PyBuiltins}.

Lemma rule_ok_each (cfg : value) :
  Forall (rule_ok cfg) rules ->
  outcome (_validate_structure cfg) = Ok tt /\
  outcome (_validate_roles cfg) = Ok tt /\
  outcome (_validate_workflow cfg) = Ok tt /\
  outcome (_validate_communication cfg) = Ok tt /\
  outcome (_validate_dependencies cfg) = Ok tt /\
  outcome (_validate_resources cfg) = Ok tt /\
  outcome (_validate_best_practices cfg) = Ok tt.
Proof.
  intros H. rewrite Forall_forall in H.
  repeat split; apply H; unfold rules; simpl; tauto.
Qed.

Lemma emitted_from {A} (P : ValidationIssue -> Prop) (m : M A)
    (x : ValidationIssue) :
  emits P m -> In x (emitted m) -> P x.
Proof. intros [_ H] Hx. rewrite Forall_forall in H. auto. Qed.

(** C1 (amended).  [validate] returns a pair exactly when none of the
    seven rules raises; the issues are then the concatenation, in the
    declared order (structure, roles, workflow, communication,
    dependencies, resources, best-practices), of what each rule emits
    when run once, and [passed] holds iff none of them has level ERROR.
    When a rule raises, [validate] returns nothing: the exception of the
    first rule that raises escapes. *)
Theorem validate_concatenates_rules (self : TeamValidator) :
  match fst (validate self) with
  | Ok (passed, found) =>
      Forall (fun rule => outcome (rule (config self)) = Ok tt) rules /\
      found = concat (map (fun rule => emitted (rule (config self))) rules) /\
      (passed = true <-> forall x, In x found -> level x <> ERROR)
  | Raise e =>
      exists earlier rule later,
        rules = earlier ++ rule :: later /\
        Forall (fun rule => outcome (rule (config self)) = Ok tt) earlier /\
        outcome (rule (config self)) = Raise e
  end.
Proof.
  rewrite validate_unfold.
  pose proof (run_checks_spec (config self)) as H.
  destruct (outcome (run_checks (config self))) as [u|e].
  - destruct H as [Hok Hem]. repeat split; auto.
    + rewrite <- passed_iff. auto.
    + rewrite <- passed_iff. auto.
  - exact H.
Qed.

(** C8.  Calling [validate] a second time on the validator the first
    call leaves behind gives the same result as the first call: the same
    verdict and the same sequence of issues (or the same exception). *)
Theorem validate_idempotent (self : TeamValidator) :
  fst (validate (snd (validate self))) = fst (validate self).
Proof.
  rewrite !validate_unfold.
  assert (E : config (snd (validate self)) = config self).
  { unfold validate. cbn [config issues].
    destruct (run_checks (config self) []) as [[u|e] found]; reflexivity. }
  now rewrite E.
Qed.

(** C4.  When exactly two roles of the list share an id (positions
    [i < j]), a returning [validate] reports exactly one duplicate-id
    ERROR, its path is that of the second occurrence, [roles[j]], and
    [passed] is false. *)
Theorem duplicate_role_id_reported_once (self : TeamValidator)
    (passed : bool) (found : list ValidationIssue) (roles : list value)
    (i j : nat) (ri rj : value) (k : hkey) :
  fst (validate self) = Ok (passed, found) ->
  field "roles" (config self) = Some (VList roles) ->
  (i < j)%nat ->
  nth_error roles i = Some ri -> role_key ri = Some k ->
  nth_error roles j = Some rj -> role_key rj = Some k ->
  (forall a b k', (a < b)%nat -> key_at roles a k' -> key_at roles b k' ->
                  a = i /\ b = j) ->
  filter is_duplicate_error found
    = [duplicate_id_issue (Z.of_nat j) (role_id rj)] /\
  path (duplicate_id_issue (Z.of_nat j) (role_id rj))
    = Some ("roles[" +++ str_of_Z (Z.of_nat j) +++ "]") /\
  passed = false.
Proof.
  intros Hv Hroles Hij Hi Hki Hj Hkj Honly.
  apply validate_ok_inv in Hv. cbv zeta in Hv.
  destruct Hv as [Hok [Hfound Hpassed]].
  apply rule_ok_each in Hok. destruct Hok as [_ [Hr _]].
  assert (Hne : roles <> []) by (intros ->; destruct i; discriminate).
  destruct (roles_rule_ok _ _ Hroles Hne Hr) as [ids [Hloop Hem]].
  assert (Hdup : filter is_duplicate_error found
                 = [duplicate_id_issue (Z.of_nat j) (role_id rj)]).
  { rewrite Hfound, !filter_app, Hem, filter_app.
    unfold enumerate in *. rewrite (roles_loop_duplicates _ _ _ _ Hloop).
    rewrite (filter_none _ _ (proj2 (check_team_size_no_duplicate _))).
    assert (Hcat : forall {A} (m : M A) c,
               c <> "roles"%string ->
               emits (fun x => category x = c) m ->
               filter is_duplicate_error (emitted m) = []).
    { intros A m c Hc [_ Hm]. apply filter_none.
      eapply Forall_impl; [|exact Hm]. intros x Hx.
      unfold is_duplicate_error. rewrite Hx.
      destruct (String.eqb_spec c "roles"); [contradiction|].
      now rewrite andb_false_r. }
    rewrite (Hcat _ _ "structure"%string ltac:(discriminate)
               (structure_emits _)).
    rewrite (Hcat _ _ "workflow"%string ltac:(discriminate)
               (workflow_emits _)).
    rewrite (Hcat _ _ "communication"%string ltac:(discriminate)
               (communication_emits _)).
    rewrite (Hcat _ _ "dependencies"%string ltac:(discriminate)
               (emits_weaken _ _ _ (fun x H => proj1 H)
                  (dependencies_emits _))).
    rewrite (Hcat _ _ "resources"%string ltac:(discriminate)
               (resources_emits _)).
    assert (Hbest : filter is_duplicate_error
                      (emitted (_validate_best_practices (config self))) = []).
    { apply filter_none.
      eapply Forall_impl; [|exact (proj2 (best_practices_emits _))].
      intros x [Hx|[Hx _]]; unfold is_duplicate_error; rewrite Hx;
        now rewrite andb_false_r. }
    rewrite Hbest, !List.app_nil_r. cbn [app].
    rewrite (duplicate_errors_one roles 0 [] j rj k Hj Hkj).
    - reflexivity.
    - right. exists i. split; [assumption|]. exists ri. auto.
    - intros m Hm k' Hk'. split; [intros []|].
      intros a Ha Hka. destruct (Honly a m k' Ha Hka Hk') as [_ ->].
      contradiction. }
  repeat split; [assumption|].
  rewrite Hpassed. apply negb_false_iff, existsb_exists.
  exists (duplicate_id_issue (Z.of_nat j) (role_id rj)).
  split; [|reflexivity].
  assert (Hin : In (duplicate_id_issue (Z.of_nat j) (role_id rj))
                  (filter is_duplicate_error found)) by (rewrite Hdup; now left).
  now apply filter_In in Hin.
Qed.


(** C7.  For a role that has a model, the suggested model is that of the
    first entry of the keyword table, in declaration order, whose
    keyword occurs in the lowered role type, and ["sonnet"] when there
    is none; a returning [validate] contains the model-fit INFO issue of
    that role if and only if the configured model is not the suggested
    one. *)
Theorem model_fit_info_iff_model_differs (self : TeamValidator)
    (passed : bool) (found : list ValidationIssue) (roles : list value)
    (i : nat) (role model : value) :
  fst (validate self) = Ok (passed, found) ->
  field "roles" (config self) = Some (VList roles) ->
  nth_error roles i = Some role ->
  field "model" role = Some model ->
  exists t sug,
    role_type role = VStr t /\
    _suggest_model (VStr t) = Ok sug /\
    suggestion_spec (py_lower t) sug /\
    level (model_fit_issue (Z.of_nat i) (role_id role) model sug (VStr t))
      = INFO /\
    (In (model_fit_issue (Z.of_nat i) (role_id role) model sug (VStr t)) found
     <-> model <> VStr sug).
Proof.
  intros Hv Hroles Hi Hmodel.
  apply validate_ok_inv in Hv. cbv zeta in Hv.
  destruct Hv as [Hok [Hfound _]].
  apply rule_ok_each in Hok. destruct Hok as [_ [Hr _]].
  assert (Hne : roles <> []) by (intros ->; destruct i; discriminate).
  destruct (roles_rule_ok _ _ Hroles Hne Hr) as [ids [Hloop Hem]].
  unfold enumerate in Hloop.
  destruct (loop_iteration roles_body role_step roles_body_appends
              roles_body_step roles 0 [] ids i role Hloop Hi) as [Hb Hincl].
  cbv zeta in Hb, Hincl. rewrite Z.add_0_l in *.
  apply roles_body_ok in Hb. destruct Hb as [_ [Hm [_ Hbody]]].
  destruct (check_role_model_ok _ _ _ Hmodel Hm) as [sug [pre [Hs [Hpre He]]]].
  destruct (role_type role) as [| | |t| |] eqn:Ht; try discriminate.
  exists t, sug. split; [reflexivity|]. split; [exact Hs|].
  split; [now apply suggest_model_spec|]. split; [reflexivity|].
  set (x := model_fit_issue (Z.of_nat i) (role_id role) model sug (VStr t))
    in *.
  rewrite <- eq_str_false. split.
  - intros Hin. rewrite Hfound in Hin.
    assert (Hcat : category x = "optimization"%string) by reflexivity.
    assert (Hpath : path x = Some (model_path (Z.of_nat i))) by reflexivity.
    assert (Hlevel : level x = INFO) by reflexivity.
    repeat (apply in_app_or in Hin; destruct Hin as [Hin|Hin]).
    + apply (emitted_from _ _ _ (structure_emits _)) in Hin.
      unfold from_structure in Hin. congruence.
    + rewrite Hem in Hin. apply in_app_or in Hin. destruct Hin as [Hin|Hin].
      * destruct (optimization_issue_origin roles ids x i Hloop Hin Hcat Hpath)
          as [role' [Hi' Hin']].
        assert (role' = role) by congruence. subst role'.
        rewrite He in Hin'. apply in_app_or in Hin'.
        destruct Hin' as [Hin'|Hin'].
        -- rewrite Forall_forall in Hpre. apply Hpre in Hin'. congruence.
        -- destruct (eq_str sug model); [destruct Hin'|reflexivity].
      * apply (emitted_from _ _ _ (check_team_size_category _)) in Hin.
        congruence.
    + apply (emitted_from _ _ _ (workflow_emits _)) in Hin.
      unfold from_workflow in Hin. congruence.
    + apply (emitted_from _ _ _ (communication_emits _)) in Hin.
      unfold from_communication in Hin. congruence.
    + apply (emitted_from _ _ _ (dependencies_emits _)) in Hin.
      destruct Hin as [Hin _]. congruence.
    + apply (emitted_from _ _ _ (resources_emits _)) in Hin.
      unfold from_resources in Hin. congruence.
    + apply (emitted_from _ _ _ (best_practices_emits _)) in Hin.
      destruct Hin as [Hin|[_ Hin]]; congruence.
  - intros Hne'. rewrite Hfound, Hem.
    apply in_or_app. right. apply in_or_app. left. apply in_or_app. left.
    apply Hincl. rewrite Hbody, He, Hne'.
    apply in_or_app. right. apply in_or_app. left. apply in_or_app. right.
    now left.
Qed.


(** C3 (amended).  When a phase lists a dependency whose name is
    declared neither by an earlier phase nor by that phase itself, a
    returning [validate] contains the ERROR for that dependency entry,
    also when a later phase declares the name; [passed] is then false.
    (The name of the phase itself counts as declared: it is recorded
    before the dependencies of the phase are looked at.) *)
Theorem undeclared_dependency_reported (self : TeamValidator)
    (passed : bool) (found : list ValidationIssue) (wf : value)
    (phases : list value) (i : nat) (phase : value) (deps : list value)
    (dep : value) (k : hkey) :
  fst (validate self) = Ok (passed, found) ->
  field "workflow" (config self) = Some wf ->
  field "phases" wf = Some (VList phases) ->
  nth_error phases i = Some phase ->
  field "dependencies" phase = Some (VList deps) ->
  In dep deps -> py_hash dep = Ok k ->
  (forall j, (j <= i)%nat -> ~ named_at phases j k) ->
  In (undefined_dependency_issue (Z.of_nat i) (phase_name phase) dep) found /\
  level (undefined_dependency_issue (Z.of_nat i) (phase_name phase) dep)
    = ERROR /\
  passed = false.
Proof.
  intros Hv Hw Hp Hi Hd Hin Hk Hnew.
  apply validate_ok_inv in Hv. cbv zeta in Hv.
  destruct Hv as [Hok [Hfound Hpassed]].
  apply rule_ok_each in Hok. destruct Hok as [_ [_ [Hr _]]].
  destruct (workflow_rule_ok _ _ _ Hw Hp Hr) as [st [Hloop Hem]].
  unfold enumerate in Hloop.
  destruct (loop_iteration phases_body phase_step phases_body_appends
              phases_body_step phases 0 ([], 0) st i phase Hloop Hi)
    as [Hb Hincl].
  cbv zeta in Hb, Hincl. rewrite Z.add_0_l in *.
  apply phases_body_ok in Hb. destruct Hb as [_ [Hdeps Hbody]].
  assert (Hx : In (undefined_dependency_issue (Z.of_nat i)
                     (phase_name phase) dep) found).
  { rewrite Hfound, Hem.
    apply in_or_app. right. apply in_or_app. right.
    apply in_or_app. left. apply in_or_app. left.
    apply Hincl. rewrite Hbody. apply in_or_app. right.
    apply (check_phase_dependencies_reports _ _ _ _ _ _ Hd Hdeps Hin Hk).
    intros Hmem. apply name_step_In in Hmem. destruct Hmem as [Hmem|Hmem].
    - apply (Hnew i (Nat.le_refl i)). exists phase. auto.
    - apply names_after_In in Hmem. destruct Hmem as [[]|[j [pj [Hj Hkj]]]].
      rewrite nth_error_firstn in Hj.
      destruct (Nat.ltb_spec j i) as [Hlt|Hge]; [|discriminate].
      apply (Hnew j (Nat.lt_le_incl _ _ Hlt)). exists pj. auto. }
  repeat split; [assumption|].
  rewrite Hpassed. apply negb_false_iff, existsb_exists. eauto.
Qed.

(** C6 (amended).  The percentages of the phases whose duration is a
    string that ends in [%] and parses as an integer are summed, the
    other durations being ignored, and a returning [validate] contains
    the duration WARNING if and only if that sum is positive and not
    100. *)
Theorem duration_warning_iff (self : TeamValidator)
    (passed : bool) (found : list ValidationIssue) (wf : value)
    (phases : list value) :
  fst (validate self) = Ok (passed, found) ->
  field "workflow" (config self) = Some wf ->
  field "phases" wf = Some (VList phases) ->
  level (duration_issue (sum_percentages phases)) = WARNING /\
  (In (duration_issue (sum_percentages phases)) found <->
   0 < sum_percentages phases /\ sum_percentages phases <> 100).
Proof.
  intros Hv Hw Hp. split; [reflexivity|].
  apply validate_ok_inv in Hv. cbv zeta in Hv.
  destruct Hv as [Hok [Hfound _]].
  apply rule_ok_each in Hok. destruct Hok as [_ [_ [Hr _]]].
  destruct (workflow_rule_ok _ _ _ Hw Hp Hr) as [st [Hloop Hem]].
  set (total := sum_percentages phases) in *.
  assert (Hcond : (0 <? total) && negb (total =? 100) = true
                  <-> 0 < total /\ total <> 100).
  { rewrite andb_true_iff, negb_true_iff, Z.ltb_lt, Z.eqb_neq. tauto. }
  rewrite <- Hcond. set (x := duration_issue total) in *.
  assert (Hcat : category x = "workflow"%string) by reflexivity.
  assert (Hlevel : level x = WARNING) by reflexivity.
  split.
  - intros Hin. rewrite Hfound in Hin.
    repeat (apply in_app_or in Hin; destruct Hin as [Hin|Hin]).
    + apply (emitted_from _ _ _ (structure_emits _)) in Hin.
      unfold from_structure in Hin. congruence.
    + apply (emitted_from _ _ _ (roles_emits _)) in Hin.
      destruct Hin as [Hin|[Hin _]]; congruence.
    + rewrite Hem in Hin. apply in_app_or in Hin. destruct Hin as [Hin|Hin].
      * apply (emitted_from _ _ _
                 (emits_for_each _ _ _ phases_body_errors _)) in Hin.
        congruence.
      * destruct ((0 <? total) && negb (total =? 100));
          [reflexivity|destruct Hin].
    + apply (emitted_from _ _ _ (communication_emits _)) in Hin.
      unfold from_communication in Hin. congruence.
    + apply (emitted_from _ _ _ (dependencies_emits _)) in Hin.
      destruct Hin as [Hin _]. congruence.
    + apply (emitted_from _ _ _ (resources_emits _)) in Hin.
      unfold from_resources in Hin. congruence.
    + apply (emitted_from _ _ _ (best_practices_emits _)) in Hin.
      destruct Hin as [Hin|[Hin _]]; congruence.
  - intros Hc. rewrite Hfound, Hem, Hc.
    apply in_or_app. right. apply in_or_app. right.
    apply in_or_app. left. apply in_or_app. right. now left.
Qed.


(** the number of cycle errors a returning [validate] reports: one when
    the reporting graph has a cycle, none otherwise *)
Lemma cycle_issue_count (self : TeamValidator) (passed : bool)
    (found : list ValidationIssue) (roles : list value) (g : pydict) :
  fst (validate self) = Ok (passed, found) ->
  field "roles" (config self) = Some (VList roles) ->
  reporting_of roles [] = Ok g ->
  (cyclic g -> count_occ issue_eq_dec found cycle_issue = 1%nat /\
               passed = false) /\
  (~ cyclic g -> count_occ issue_eq_dec found cycle_issue = 0%nat).
Proof.
  intros Hv Hroles Hg.
  apply validate_ok_inv in Hv. cbv zeta in Hv.
  destruct Hv as [Hok [Hfound Hpassed]].
  apply rule_ok_each in Hok. destruct Hok as [_ [_ [_ [_ [Hr _]]]]].
  destruct (dependencies_rule_ok _ _ Hroles Hr) as [ids [g' [b [Hg' [Hb Hem]]]]].
  assert (g' = g) by congruence. subst g'.
  pose proof (has_cycle_spec g) as Hspec. rewrite Hb in Hspec.
  assert (Hzero : forall {A} (P : ValidationIssue -> Prop) (m : M A),
            emits P m -> ~ P cycle_issue ->
            count_occ issue_eq_dec (emitted m) cycle_issue = 0%nat).
  { intros A P m Hm Hn. apply count_occ_not_In. intros Hin.
    apply Hn. eapply emitted_from; eauto. }
  assert (Hcount : count_occ issue_eq_dec found cycle_issue
                   = if b then 1%nat else 0%nat).
  { rewrite Hfound, !count_occ_app, Hem, count_occ_app.
    rewrite (Hzero _ _ _ (structure_emits _)) by (unfold from_structure; discriminate).
    rewrite (Hzero _ _ _ (roles_emits _))
      by (intros [H|[H _]]; discriminate).
    rewrite (Hzero _ _ _ (workflow_emits _)) by (unfold from_workflow; discriminate).
    rewrite (Hzero _ _ _ (communication_emits _))
      by (unfold from_communication; discriminate).
    rewrite (Hzero _ _ _ (emits_for_ _ _ roles (reports_body_paths ids)))
      by (intros H; now apply H).
    rewrite (Hzero _ _ _ (resources_emits _)) by (unfold from_resources; discriminate).
    rewrite (Hzero _ _ _ (best_practices_emits _))
      by (intros [H|[H _]]; discriminate).
    destruct b; cbn [count_occ]; [|reflexivity].
    destruct (issue_eq_dec cycle_issue cycle_issue); [reflexivity|congruence]. }
  split.
  - intros Hc. apply Hspec in Hc. subst b. split; [assumption|].
    rewrite Hpassed. apply negb_false_iff, existsb_exists.
    exists cycle_issue. split; [|reflexivity].
    apply (count_occ_In issue_eq_dec). lia.
  - intros Hn. destruct b; [|assumption]. exfalso. apply Hn. now apply Hspec.
Qed.

(** C2.  The reporting relation is the map from role id to supervisor id
    that [_validate_dependencies] builds from the roles declaring both.
    When it has a cycle of length at least 2, a returning [validate]
    contains exactly one circular-dependency ERROR; when it has no cycle,
    it contains none, however long the chains are. *)
Theorem cycle_error_iff_cycle (self : TeamValidator) (passed : bool)
    (found : list ValidationIssue) (roles : list value) (g : pydict) :
  fst (validate self) = Ok (passed, found) ->
  field "roles" (config self) = Some (VList roles) ->
  reporting_of roles [] = Ok g ->
  ((exists c, is_cycle g c /\ (2 <= length c)%nat) ->
   count_occ issue_eq_dec found cycle_issue = 1%nat) /\
  (acyclic g -> count_occ issue_eq_dec found cycle_issue = 0%nat).
Proof.
  intros Hv Hroles Hg.
  destruct (cycle_issue_count _ _ _ _ _ Hv Hroles Hg) as [Hyes Hno].
  split.
  - intros [c [Hc _]]. apply Hyes. eapply is_cycle_cyclic; eauto.
  - intros Hn. apply Hno. intros Hc.
    destruct (cyclic_is_cycle g Hc) as [c Hcyc]. exact (Hn c Hcyc).
Qed.

(** C9 (amended).  When a role reports to its own id and no later role
    with the same id declares [reports_to], a returning [validate]
    contains the circular-dependency ERROR and [passed] is false: a
    cycle of length 1 is a cycle for the detector. *)
Theorem self_report_is_cycle (self : TeamValidator) (passed : bool)
    (found : list ValidationIssue) (roles : list value) (i : nat)
    (role rid sup : value) (k : hkey) :
  fst (validate self) = Ok (passed, found) ->
  field "roles" (config self) = Some (VList roles) ->
  nth_error roles i = Some role ->
  field "id" role = Some rid -> field "reports_to" role = Some sup ->
  py_hash rid = Ok k -> py_hash sup = Ok k ->
  (forall j later, (i < j)%nat -> nth_error roles j = Some later ->
                   role_key later = Some k ->
                   field "reports_to" later = None) ->
  In cycle_issue found /\ passed = false.
Proof.
  intros Hv Hroles Hi Hid Hsup Hk Hks Hlater.
  apply validate_ok_inv in Hv as Hinv. cbv zeta in Hinv.
  destruct Hinv as [Hok _].
  apply rule_ok_each in Hok. destruct Hok as [_ [_ [_ [_ [Hr _]]]]].
  destruct (dependencies_rule_ok _ _ Hroles Hr) as [ids [g [b [Hg _]]]].
  destruct (cycle_issue_count _ _ _ _ _ Hv Hroles Hg) as [Hyes _].
  assert (Hlink : reports_link role = Some (k, sup)).
  { unfold reports_link, role_key. now rewrite Hid, Hk, Hsup. }
  assert (Hget : dict_get k g = Some sup).
  { rewrite (reporting_of_ok _ _ _ Hg).
    apply (fold_link_last roles i role k sup [] Hi Hlink).
    intros j later sup' Hij Hj Hl. unfold reports_link in Hl.
    destruct (role_key later) as [k'|] eqn:Hk'; [|discriminate].
    destruct (field "reports_to" later) as [s|] eqn:Hs; [|discriminate].
    inversion Hl; subst.
    rewrite (Hlater j later Hij Hj Hk') in Hs. discriminate. }
  assert (Hc : cyclic g).
  { exists k, 1%nat. split; [lia|]. exists k. split; [|reflexivity].
    unfold succ_of. now rewrite Hget, Hks. }
  destruct (Hyes Hc) as [Hcount Hp]. split; [|assumption].
  apply (count_occ_In issue_eq_dec). lia.
Qed.

(** C10.  When the reporting relation has two (or more) cycles with no
    node in common, a returning [validate] still contains exactly one
    circular-dependency ERROR: the check is one boolean for the whole
    relation. *)
Theorem disjoint_cycles_one_error (self : TeamValidator) (passed : bool)
    (found : list ValidationIssue) (roles : list value) (g : pydict)
    (c1 c2 : list hkey) :
  fst (validate self) = Ok (passed, found) ->
  field "roles" (config self) = Some (VList roles) ->
  reporting_of roles [] = Ok g ->
  is_cycle g c1 -> is_cycle g c2 ->
  (forall x, In x c1 -> ~ In x c2) ->
  count_occ issue_eq_dec found cycle_issue = 1%nat.
Proof.
  intros Hv Hroles Hg H1 _ _.
  destruct (cycle_issue_count _ _ _ _ _ Hv Hroles Hg) as [Hyes _].
  apply Hyes. eapply is_cycle_cyclic; eauto.
Qed.


(** ** Further properties *)

Lemma structure_reports_missing (d : list (string * value)) (k : string) :
  In k required_fields -> lookup k d = None ->
  In (missing_field_issue k) (emitted (_validate_structure (VDict d))).
Proof.
  intros Hk Hl.
  unfold _validate_structure, emitted, bind, lift, ret, when, _add_issue.
  cbn. unfold required_fields in Hk.
  destruct Hk as [<-|[<-|[<-|[]]]]; rewrite Hl; cbn;
    repeat match goal with
    | |- context [match lookup ?x d with _ => _ end] =>
        destruct (lookup x d); cbn
    | |- context [if ?c then _ else _] => destruct c; cbn
    end; unfold missing_field_issue; auto 10.
Qed.

(** A required top-level key ([name], [roles], [workflow]) that the
    document lacks is reported by a returning [validate] as a structural
    ERROR, and [passed] is false. *)
Theorem missing_required_field_reported (self : TeamValidator)
    (passed : bool) (found : list ValidationIssue)
    (d : list (string * value)) (k : string) :
  fst (validate self) = Ok (passed, found) ->
  config self = VDict d ->
  In k required_fields -> lookup k d = None ->
  In (missing_field_issue k) found /\ passed = false.
Proof.
  intros Hv Hcfg Hk Hl.
  apply validate_ok_inv in Hv. cbv zeta in Hv.
  destruct Hv as [_ [Hfound Hpassed]].
  assert (Hin : In (missing_field_issue k) found).
  { rewrite Hfound, Hcfg. apply in_or_app. left.
    now apply structure_reports_missing. }
  split; [assumption|].
  rewrite Hpassed. apply negb_false_iff, existsb_exists. eauto.
Qed.

(** An empty list of roles is reported by a returning [validate] as the
    ERROR "Team must have at least one role", and [passed] is false. *)
Theorem empty_roles_reported (self : TeamValidator)
    (passed : bool) (found : list ValidationIssue) :
  fst (validate self) = Ok (passed, found) ->
  field "roles" (config self) = Some (VList []) ->
  In no_roles_issue found /\ passed = false.
Proof.
  intros Hv Hroles.
  apply validate_ok_inv in Hv. cbv zeta in Hv.
  destruct Hv as [_ [Hfound Hpassed]].
  assert (Hin : In no_roles_issue found).
  { rewrite Hfound. apply in_or_app. right. apply in_or_app. left.
    destruct (config self) as [| | | | |d]; try discriminate.
    cbn [field] in Hroles.
    unfold _validate_roles, emitted, bind, lift, ret, _add_issue.
    cbn. rewrite Hroles. cbn. now left. }
  split; [assumption|].
  rewrite Hpassed. apply negb_false_iff, existsb_exists. eauto.
Qed.



End Claims.

(** * Further properties of the validator *)

(** ** Where the issues of [validate] come from *)

Section Found.
Context {py : PyBuiltins}.

(** an ERROR among the issues fails the validation *)
Lemma error_fails (self : TeamValidator) (passed : bool)
    (found : list ValidationIssue) (x : ValidationIssue) :
  fst (validate self) = Ok (passed, found) ->
  In x found -> level x = ERROR -> passed = false.
Proof.
  intros Hv Hx Hl. apply validate_ok_inv in Hv. cbv zeta in Hv.
  destruct Hv as [_ [_ ->]]. apply negb_false_iff, existsb_exists.
  exists x. split; [assumption|]. unfold is_error. now rewrite Hl.
Qed.

Lemma in_found (self : TeamValidator) (passed : bool)
    (found : list ValidationIssue) (x : ValidationIssue) :
  fst (validate self) = Ok (passed, found) ->
  In x found <->
  In x (emitted (_validate_structure (config self))) \/
  In x (emitted (_validate_roles (config self))) \/
  In x (emitted (_validate_workflow (config self))) \/
  In x (emitted (_validate_communication (config self))) \/
  In x (emitted (_validate_dependencies (config self))) \/
  In x (emitted (_validate_resources (config self))) \/
  In x (emitted (_validate_best_practices (config self))).
Proof.
  intros Hv. apply validate_ok_inv in Hv. cbv zeta in Hv.
  destruct Hv as [_ [-> _]]. rewrite !in_app_iff. tauto.
Qed.

(** the category of an issue tells the rule that added it; an
    [optimization] issue comes from the roles rule when it has a path and
    from the best-practices rule when it has none *)
Ltac by_category Hin :=
  first
    [ apply (emitted_from _ _ _ (structure_emits _)) in Hin;
      unfold from_structure in Hin; congruence
    | apply (emitted_from _ _ _ (roles_emits _)) in Hin;
      destruct Hin as [Hin|[Hin ?]]; congruence
    | apply (emitted_from _ _ _ (workflow_emits _)) in Hin;
      unfold from_workflow in Hin; congruence
    | apply (emitted_from _ _ _ (communication_emits _)) in Hin;
      unfold from_communication in Hin; congruence
    | apply (emitted_from _ _ _ (dependencies_emits _)) in Hin;
      destruct Hin as [Hin ?]; congruence
    | apply (emitted_from _ _ _ (resources_emits _)) in Hin;
      unfold from_resources in Hin; congruence
    | apply (emitted_from _ _ _ (best_practices_emits _)) in Hin;
      destruct Hin as [Hin|[Hin ?]]; congruence ].

Ltac found_in_rule Hv :=
  rewrite (in_found _ _ _ _ Hv);
  split; [|tauto];
  let Hin := fresh "Hin" in
  intros Hin;
  repeat (destruct Hin as [Hin|Hin]; [try assumption; by_category Hin|]);
  try assumption; by_category Hin.

Lemma found_structure (self : TeamValidator) (passed : bool)
    (found : list ValidationIssue) (x : ValidationIssue) :
  fst (validate self) = Ok (passed, found) ->
  category x = "structure"%string ->
  In x found <-> In x (emitted (_validate_structure (config self))).
Proof. intros Hv Hc. found_in_rule Hv. Qed.

Lemma found_roles (self : TeamValidator) (passed : bool)
    (found : list ValidationIssue) (x : ValidationIssue) :
  fst (validate self) = Ok (passed, found) ->
  category x = "roles"%string ->
  In x found <-> In x (emitted (_validate_roles (config self))).
Proof. intros Hv Hc. found_in_rule Hv. Qed.

Lemma found_model_fit (self : TeamValidator) (passed : bool)
    (found : list ValidationIssue) (x : ValidationIssue) :
  fst (validate self) = Ok (passed, found) ->
  category x = "optimization"%string -> path x <> None ->
  In x found <-> In x (emitted (_validate_roles (config self))).
Proof. intros Hv Hc Hp. found_in_rule Hv. Qed.

Lemma found_workflow (self : TeamValidator) (passed : bool)
    (found : list ValidationIssue) (x : ValidationIssue) :
  fst (validate self) = Ok (passed, found) ->
  category x = "workflow"%string ->
  In x found <-> In x (emitted (_validate_workflow (config self))).
Proof. intros Hv Hc. found_in_rule Hv. Qed.

Lemma found_communication (self : TeamValidator) (passed : bool)
    (found : list ValidationIssue) (x : ValidationIssue) :
  fst (validate self) = Ok (passed, found) ->
  category x = "communication"%string ->
  In x found <-> In x (emitted (_validate_communication (config self))).
Proof. intros Hv Hc. found_in_rule Hv. Qed.

Lemma found_dependencies (self : TeamValidator) (passed : bool)
    (found : list ValidationIssue) (x : ValidationIssue) :
  fst (validate self) = Ok (passed, found) ->
  category x = "dependencies"%string ->
  In x found <-> In x (emitted (_validate_dependencies (config self))).
Proof. intros Hv Hc. found_in_rule Hv. Qed.

Lemma found_resources (self : TeamValidator) (passed : bool)
    (found : list ValidationIssue) (x : ValidationIssue) :
  fst (validate self) = Ok (passed, found) ->
  category x = "resources"%string ->
  In x found <-> In x (emitted (_validate_resources (config self))).
Proof. intros Hv Hc. found_in_rule Hv. Qed.

Lemma found_best_practices (self : TeamValidator) (passed : bool)
    (found : list ValidationIssue) (x : ValidationIssue) :
  fst (validate self) = Ok (passed, found) ->
  category x = "best-practices"%string ->
  In x found <-> In x (emitted (_validate_best_practices (config self))).
Proof. intros Hv Hc. found_in_rule Hv. Qed.

Lemma found_parallel_hint (self : TeamValidator) (passed : bool)
    (found : list ValidationIssue) (x : ValidationIssue) :
  fst (validate self) = Ok (passed, found) ->
  category x = "optimization"%string -> path x = None ->
  In x found <-> In x (emitted (_validate_best_practices (config self))).
Proof. intros Hv Hc Hp. found_in_rule Hv. Qed.

(** each rule returned *)
Lemma rules_returned (self : TeamValidator) (passed : bool)
    (found : list ValidationIssue) :
  fst (validate self) = Ok (passed, found) ->
  outcome (_validate_structure (config self)) = Ok tt /\
  outcome (_validate_roles (config self)) = Ok tt /\
  outcome (_validate_workflow (config self)) = Ok tt /\
  outcome (_validate_communication (config self)) = Ok tt /\
  outcome (_validate_dependencies (config self)) = Ok tt /\
  outcome (_validate_resources (config self)) = Ok tt /\
  outcome (_validate_best_practices (config self)) = Ok tt.
Proof.
  intros Hv. apply validate_ok_inv in Hv. cbv zeta in Hv.
  destruct Hv as [Hok _]. now apply rule_ok_each.
Qed.

End Found.

(** ** What holds of every issue *)

Section Invariants.
Context {py : PyBuiltins}.

Ltac emits_all_step :=
  cbv beta;
  lazymatch goal with
  | |- emits _ (bind _ _) => apply emits_bind; [|intros ?]
  | |- emits _ (lift _) => apply emits_lift
  | |- emits _ (ret _) => apply emits_ret
  | |- emits _ (when _ _) => apply emits_when
  | |- emits _ (for_ _ _) => apply emits_for_; intros ?
  | |- emits _ (for_each _ _ _) => apply emits_for_each; intros ? ?
  | |- emits _ (_add_issue _ _ _ _ _) => apply emits_add; reflexivity
  | |- emits _ (add _) => apply emits_add'; reflexivity
  | |- emits _ (if ?b then _ else _) => destruct b
  | |- emits _ (match ?x with _ => _ end) => destruct x
  end.

(** a property that every call of [_add_issue] in the rules satisfies
    holds of every issue the seven rules add *)
Ltac emits_all :=
  unfold run_checks, _validate_structure, _validate_roles, roles_body,
    check_role_id, check_role_model, check_role_responsibilities,
    check_team_size, _validate_workflow, phases_body, check_phase_name,
    check_phase_dependencies, deps_body, phase_duration,
    _validate_communication, channels_body, _validate_dependencies,
    reports_body, _validate_resources, _validate_best_practices;
  repeat emits_all_step.

Lemma run_checks_advice (cfg : value) :
  emits (fun x => has_advice x = true) (run_checks cfg).
Proof. emits_all. Qed.

Lemma run_checks_classified (cfg : value) :
  emits (fun x => well_classified x = true) (run_checks cfg).
Proof. emits_all. Qed.

(** [self.issues] after [validate], and the list [validate] returns *)
Lemma issues_after_validate (self : TeamValidator) :
  issues (snd (validate self)) = emitted (run_checks (config self)) /\
  match fst (validate self) with
  | Ok (_, found) => found = issues (snd (validate self))
  | Raise _ => True
  end.
Proof.
  unfold validate, emitted. cbn [config issues].
  destruct (run_checks (config self) []) as [[u|e] found]; cbn; auto.
Qed.

Lemma one_of_In (l : list string) (s : string) :
  one_of l s = true <-> In s l.
Proof.
  unfold one_of. rewrite existsb_exists. split.
  - intros [y [Hy E]]. apply String.eqb_eq in E. now subst.
  - intros H. exists s. split; [assumption|apply String.eqb_refl].
Qed.

(** Every issue [validate] leaves in [self.issues], whether it returns or
    raises, carries a suggestion that is not the empty string; the list
    it returns is that list. *)
Theorem every_issue_carries_suggestion (self : TeamValidator) :
  Forall (fun x => exists s, suggestion x = Some s /\ s <> ""%string)
    (issues (snd (validate self))) /\
  match fst (validate self) with
  | Ok (_, found) => found = issues (snd (validate self))
  | Raise _ => True
  end.
Proof.
  destruct (issues_after_validate self) as [E Hret]. split; [|exact Hret].
  rewrite E.
  eapply Forall_impl; [|exact (proj2 (run_checks_advice (config self)))].
  intros x Hx. unfold has_advice in Hx.
  destruct (suggestion x) as [[|c s]|]; try discriminate.
  exists (String c s). split; [reflexivity|discriminate].
Qed.

(** Every issue [validate] leaves in [self.issues] has one of the eight
    categories, and an ERROR has one of the four categories [structure],
    [roles], [workflow], [dependencies]: the communication, resources,
    best-practices and optimization findings never fail a validation. *)
Theorem errors_have_failing_categories (self : TeamValidator) :
  Forall (fun x => In (category x) categories /\
                   (level x = ERROR -> In (category x) failing_categories))
    (issues (snd (validate self))) /\
  match fst (validate self) with
  | Ok (_, found) => found = issues (snd (validate self))
  | Raise _ => True
  end.
Proof.
  destruct (issues_after_validate self) as [E Hret]. split; [|exact Hret].
  rewrite E.
  eapply Forall_impl; [|exact (proj2 (run_checks_classified (config self)))].
  intros x Hx. unfold well_classified in Hx.
  apply andb_true_iff in Hx. destruct Hx as [Hc Hf].
  split; [now apply one_of_In|].
  intros Hl. apply one_of_In.
  unfold is_error in Hf. rewrite Hl in Hf. exact Hf.
Qed.

End Invariants.

(** ** The checks on the keys of the document *)

Section Presence.
Context {py : PyBuiltins}.

Lemma in_literals_false (x : value) (l : list string) :
  in_literals x l = false <-> forall s, In s l -> x <> VStr s.
Proof.
  unfold in_literals. induction l as [|s l IH]; cbn [existsb].
  - split; [intros _ s []|reflexivity].
  - rewrite orb_false_iff, IH, eq_str_false. split.
    + intros [H1 H2] t [<-|Ht]; auto.
    + intros H. split; [apply H; now left|]. intros t Ht. apply H. now right.
Qed.

Lemma eq_str_true (s : string) (v : value) :
  eq_str s v = true <-> v = VStr s.
Proof.
  destruct v; cbn; try (split; discriminate).
  rewrite String.eqb_eq. split; intros H; congruence.
Qed.

Lemma acceptable_name_spec (name : value) :
  negb (truthy name) || negb (is_str name) = false <-> acceptable_name name.
Proof.
  unfold acceptable_name. rewrite orb_false_iff, !negb_false_iff. split.
  - intros [Ht Hs]. destruct name as [| | |s| |]; try discriminate.
    exists s. split; [reflexivity|]. cbn in Ht.
    apply negb_true_iff, String.eqb_neq in Ht. exact Ht.
  - intros [s [-> Hs]]. cbn. split; [|reflexivity].
    now apply negb_true_iff, String.eqb_neq.
Qed.

(** *** Structure *)

(** what the structure rule adds on a dict: the errors for the required
    keys that are absent, then the error for the name *)
Lemma structure_emitted (d : list (string * value)) :
  emitted (_validate_structure (VDict d)) =
  flat_map (fun k => match lookup k d with
                     | Some _ => []
                     | None => [missing_field_issue k]
                     end) required_fields
  ++ match lookup "name" d with
     | Some name =>
         if negb (truthy name) || negb (is_str name) then [team_name_issue]
         else []
     | None => []
     end.
Proof.
  unfold _validate_structure, emitted, bind, lift, ret, when, _add_issue,
    required_fields, missing_field_issue, team_name_issue.
  cbn. destruct (lookup "name" d) as [name|]; cbn;
    destruct (lookup "roles" d); cbn; destruct (lookup "workflow" d); cbn;
    try reflexivity;
    destruct (negb (truthy name) || negb (is_str name)); reflexivity.
Qed.

(** The structure rule accepts as team name a string that is not empty
    and nothing else: a returning [validate] on a dict contains the
    team-name ERROR if and only if the key [name] is present with a value
    that is not such a string ([None], a number, a boolean, a list, a
    dict, or the empty string), and [passed] is then false. *)
Theorem team_name_checked (self : TeamValidator) (passed : bool)
    (found : list ValidationIssue) (d : list (string * value)) :
  fst (validate self) = Ok (passed, found) ->
  config self = VDict d ->
  (In team_name_issue found <->
   exists name, lookup "name" d = Some name /\ ~ acceptable_name name) /\
  (In team_name_issue found -> passed = false).
Proof.
  intros Hv Hcfg. split; [|intros Hin; now apply (error_fails _ _ _ _ Hv Hin)].
  rewrite (found_structure _ _ _ _ Hv) by reflexivity.
  rewrite Hcfg, structure_emitted, in_app_iff. split.
  - intros [Hin|Hin].
    + apply in_flat_map in Hin. destruct Hin as [k [_ Hin]].
      destruct (lookup k d); [destruct Hin|].
      destruct Hin as [Hin|[]]. discriminate.
    + destruct (lookup "name" d) as [name|]; [|destruct Hin].
      exists name. split; [reflexivity|].
      rewrite <- acceptable_name_spec.
      destruct (negb (truthy name) || negb (is_str name));
        [discriminate|destruct Hin].
  - intros [name [-> Hbad]]. right.
    rewrite <- acceptable_name_spec in Hbad.
    destruct (negb (truthy name) || negb (is_str name));
      [now left|congruence].
Qed.

(** *** Communication and workflow: a key that is absent *)

Lemma communication_absent_emitted (d : list (string * value)) :
  lookup "communication" d = None ->
  emitted (_validate_communication (VDict d)) = [no_communication_issue].
Proof.
  intros H. unfold _validate_communication, emitted, bind, lift, _add_issue.
  cbn. now rewrite H.
Qed.

(** On a dict without the key [communication], the only communication
    finding of a returning [validate] is the INFO that no protocol is
    defined: no channel is looked at. *)
Theorem communication_absent_noted (self : TeamValidator) (passed : bool)
    (found : list ValidationIssue) (d : list (string * value)) :
  fst (validate self) = Ok (passed, found) ->
  config self = VDict d ->
  lookup "communication" d = None ->
  forall x, category x = "communication"%string ->
            (In x found <-> x = no_communication_issue).
Proof.
  intros Hv Hcfg Hc x Hx.
  rewrite (found_communication _ _ _ _ Hv) by assumption.
  rewrite Hcfg, (communication_absent_emitted _ Hc). cbn.
  split; [intros [H|[]]; auto|auto].
Qed.

Lemma workflow_without_phases_emitted (cfg wf : value) :
  field "workflow" cfg = Some wf -> py_in "phases" wf = Ok false ->
  emitted (_validate_workflow cfg) = [no_phases_issue].
Proof.
  intros Hw Hp. destruct cfg as [| | | | |d]; try discriminate.
  cbn [field] in Hw.
  unfold _validate_workflow, emitted, bind, lift, _add_issue.
  cbn. rewrite Hw. cbn. now rewrite Hp.
Qed.

(** When the [workflow] value has no [phases] (a dict without that key,
    but also a list or a string in which ['phases'] does not occur), the
    only workflow finding of a returning [validate] is the WARNING that
    no phase is defined. *)
Theorem workflow_without_phases_warned (self : TeamValidator)
    (passed : bool) (found : list ValidationIssue) (wf : value) :
  fst (validate self) = Ok (passed, found) ->
  field "workflow" (config self) = Some wf ->
  py_in "phases" wf = Ok false ->
  level no_phases_issue = WARNING /\
  forall x, category x = "workflow"%string ->
            (In x found <-> x = no_phases_issue).
Proof.
  intros Hv Hw Hp. split; [reflexivity|]. intros x Hx.
  rewrite (found_workflow _ _ _ _ Hv) by assumption.
  rewrite (workflow_without_phases_emitted _ _ Hw Hp). cbn.
  split; [intros [H|[]]; auto|auto].
Qed.

(** *** Resources *)

Lemma count_opus_spec (roles : list value) :
  forall n, count_opus roles = Ok n -> n = opus_roles roles.
Proof.
  unfold opus_roles.
  induction roles as [|r roles IH]; intros n H; cbn in H.
  - now inversion H.
  - destruct r as [| | | | |rd]; try discriminate. cbn in H.
    destruct (count_opus roles) as [m|e]; [|discriminate]. cbn in H.
    inversion H; subst n. rewrite (IH m eq_refl).
    cbn [filter]. unfold uses_opus at 2. cbn [field].
    destruct (lookup "model" rd) as [model|]; cbn [eq_str].
    + destruct (eq_str "opus" model); cbn [length]; lia.
    + lia.
Qed.

(** what the resources rule adds on a dict with a [token_budget], when it
    does not raise *)
Lemma resources_emitted (d : list (string * value)) (budget : value) :
  lookup "token_budget" d = Some budget ->
  outcome (_validate_resources (VDict d)) = Ok tt ->
  exists tail,
    emitted (_validate_resources (VDict d)) =
      (if in_literals budget budgets then []
       else [unknown_budget_issue budget]) ++ tail /\
    match lookup "roles" d with
    | Some roles =>
        exists items n,
          py_iter roles = Ok items /\ count_opus items = Ok n /\
          tail = if eq_str "economic" budget && (1 <? n)
                 then [economic_opus_issue n]
                 else if eq_str "premium" budget && (n <? 2)
                 then [premium_issue] else []
    | None => tail = []
    end.
Proof.
  intros Hb.
  unfold _validate_resources, outcome, emitted, bind, lift, ret, when,
    _add_issue, budgets, unknown_budget_issue, economic_opus_issue,
    premium_issue.
  cbn. rewrite Hb. cbn.
  destruct (lookup "roles" d) as [roles|]; cbn.
  - match goal with |- context [negb ?c] => destruct c end; cbn;
      (destruct (py_iter roles) as [items|e]; cbn; [|discriminate]);
      (destruct (count_opus items) as [n|e] eqn:Hn; cbn; [|discriminate]);
      (destruct (py_len roles) as [len|e]; cbn; [|discriminate]);
      intros _;
      (eexists; split;
       [|exists items, n; split; [reflexivity|split; [exact Hn|reflexivity]]]);
      destruct (eq_str "economic" budget && (1 <? n)); cbn; try reflexivity;
      destruct (eq_str "premium" budget && (n <? 2)); reflexivity.
  - intros _. exists []. split; [|reflexivity].
    match goal with |- context [negb ?c] => destruct c end; reflexivity.
Qed.

(** A [token_budget] that is not one of the strings [premium],
    [balanced], [economic] is reported by a returning [validate] as a
    WARNING, and no other value is. *)
Theorem unknown_budget_warned (self : TeamValidator) (passed : bool)
    (found : list ValidationIssue) (d : list (string * value))
    (budget : value) :
  fst (validate self) = Ok (passed, found) ->
  config self = VDict d ->
  lookup "token_budget" d = Some budget ->
  level (unknown_budget_issue budget) = WARNING /\
  (In (unknown_budget_issue budget) found <->
   forall s, In s budgets -> budget <> VStr s).
Proof.
  intros Hv Hcfg Hb. split; [reflexivity|].
  rewrite (found_resources _ _ _ _ Hv) by reflexivity.
  destruct (rules_returned _ _ _ Hv) as [_ [_ [_ [_ [_ [Hr _]]]]]].
  rewrite Hcfg in *.
  destruct (resources_emitted d budget Hb Hr) as [tail [-> Htail]].
  rewrite <- in_literals_false, in_app_iff. split.
  - intros [Hin|Hin].
    + destruct (in_literals budget budgets); [destruct Hin|reflexivity].
    + exfalso. destruct (lookup "roles" d) as [roles|].
      * destruct Htail as [items [n [_ [_ ->]]]].
        destruct (eq_str "economic" budget && (1 <? n)).
        -- destruct Hin as [Hin|[]]. discriminate.
        -- destruct (eq_str "premium" budget && (n <? 2));
             [destruct Hin as [Hin|[]]; discriminate|destruct Hin].
      * subst tail. destruct Hin.
  - intros ->. left. now left.
Qed.

(** With a [token_budget] and a list of roles, the resources rule counts
    the roles whose model is [opus]: a returning [validate] contains the
    economic-budget WARNING if and only if the budget is [economic] and
    more than one role uses [opus], and the premium-budget INFO if and
    only if the budget is [premium] and fewer than two roles do. *)
Theorem budget_checked_against_opus_roles (self : TeamValidator)
    (passed : bool) (found : list ValidationIssue)
    (d : list (string * value)) (budget : value) (roles : list value) :
  fst (validate self) = Ok (passed, found) ->
  config self = VDict d ->
  lookup "token_budget" d = Some budget ->
  lookup "roles" d = Some (VList roles) ->
  (In (economic_opus_issue (opus_roles roles)) found <->
   budget = VStr "economic" /\ 1 < opus_roles roles) /\
  (In premium_issue found <->
   budget = VStr "premium" /\ opus_roles roles < 2).
Proof.
  intros Hv Hcfg Hb Hroles.
  rewrite !(found_resources _ _ _ _ Hv) by reflexivity.
  destruct (rules_returned _ _ _ Hv) as [_ [_ [_ [_ [_ [Hr _]]]]]].
  rewrite Hcfg in *.
  destruct (resources_emitted d budget Hb Hr) as [tail [-> Htail]].
  rewrite Hroles in Htail. destruct Htail as [items [n [Hi [Hn ->]]]].
  cbn in Hi. inversion Hi; subst items.
  apply count_opus_spec in Hn. subst n.
  set (n := opus_roles roles).
  assert (Hfirst : forall x, message x <> message (unknown_budget_issue budget) ->
            ~ In x (if in_literals budget budgets then []
                    else [unknown_budget_issue budget])).
  { intros x Hx Hin. destruct (in_literals budget budgets); [destruct Hin|].
    destruct Hin as [<-|[]]. congruence. }
  assert (H1 : eq_str "economic" budget && (1 <? n) = true
               <-> budget = VStr "economic" /\ 1 < n).
  { rewrite andb_true_iff, eq_str_true, Z.ltb_lt. tauto. }
  assert (H2 : eq_str "premium" budget && (n <? 2) = true
               <-> budget = VStr "premium" /\ n < 2).
  { rewrite andb_true_iff, eq_str_true, Z.ltb_lt. tauto. }
  rewrite <- H1, <- H2, !in_app_iff.
  split; split.
  - intros [Hin|Hin]; [exfalso; revert Hin; apply Hfirst; discriminate|].
    destruct (eq_str "economic" budget && (1 <? n)); [reflexivity|].
    destruct (eq_str "premium" budget && (n <? 2));
      [destruct Hin as [Hin|[]]; discriminate|destruct Hin].
  - intros ->. right. now left.
  - intros [Hin|Hin]; [exfalso; revert Hin; apply Hfirst; discriminate|].
    destruct (eq_str "economic" budget && (1 <? n));
      [destruct Hin as [Hin|[]]; discriminate|].
    destruct (eq_str "premium" budget && (n <? 2));
      [reflexivity|destruct Hin].
  - intros Hc. right.
    destruct (eq_str "economic" budget && (1 <? n)) eqn:E.
    + destruct (proj1 H1 eq_refl) as [E' _]. destruct (proj1 H2 Hc) as [Hp _].
      rewrite E' in Hp. discriminate.
    + rewrite Hc. now left.
Qed.

(** *** Best practices *)

(** what the best-practices rule adds on a dict, when it does not raise:
    a reminder for each of the three keys that is absent, then possibly
    the remark on parallel phases *)
Lemma best_practices_emitted (d : list (string * value)) :
  outcome (_validate_best_practices (VDict d)) = Ok tt ->
  exists tail,
    emitted (_validate_best_practices (VDict d)) =
      key_reminder d "quality_gates" no_gates_issue
      ++ key_reminder d "error_recovery" no_recovery_issue
      ++ key_reminder d "success_metrics" no_metrics_issue
      ++ tail /\
    Forall (fun x => x = no_parallel_issue) tail /\
    forall w phases,
      lookup "workflow" d = Some (VDict w) ->
      lookup "phases" w = Some (VList phases) ->
      tail = parallel_hint phases.
Proof.
  intros H. unfold _validate_best_practices in *.
  apply bind_lift_ok in H. destruct H as [b1 [Hb1 [H ->]]].
  apply bind_ok in H; [|appends_tac]. destruct H as [[] [_ [H ->]]].
  apply bind_lift_ok in H. destruct H as [b2 [Hb2 [H ->]]].
  apply bind_ok in H; [|appends_tac]. destruct H as [[] [_ [H ->]]].
  apply bind_lift_ok in H. destruct H as [b3 [Hb3 [H ->]]].
  apply bind_ok in H; [|appends_tac]. destruct H as [[] [_ [H ->]]].
  cbn in Hb1, Hb2, Hb3. inversion Hb1; inversion Hb2; inversion Hb3.
  subst b1 b2 b3. unfold key_reminder.
  eexists. split; [|split].
  - destruct (lookup "quality_gates" d), (lookup "error_recovery" d),
      (lookup "success_metrics" d); reflexivity.
  - match goal with
    | |- Forall _ (emitted ?m) =>
        assert (Hm : emits (fun x => x = no_parallel_issue) m) by emits_tac
    end.
    exact (proj2 Hm).
  - intros w phases Hw Hp. clear H.
    unfold emitted, bind, lift, ret, _add_issue, parallel_hint,
      no_parallel_issue.
    cbn. rewrite Hw. cbn. rewrite Hp. cbn.
    destruct (existsb (fun phase => str_contains "parallel" (py_str phase))
                phases); cbn; [reflexivity|].
    destruct (3 <? Z.of_nat (length phases)); reflexivity.
Qed.

(** The best-practices rule looks only at the presence of the keys
    [quality_gates], [error_recovery] and [success_metrics], never at
    their values: a returning [validate] on a dict contains the reminder
    of a key if and only if the dict lacks the key. *)
Theorem best_practice_keys_checked (self : TeamValidator) (passed : bool)
    (found : list ValidationIssue) (d : list (string * value)) :
  fst (validate self) = Ok (passed, found) ->
  config self = VDict d ->
  (In no_gates_issue found <-> lookup "quality_gates" d = None) /\
  (In no_recovery_issue found <-> lookup "error_recovery" d = None) /\
  (In no_metrics_issue found <-> lookup "success_metrics" d = None).
Proof.
  intros Hv Hcfg.
  rewrite !(found_best_practices _ _ _ _ Hv) by reflexivity.
  destruct (rules_returned _ _ _ Hv) as [_ [_ [_ [_ [_ [_ Hr]]]]]].
  rewrite Hcfg in *.
  destruct (best_practices_emitted d Hr) as [tail [-> [Htail _]]].
  rewrite Forall_forall in Htail. unfold key_reminder.
  rewrite !in_app_iff.
  destruct (lookup "quality_gates" d), (lookup "error_recovery" d),
    (lookup "success_metrics" d); cbn;
    repeat split; intros H; try discriminate; auto;
    repeat (destruct H as [H|H]; try discriminate; try contradiction);
    apply Htail in H; discriminate.
Qed.

(** The remark on parallel phases is made when the workflow has more
    than three phases and the text [parallel] occurs in the printed form
    of none of them (in a key as well as in a value); a returning
    [validate] contains it in that case only. *)
Theorem parallel_hint_given (self : TeamValidator) (passed : bool)
    (found : list ValidationIssue) (d w : list (string * value))
    (phases : list value) :
  fst (validate self) = Ok (passed, found) ->
  config self = VDict d ->
  lookup "workflow" d = Some (VDict w) ->
  lookup "phases" w = Some (VList phases) ->
  (In no_parallel_issue found <->
   (3 < length phases)%nat /\
   forall phase, In phase phases ->
                 ~ is_substring "parallel" (py_str phase)).
Proof.
  intros Hv Hcfg Hw Hp.
  rewrite (found_parallel_hint _ _ _ _ Hv) by reflexivity.
  destruct (rules_returned _ _ _ Hv) as [_ [_ [_ [_ [_ [_ Hr]]]]]].
  rewrite Hcfg in *.
  destruct (best_practices_emitted d Hr) as [tail [-> [_ Htail]]].
  rewrite (Htail w phases Hw Hp). unfold key_reminder, parallel_hint.
  assert (Hc : negb (existsb (fun phase => str_contains "parallel" (py_str phase))
                       phases)
               && (3 <? Z.of_nat (length phases)) = true
               <-> (3 < length phases)%nat /\
                   forall phase, In phase phases ->
                                 ~ is_substring "parallel" (py_str phase)).
  { rewrite andb_true_iff, negb_true_iff, Z.ltb_lt. split.
    - intros [He Hl]. split; [lia|]. intros phase Hin Hsub.
      apply str_contains_spec in Hsub.
      assert (existsb (fun phase => str_contains "parallel" (py_str phase))
                phases = true); [|congruence].
      apply existsb_exists. eauto.
    - intros [Hl Hnone]. split; [|lia].
      destruct (existsb _ phases) eqn:E; [|reflexivity].
      apply existsb_exists in E. destruct E as [phase [Hin Hsub]].
      apply str_contains_spec in Hsub. exfalso. eapply Hnone; eauto. }
  rewrite <- Hc. rewrite !in_app_iff.
  destruct (lookup "quality_gates" d), (lookup "error_recovery" d),
    (lookup "success_metrics" d);
    destruct (negb _ && _); cbn; split; intros H; try discriminate; auto;
    repeat (destruct H as [H|H]; try discriminate; try contradiction).
Qed.

End Presence.

(** ** The roles rule, block by block *)

Section RoleFindings.
Context {py : PyBuiltins}.

Lemma check_role_id_findings (i : Z) (role : value) (ids ids' : pyset) :
  outcome (check_role_id i role ids) = Ok ids' ->
  emitted (check_role_id i role ids) = id_findings i role ids.
Proof.
  intros H. apply check_role_id_ok in H. unfold id_findings.
  destruct (role_key role); tauto.
Qed.

(** an id block that returns without a key saw a dict without [id] *)
Lemma check_role_id_missing (i : Z) (d : list (string * value))
    (ids ids' : pyset) :
  outcome (check_role_id i (VDict d) ids) = Ok ids' ->
  role_key (VDict d) = None -> lookup "id" d = None.
Proof.
  unfold role_key, check_role_id, outcome, bind, lift, ret, when, add,
    _add_issue, set_contains, bindR.
  cbn. destruct (lookup "id" d) as [rid|]; cbn; [|reflexivity].
  destruct (py_hash rid) as [k|e]; cbn; discriminate.
Qed.

Lemma suggest_valid (role_type : value) (sug : string) :
  _suggest_model role_type = Ok sug -> In sug valid_models.
Proof.
  unfold _suggest_model. destruct role_type; try discriminate.
  destruct (suggest_loop role_models (py_lower s)) as [m|] eqn:E;
    intros H; inversion H; subst.
  - apply suggest_loop_In in E. cbn in E. unfold valid_models. cbn.
    intuition.
  - unfold valid_models. cbn. auto.
Qed.

Lemma check_role_model_findings (i : Z) (d : list (string * value)) :
  outcome (check_role_model i (VDict d)) = Ok tt ->
  emitted (check_role_model i (VDict d)) = model_findings i (VDict d).
Proof.
  intros H. unfold model_findings. cbn [field].
  destruct (lookup "model" d) as [model|] eqn:Hm.
  - unfold check_role_model in *. cbn [py_in] in *. rewrite Hm in *.
    apply bind_lift_ok in H. destruct H as [b [Hb [H ->]]].
    inversion Hb; subst b. cbn [py_getitem] in *. rewrite Hm in *.
    apply bind_lift_ok in H. destruct H as [m [Hb' [H ->]]].
    inversion Hb'; subst m.
    apply bind_ok in H; [|appends_tac]. destruct H as [[] [_ [H ->]]].
    change (py_get (VDict d) "type" (VStr "")) with (Ok (role_type (VDict d)))
      in *.
    apply bind_lift_ok in H. destruct H as [t [Ht [H ->]]].
    inversion Ht; subst t.
    apply bind_lift_ok in H. destruct H as [sug [Hs [H ->]]].
    rewrite Hs. rewrite (suggest_truthy _ _ Hs) in *. cbn [andb] in *.
    f_equal.
    + unfold valid_models.
      destruct (in_literals model ["opus"; "sonnet"; "haiku"]%string);
        reflexivity.
    + destruct (eq_str sug model); cbn [negb] in *; [reflexivity|].
      change (py_get (VDict d) "id" VNone) with (Ok (role_id (VDict d))) in *.
      apply bind_lift_ok in H. destruct H as [rid [Hr [H ->]]].
      inversion Hr; subst rid. apply emitted_add.
  - unfold check_role_model, emitted, bind, lift, ret. cbn. now rewrite Hm.
Qed.

Lemma check_role_responsibilities_findings (i : Z) (role : value) :
  outcome (check_role_responsibilities i role) = Ok tt ->
  is_dict role /\
  emitted (check_role_responsibilities i role)
  = responsibility_findings i role.
Proof.
  unfold check_role_responsibilities, responsibility_findings, outcome,
    emitted, bind, lift, ret, _add_issue, no_responsibilities_issue, role_id,
    is_dict.
  destruct role as [| | |s|l|d]; cbn; try discriminate.
  - destruct (str_contains "responsibilities" s); cbn; discriminate.
  - destruct (existsb (eq_str "responsibilities") l); cbn; discriminate.
  - intros _. split; [eauto|].
    destruct (lookup "responsibilities" d) as [resp|]; cbn; [|reflexivity].
    destruct (truthy resp); reflexivity.
Qed.

Lemma roles_body_findings (i : Z) (role : value) (ids ids' : pyset) :
  outcome (roles_body (i, role) ids) = Ok ids' ->
  readable_role role /\
  emitted (roles_body (i, role) ids) = role_findings i role ids.
Proof.
  intros H. apply roles_body_ok in H. destruct H as [Hid [Hm [Hr ->]]].
  apply check_role_responsibilities_findings in Hr.
  destruct Hr as [[d ->] ->]. split.
  - split; [now exists d|]. split.
    + intros Hk. cbn [field]. eapply check_role_id_missing; eauto.
    + intros Hmodel.
      destruct (field "model" (VDict d)) as [model|] eqn:E; [|congruence].
      destruct (check_role_model_ok _ _ _ E Hm) as [sug [_ [Hs _]]]. eauto.
  - unfold role_findings.
    now rewrite (check_role_id_findings _ _ _ _ Hid),
      (check_role_model_findings _ _ Hm).
Qed.

(** a loop over the roles that returns saw readable roles only, and added
    the findings of the blocks, role after role *)
Lemma roles_loop_findings (roles : list value) :
  forall i ids ids',
  outcome (for_each roles_body (enumerate_from i roles) ids) = Ok ids' ->
  Forall readable_role roles /\
  emitted (for_each roles_body (enumerate_from i roles) ids)
  = roles_findings i roles ids.
Proof.
  induction roles as [|role roles IH]; intros i ids ids' H.
  - split; [constructor|reflexivity].
  - cbn [enumerate_from] in *.
    destruct (for_each_cons roles_body (i, role) (enumerate_from (i + 1) roles)
                ids roles_body_appends) as [Ho He].
    rewrite Ho in H. rewrite He. clear Ho He.
    destruct (outcome (roles_body (i, role) ids)) as [ids1|e] eqn:Hb;
      [|discriminate].
    pose proof (roles_body_step _ _ _ _ Hb) as ->.
    apply roles_body_findings in Hb. destruct Hb as [Hd ->].
    destruct (IH _ _ _ H) as [Hall ->]. split; [constructor; auto|reflexivity].
Qed.

Lemma in_roles_findings (roles : list value) (x : ValidationIssue) :
  forall i ids,
  In x (roles_findings i roles ids) <->
  exists m role,
    nth_error roles m = Some role /\
    In x (role_findings (i + Z.of_nat m) role
            (state_after role_step (firstn m roles) ids)).
Proof.
  induction roles as [|role roles IH]; intros i ids; cbn [roles_findings].
  - split; [intros []|]. intros [[|m] [r [H _]]]; discriminate.
  - rewrite in_app_iff, IH. split.
    + intros [H|[m [r [Hm H]]]].
      * exists 0%nat, role. cbn. rewrite Z.add_0_r. auto.
      * exists (S m), r. cbn [nth_error firstn state_after fold_left].
        replace (i + Z.of_nat (S m)) with (i + 1 + Z.of_nat m) by lia. auto.
    + intros [[|m] [r [Hm H]]].
      * cbn in Hm. inversion Hm; subst r. cbn in H.
        rewrite Z.add_0_r in H. auto.
      * right. exists m, r. cbn [nth_error firstn state_after fold_left] in *.
        replace (i + Z.of_nat (S m)) with (i + 1 + Z.of_nat m) in H by lia.
        auto.
Qed.

(** what the roles rule adds on a list of roles, when it does not
    raise *)
Lemma roles_rule_findings (cfg : value) (roles : list value) :
  field "roles" cfg = Some (VList roles) ->
  outcome (_validate_roles cfg) = Ok tt ->
  Forall readable_role roles /\
  emitted (_validate_roles cfg) =
    match roles with
    | [] => [no_roles_issue]
    | _ =>
        roles_findings 0 roles []
        ++ team_size_findings (Z.of_nat (length roles))
    end.
Proof.
  intros Hf H. destruct roles as [|r0 roles].
  - split; [constructor|].
    destruct cfg as [| | | | |d]; try discriminate. cbn [field] in Hf.
    unfold _validate_roles, emitted, bind, lift, ret, _add_issue.
    cbn. rewrite Hf. reflexivity.
  - destruct (roles_rule_ok _ _ Hf ltac:(discriminate) H) as [ids [Hloop ->]].
    unfold enumerate in *.
    destruct (roles_loop_findings _ _ _ _ Hloop) as [Hall ->].
    split; [assumption|]. f_equal.
    unfold check_team_size, team_size_findings, emitted, ret, _add_issue.
    destruct (15 <? _); [reflexivity|]. destruct (_ <? 3); reflexivity.
Qed.

(** the findings on the roles rule among the issues of [validate] *)
Lemma found_role_findings (self : TeamValidator) (passed : bool)
    (found : list ValidationIssue) (roles : list value) (x : ValidationIssue) :
  fst (validate self) = Ok (passed, found) ->
  field "roles" (config self) = Some (VList roles) ->
  category x = "roles"%string \/
  (category x = "optimization"%string /\ path x <> None) ->
  Forall readable_role roles /\
  (In x found <->
   match roles with
   | [] => x = no_roles_issue
   | _ =>
       (exists m role,
          nth_error roles m = Some role /\
          In x (role_findings (Z.of_nat m) role
                  (state_after role_step (firstn m roles) [])))
       \/ In x (team_size_findings (Z.of_nat (length roles)))
   end).
Proof.
  intros Hv Hf Hx.
  destruct (rules_returned _ _ _ Hv) as [_ [Hr _]].
  destruct (roles_rule_findings _ _ Hf Hr) as [Hall Hem].
  split; [assumption|].
  assert (E : In x found <-> In x (emitted (_validate_roles (config self)))).
  { destruct Hx as [Hx|[Hx Hp]].
    - now apply (found_roles _ _ _ _ Hv).
    - now apply (found_model_fit _ _ _ _ Hv). }
  rewrite E, Hem. destruct roles as [|r0 roles].
  - cbn. split; [intros [H|[]]; auto|auto].
  - rewrite in_app_iff, in_roles_findings. reflexivity.
Qed.

(** the findings on one role, case by case *)
Lemma role_findings_cases (m : Z) (role : value) (seen : pyset)
    (x : ValidationIssue) :
  In x (role_findings m role seen) <->
  (role_key role = None /\ x = missing_id_issue m) \/
  (exists k, role_key role = Some k /\ In k seen /\
             x = duplicate_id_issue m (role_id role)) \/
  (exists model, field "model" role = Some model /\
                 in_literals model valid_models = false /\
                 x = invalid_model_issue m model (role_id_or m role)) \/
  (exists model sug, field "model" role = Some model /\
                     _suggest_model (role_type role) = Ok sug /\
                     eq_str sug model = false /\
                     x = model_fit_issue m (role_id role) model sug
                           (role_type role)) \/
  (lacks_responsibilities role /\
   x = no_responsibilities_issue m (role_id role)).
Proof.
  unfold role_findings, id_findings, model_findings, responsibility_findings,
    lacks_responsibilities.
  rewrite !in_app_iff. split.
  - intros [H|[H|H]].
    + destruct (role_key role) as [k|].
      * destruct (set_mem k seen) eqn:E; [|destruct H].
        destruct H as [<-|[]]. right. left. exists k.
        apply set_mem_In in E. auto.
      * destruct H as [<-|[]]. auto.
    + destruct (field "model" role) as [model|]; [|destruct H].
      apply in_app_or in H. destruct H as [H|H].
      * destruct (in_literals model valid_models) eqn:E; [destruct H|].
        destruct H as [<-|[]]. right. right. left. eauto.
      * destruct (_suggest_model (role_type role)) as [sug|e];
          [|destruct H].
        destruct (eq_str sug model) eqn:E; [destruct H|].
        destruct H as [<-|[]]. right. right. right. left. eauto 7.
    + right. right. right. right.
      destruct (field "responsibilities" role) as [resp|].
      * destruct (truthy resp) eqn:E; [destruct H|].
        destruct H as [<-|[]]. auto.
      * destruct H as [<-|[]]. auto.
  - intros [[Hk ->]|[[k [Hk [Hin ->]]]|[[model [Hm [Hl ->]]]
             |[[model [sug [Hm [Hs [He ->]]]]]|[Hl ->]]]]].
    + left. rewrite Hk. now left.
    + left. rewrite Hk. apply set_mem_In in Hin. rewrite Hin. now left.
    + right. left. rewrite Hm. apply in_or_app. left. rewrite Hl. now left.
    + right. left. rewrite Hm. apply in_or_app. right. rewrite Hs, He.
      now left.
    + right. right. destruct (field "responsibilities" role) as [resp|].
      * rewrite Hl. now left.
      * now left.
Qed.

(** two issues that differ in their level, category, message or path *)
Ltac differ H :=
  solve [ apply (f_equal level) in H; cbn in H; discriminate H
        | apply (f_equal category) in H; cbn in H; discriminate H
        | apply (f_equal message) in H; cbn in H; discriminate H
        | apply (f_equal path) in H; cbn in H; discriminate H ].

Lemma role_path_inj (a b : Z) :
  "roles[" +++ str_of_Z a +++ "]" = "roles[" +++ str_of_Z b +++ "]" -> a = b.
Proof.
  intros H. apply append_inj_l, append_inj_r in H. now apply str_of_Z_inj.
Qed.

Lemma readable_at (roles : list value) (m : nat) (role : value) :
  Forall readable_role roles -> nth_error roles m = Some role ->
  readable_role role.
Proof.
  intros Hall Hm. rewrite Forall_forall in Hall.
  apply Hall. eapply nth_error_In; eauto.
Qed.

(** A role without [id] is reported by a returning [validate] as an
    ERROR that carries its index in the list, and no role that has an
    [id] is; [passed] is then false. *)
Theorem role_without_id_reported (self : TeamValidator) (passed : bool)
    (found : list ValidationIssue) (roles : list value) (i : nat) :
  fst (validate self) = Ok (passed, found) ->
  field "roles" (config self) = Some (VList roles) ->
  (In (missing_id_issue (Z.of_nat i)) found <->
   exists role, nth_error roles i = Some role /\ field "id" role = None) /\
  (In (missing_id_issue (Z.of_nat i)) found -> passed = false).
Proof.
  intros Hv Hf.
  split; [|intros Hin; now apply (error_fails _ _ _ _ Hv Hin)].
  destruct (found_role_findings _ _ _ roles (missing_id_issue (Z.of_nat i))
              Hv Hf (or_introl eq_refl)) as [Hall ->].
  destruct roles as [|r0 rs].
  - split; [intros H; differ H|].
    intros [role [H _]]. destruct i; discriminate.
  - split.
    + intros [[m [role [Hm Hin]]]|Hin].
      * apply role_findings_cases in Hin.
        destruct Hin as [[Hk H]|[[k [_ [_ H]]]|[[model [_ [_ H]]]
                         |[[model [sug [_ [_ [_ H]]]]]|[_ H]]]]];
          try differ H.
        apply (f_equal path) in H. cbn in H. inversion H as [Hp].
        apply append_inj_r, str_of_Z_inj, Nat2Z.inj in Hp. subst m.
        exists role. split; [assumption|].
        now apply (readable_at _ _ _ Hall Hm).
      * unfold team_size_findings in Hin.
        destruct (15 <? _); [destruct Hin as [H|[]]; differ H|].
        destruct (_ <? 3); [destruct Hin as [H|[]]; differ H|destruct Hin].
    + intros [role [Hm Hid]]. left. exists i, role. split; [assumption|].
      apply role_findings_cases. left. split; [|reflexivity].
      unfold role_key. now rewrite Hid.
Qed.

Lemma invalid_model_issue_inj (a b : Z) (m1 m2 r1 r2 : value) :
  invalid_model_issue a m1 r1 = invalid_model_issue b m2 r2 -> a = b.
Proof.
  intros H. apply (f_equal path) in H. unfold invalid_model_issue in H.
  cbn [path] in H. injection H as H.
  apply append_inj_r, append_inj_r in H. exact (str_of_Z_inj a b H).
Qed.

Lemma no_responsibilities_issue_inj (a b : Z) (r1 r2 : value) :
  no_responsibilities_issue a r1 = no_responsibilities_issue b r2 -> a = b.
Proof.
  intros H. apply (f_equal path) in H. unfold no_responsibilities_issue in H.
  cbn [path] in H. injection H as H.
  apply append_inj_r, append_inj_r in H. exact (str_of_Z_inj a b H).
Qed.

Lemma large_team_issue_inj (a b : Z) :
  large_team_issue a = large_team_issue b -> a = b.
Proof.
  intros H. apply (f_equal message) in H. unfold large_team_issue in H.
  cbn [message] in H. apply append_inj_l, append_inj_r in H.
  exact (str_of_Z_inj a b H).
Qed.

Lemma small_team_issue_inj (a b : Z) :
  small_team_issue a = small_team_issue b -> a = b.
Proof.
  intros H. apply (f_equal message) in H. unfold small_team_issue in H.
  cbn [message] in H. apply append_inj_l, append_inj_r in H.
  exact (str_of_Z_inj a b H).
Qed.

(** [_suggest_model] never answers [None]: on a string it returns one of
    the three model names, so the test [if suggested_model and ...] of
    the roles rule never discards a suggestion; on anything else it
    raises [AttributeError]. *)
Theorem suggest_model_always_names_a_model (role_type : value) :
  match _suggest_model role_type with
  | Ok suggested_model =>
      is_str role_type = true /\ In suggested_model valid_models /\
      truthy (VStr suggested_model) = true
  | Raise e => e = AttributeError /\ is_str role_type = false
  end.
Proof.
  destruct (_suggest_model role_type) as [sug|e] eqn:E.
  - split; [|split].
    + destruct role_type; try discriminate. reflexivity.
    + eapply suggest_valid; eauto.
    + eapply suggest_truthy; eauto.
  - destruct role_type; try discriminate; inversion E; auto.
Qed.

(** A role whose [model] is none of [opus], [sonnet], [haiku] is reported
    by a returning [validate] as an ERROR (naming the role by its id, or
    by its index when it has none), and no other model is.  Such a role
    also gets the model-fit INFO, since the suggested model is always one
    of the three. *)
Theorem invalid_model_reported (self : TeamValidator) (passed : bool)
    (found : list ValidationIssue) (roles : list value) (i : nat)
    (role model : value) :
  fst (validate self) = Ok (passed, found) ->
  field "roles" (config self) = Some (VList roles) ->
  nth_error roles i = Some role ->
  field "model" role = Some model ->
  (In (invalid_model_issue (Z.of_nat i) model (role_id_or (Z.of_nat i) role))
      found <->
   forall s, In s valid_models -> model <> VStr s) /\
  ((forall s, In s valid_models -> model <> VStr s) ->
   passed = false /\
   exists sug,
     _suggest_model (role_type role) = Ok sug /\
     In (model_fit_issue (Z.of_nat i) (role_id role) model sug (role_type role))
        found).
Proof.
  intros Hv Hf Hi Hmodel.
  set (x := invalid_model_issue (Z.of_nat i) model
              (role_id_or (Z.of_nat i) role)).
  destruct (found_role_findings _ _ _ roles x Hv Hf (or_introl eq_refl))
    as [Hall E].
  assert (Hne : roles <> []) by (intros ->; destruct i; discriminate).
  assert (Hiff : In x found <-> forall s, In s valid_models -> model <> VStr s).
  { rewrite E, <- in_literals_false. destruct roles as [|r0 rs]; [congruence|].
    split.
    - intros [[m [role' [Hm Hin]]]|Hin].
      + apply role_findings_cases in Hin.
        destruct Hin as [[Hk H]|[[k [_ [_ H]]]|[[model' [Hm' [Hl H]]]
                         |[[model' [sug [_ [_ [_ H]]]]]|[_ H]]]]];
          try differ H.
        apply invalid_model_issue_inj, Nat2Z.inj in H. subst m.
        assert (role' = role) by congruence. subst role'.
        assert (model' = model) by congruence. now subst model'.
      + unfold team_size_findings in Hin.
        destruct (15 <? _); [destruct Hin as [H|[]]; differ H|].
        destruct (_ <? 3); [destruct Hin as [H|[]]; differ H|destruct Hin].
    - intros Hl. left. exists i, role. split; [assumption|].
      apply role_findings_cases. right. right. left. exists model. auto. }
  split; [exact Hiff|]. intros Hbad. split.
  - apply (error_fails _ _ _ x Hv); [now apply Hiff|reflexivity].
  - destruct (readable_at _ _ _ Hall Hi) as [_ [_ Hsug]].
    destruct Hsug as [sug Hs]; [congruence|].
    exists sug. split; [assumption|].
    set (y := model_fit_issue (Z.of_nat i) (role_id role) model sug
                (role_type role)).
    assert (Hy : category y = "optimization"%string /\ path y <> None)
      by (split; [reflexivity|discriminate]).
    destruct (found_role_findings _ _ _ roles y Hv Hf (or_intror Hy))
      as [_ Ey].
    apply Ey. destruct roles as [|r0 rs]; [congruence|].
    left. exists i, role. split; [assumption|].
    apply role_findings_cases. right. right. right. left.
    exists model, sug. repeat split; auto.
    apply eq_str_false. apply Hbad. eapply suggest_valid; eauto.
Qed.

(** A role that has no [responsibilities], or whose [responsibilities]
    are empty (or any other false value), gets a WARNING from a returning
    [validate], and no other role does. *)
Theorem missing_responsibilities_warned (self : TeamValidator)
    (passed : bool) (found : list ValidationIssue) (roles : list value)
    (i : nat) (role : value) :
  fst (validate self) = Ok (passed, found) ->
  field "roles" (config self) = Some (VList roles) ->
  nth_error roles i = Some role ->
  level (no_responsibilities_issue (Z.of_nat i) (role_id role)) = WARNING /\
  (In (no_responsibilities_issue (Z.of_nat i) (role_id role)) found <->
   lacks_responsibilities role).
Proof.
  intros Hv Hf Hi. split; [reflexivity|].
  destruct (found_role_findings _ _ _ roles
              (no_responsibilities_issue (Z.of_nat i) (role_id role))
              Hv Hf (or_introl eq_refl)) as [Hall ->].
  destruct roles as [|r0 rs]; [destruct i; discriminate|].
  split.
  - intros [[m [role' [Hm Hin]]]|Hin].
    + apply role_findings_cases in Hin.
      destruct Hin as [[Hk H]|[[k [_ [_ H]]]|[[model' [Hm' [Hl H]]]
                       |[[model' [sug [_ [_ [_ H]]]]]|[Hl H]]]]];
        try differ H.
      apply no_responsibilities_issue_inj, Nat2Z.inj in H. subst m.
      congruence.
    + unfold team_size_findings in Hin.
      destruct (15 <? _); [destruct Hin as [H|[]]; differ H|].
      destruct (_ <? 3); [destruct Hin as [H|[]]; differ H|destruct Hin].
  - intros Hl. left. exists i, role. split; [assumption|].
    apply role_findings_cases. right. right. right. right. auto.
Qed.

(** After the loop over a list of roles, a returning [validate] remarks
    on the size of the team: a WARNING when there are more than 15
    roles, an INFO when there are one or two, and nothing from 3 to 15;
    the remark carries the number of roles. *)
Theorem team_size_remarked (self : TeamValidator) (passed : bool)
    (found : list ValidationIssue) (roles : list value) (n : Z) :
  fst (validate self) = Ok (passed, found) ->
  field "roles" (config self) = Some (VList roles) ->
  (In (large_team_issue n) found <->
   n = Z.of_nat (length roles) /\ 15 < n) /\
  (In (small_team_issue n) found <->
   n = Z.of_nat (length roles) /\ 0 < n < 3).
Proof.
  intros Hv Hf.
  destruct (found_role_findings _ _ _ roles (large_team_issue n)
              Hv Hf (or_introl eq_refl)) as [_ ->].
  destruct (found_role_findings _ _ _ roles (small_team_issue n)
              Hv Hf (or_introl eq_refl)) as [_ ->].
  destruct roles as [|r0 rs].
  - split; (split; [intros H; differ H|cbn; lia]).
  - set (len := Z.of_nat (length (r0 :: rs))).
    assert (Hlen : 0 < len) by (unfold len; cbn [length]; lia).
    unfold team_size_findings.
    split; split.
    + intros [[m [role' [Hm Hin]]]|Hin].
      * apply role_findings_cases in Hin.
        destruct Hin as [[Hk H]|[[k [_ [_ H]]]|[[model' [Hm' [Hl H]]]
                         |[[model' [sug [_ [_ [_ H]]]]]|[Hl H]]]]];
          differ H.
      * destruct (15 <? len) eqn:E.
        -- destruct Hin as [H|[]]. apply large_team_issue_inj in H.
           apply Z.ltb_lt in E. lia.
        -- destruct (len <? 3); [destruct Hin as [H|[]]; differ H
                                |destruct Hin].
    + intros [-> H]. right. apply Z.ltb_lt in H. rewrite H. now left.
    + intros [[m [role' [Hm Hin]]]|Hin].
      * apply role_findings_cases in Hin.
        destruct Hin as [[Hk H]|[[k [_ [_ H]]]|[[model' [Hm' [Hl H]]]
                         |[[model' [sug [_ [_ [_ H]]]]]|[Hl H]]]]];
          differ H.
      * destruct (15 <? len) eqn:E; [destruct Hin as [H|[]]; differ H|].
        destruct (len <? 3) eqn:E3; [|destruct Hin].
        destruct Hin as [H|[]]. apply small_team_issue_inj in H.
        apply Z.ltb_lt in E3. lia.
    + intros [-> [_ H]]. right.
      assert (E : (15 <? len) = false) by (apply Z.ltb_ge; lia).
      rewrite E. apply Z.ltb_lt in H. rewrite H. now left.
Qed.

End RoleFindings.

(** ** The workflow rule, block by block *)

Section PhaseFindings.
Context {py : PyBuiltins}.

(** two issues that differ in their level, category, message or path *)
Ltac differ H :=
  solve [ apply (f_equal level) in H; cbn in H; discriminate H
        | apply (f_equal category) in H; cbn in H; discriminate H
        | apply (f_equal message) in H; cbn in H; discriminate H
        | apply (f_equal path) in H; cbn in H; discriminate H ].

Lemma check_phase_name_findings (i : Z) (phase : value) (names names' : pyset) :
  outcome (check_phase_name i phase names) = Ok names' ->
  readable_phase phase /\
  emitted (check_phase_name i phase names) = name_findings i phase names.
Proof.
  unfold readable_phase, name_findings, phase_key, phase_name,
    check_phase_name, outcome, emitted, bind, lift, ret, when, _add_issue,
    set_contains, bindR, missing_phase_name_issue, duplicate_phase_issue.
  destruct phase as [| | | s | l | d]; cbn; try discriminate.
  - destruct (str_contains "name" s); cbn; [discriminate|]. auto.
  - destruct (existsb (eq_str "name") l); cbn; [discriminate|]. auto.
  - destruct (lookup "name" d) as [name|]; cbn; [|auto].
    destruct (py_hash name) as [k|e]; cbn; [|discriminate].
    destruct (set_mem k names); cbn; intros _; split; auto; discriminate.
Qed.

Lemma deps_body_findings (i : Z) (d : list (string * value)) (names : pyset)
    (dep : value) :
  outcome (deps_body i (VDict d) names dep) = Ok tt ->
  emitted (deps_body i (VDict d) names dep)
  = dependency_finding i (VDict d) names dep.
Proof.
  unfold deps_body, dependency_finding, phase_name, outcome, emitted, bind,
    lift, ret, add, _add_issue, set_contains, bindR,
    undefined_dependency_issue.
  cbn. destruct (py_hash dep) as [k|e]; cbn; [|discriminate].
  destruct (set_mem k names); cbn; reflexivity.
Qed.

Lemma deps_loop_findings (i : Z) (d : list (string * value)) (names : pyset)
    (items : list value) :
  outcome (for_ (deps_body i (VDict d) names) items) = Ok tt ->
  emitted (for_ (deps_body i (VDict d) names) items)
  = flat_map (dependency_finding i (VDict d) names) items.
Proof.
  induction items as [|dep items IH]; intros H; [reflexivity|].
  destruct (for_cons (deps_body i (VDict d) names) dep items
              ltac:(appends_tac)) as [Ho He].
  rewrite Ho in H. rewrite He. clear Ho He.
  destruct (outcome (deps_body i (VDict d) names dep)) as [[]|e] eqn:Hb;
    [|discriminate].
  rewrite (deps_body_findings _ _ _ _ Hb), (IH H). reflexivity.
Qed.

Lemma check_phase_dependencies_findings (i : Z) (phase : value)
    (names : pyset) :
  outcome (check_phase_dependencies i phase names) = Ok tt ->
  emitted (check_phase_dependencies i phase names)
  = dependency_findings i phase names.
Proof.
  intros H. unfold dependency_findings.
  destruct phase as [| | | s | l | d]; cbn [field];
    try (unfold check_phase_dependencies, outcome, bind, lift in H;
         cbn in H; discriminate).
  - unfold check_phase_dependencies, outcome, emitted, bind, lift, ret in *.
    cbn in *. destruct (str_contains "dependencies" s); cbn in *;
      [discriminate|reflexivity].
  - unfold check_phase_dependencies, outcome, emitted, bind, lift, ret in *.
    cbn in *. destruct (existsb (eq_str "dependencies") l); cbn in *;
      [discriminate|reflexivity].
  - destruct (lookup "dependencies" d) as [deps|] eqn:Hd.
    + unfold check_phase_dependencies in *. cbn [py_in py_getitem] in *.
      rewrite Hd in *.
      apply bind_lift_ok in H. destruct H as [b [Hb [H ->]]].
      inversion Hb; subst b.
      apply bind_lift_ok in H. destruct H as [d' [Hd' [H ->]]].
      inversion Hd'; subst d'.
      apply bind_lift_ok in H. destruct H as [items [Hi [H ->]]].
      rewrite Hi. now apply deps_loop_findings.
    + unfold check_phase_dependencies, emitted, bind, lift, ret.
      cbn. now rewrite Hd.
Qed.

Lemma phases_body_findings (i : Z) (phase : value) (st st' : pyset * Z) :
  outcome (phases_body (i, phase) st) = Ok st' ->
  readable_phase phase /\
  fst st' = name_step phase (fst st) /\
  emitted (phases_body (i, phase) st) = phase_findings i phase (fst st).
Proof.
  intros H. unfold phases_body in H. destruct st as [names total].
  apply bind_ok in H; [|appends_tac]. destruct H as [names1 [H1 [H E1]]].
  pose proof (check_phase_name_ok _ _ _ _ H1) as ->.
  apply check_phase_name_findings in H1. destruct H1 as [Hr Hn].
  apply bind_ok in H; [|appends_tac]. destruct H as [[] [H2 [H E2]]].
  apply check_phase_dependencies_findings in H2.
  apply bind_ok in H; [|appends_tac]. destruct H as [total1 [H3 [H E3]]].
  rewrite outcome_ret in H. inversion H; subst st'.
  split; [assumption|]. split; [reflexivity|].
  unfold phases_body. rewrite E1, E2, E3, emitted_ret, List.app_nil_r.
  assert (Hd : emitted (phase_duration phase total) = []).
  { unfold phase_duration, emitted, bind, lift, ret.
    destruct (py_in "duration" phase) as [[|]|]; cbn; try reflexivity.
    destruct (py_getitem phase "duration"); reflexivity. }
  rewrite Hd, List.app_nil_r, Hn, H2. reflexivity.
Qed.

Lemma phases_loop_findings (phases : list value) :
  forall i st st',
  outcome (for_each phases_body (enumerate_from i phases) st) = Ok st' ->
  Forall readable_phase phases /\
  emitted (for_each phases_body (enumerate_from i phases) st)
  = phases_findings i phases (fst st).
Proof.
  induction phases as [|phase phases IH]; intros i st st' H.
  - split; [constructor|reflexivity].
  - cbn [enumerate_from] in *.
    destruct (for_each_cons phases_body (i, phase)
                (enumerate_from (i + 1) phases) st phases_body_appends)
      as [Ho He].
    rewrite Ho in H. rewrite He. clear Ho He.
    destruct (outcome (phases_body (i, phase) st)) as [st1|e] eqn:Hb;
      [|discriminate].
    apply phases_body_findings in Hb. destruct Hb as [Hr [Hst ->]].
    destruct (IH _ _ _ H) as [Hall ->]. rewrite Hst.
    split; [constructor; auto|reflexivity].
Qed.

Lemma in_phases_findings (phases : list value) (x : ValidationIssue) :
  forall i names,
  In x (phases_findings i phases names) <->
  exists m phase,
    nth_error phases m = Some phase /\
    In x (phase_findings (i + Z.of_nat m) phase
            (state_after name_step (firstn m phases) names)).
Proof.
  induction phases as [|phase phases IH]; intros i names;
    cbn [phases_findings].
  - split; [intros []|]. intros [[|m] [r [H _]]]; discriminate.
  - rewrite in_app_iff, IH. split.
    + intros [H|[m [r [Hm H]]]].
      * exists 0%nat, phase. cbn. rewrite Z.add_0_r. auto.
      * exists (S m), r. cbn [nth_error firstn state_after fold_left].
        replace (i + Z.of_nat (S m)) with (i + 1 + Z.of_nat m) by lia. auto.
    + intros [[|m] [r [Hm H]]].
      * cbn in Hm. inversion Hm; subst r. cbn in H.
        rewrite Z.add_0_r in H. auto.
      * right. exists m, r. cbn [nth_error firstn state_after fold_left] in *.
        replace (i + Z.of_nat (S m)) with (i + 1 + Z.of_nat m) in H by lia.
        auto.
Qed.

(** the names recorded by a run of phases *)
Lemma names_recorded (phases : list value) (k : hkey) :
  forall names,
  In k (state_after name_step phases names) <->
  In k names \/ exists j, named_at phases j k.
Proof.
  induction phases as [|p phases IH]; intros names.
  - cbn. split; [auto|]. intros [H|[[|j] [r [H _]]]]; auto; discriminate.
  - change (state_after name_step (p :: phases) names)
      with (state_after name_step phases (name_step p names)).
    rewrite IH, name_step_In. split.
    + intros [[H|H]|[j [r [Hj Hk]]]].
      * right. exists 0%nat, p. auto.
      * now left.
      * right. exists (S j), r. auto.
    + intros [H|[[|j] [r [Hj Hk]]]].
      * left. now right.
      * cbn in Hj. inversion Hj; subst r. left. now left.
      * right. exists j, r. auto.
Qed.

Lemma named_at_firstn (phases : list value) (m j : nat) (k : hkey) :
  named_at (firstn m phases) j k <-> (j < m)%nat /\ named_at phases j k.
Proof.
  unfold named_at. rewrite nth_error_firstn.
  destruct (Nat.ltb_spec j m) as [Hlt|Hge].
  - split; [intros H; split; assumption|tauto].
  - split; [intros [r [H _]]; discriminate|intros [H _]; lia].
Qed.

Lemma names_before_In (phases : list value) (m : nat) (k : hkey) :
  In k (names_before phases m) <->
  exists j, (j < m)%nat /\ named_at phases j k.
Proof.
  unfold names_before. rewrite names_recorded. split.
  - intros [[]|[j H]]. apply named_at_firstn in H. eauto.
  - intros [j H]. right. exists j. now apply named_at_firstn.
Qed.

(** the names the dependency block of the phase at position [m] sees *)
Lemma names_at_In (phases : list value) (m : nat) (phase : value) (k : hkey) :
  nth_error phases m = Some phase ->
  In k (name_step phase (names_before phases m)) <-> declared_by phases m k.
Proof.
  intros Hm. rewrite name_step_In, names_before_In. unfold declared_by. split.
  - intros [H|[j [Hj H]]].
    + exists m. split; [lia|]. exists phase. auto.
    + exists j. split; [lia|assumption].
  - intros [j [Hj H]]. destruct (Nat.eq_dec j m) as [->|Hne].
    + left. destruct H as [r [Hr Hk]]. congruence.
    + right. exists j. split; [lia|assumption].
Qed.

(** the findings of the workflow rule among the issues of [validate] *)
Lemma found_phase_findings (self : TeamValidator) (passed : bool)
    (found : list ValidationIssue) (wf : value) (phases : list value)
    (x : ValidationIssue) :
  fst (validate self) = Ok (passed, found) ->
  field "workflow" (config self) = Some wf ->
  field "phases" wf = Some (VList phases) ->
  category x = "workflow"%string ->
  Forall readable_phase phases /\
  (In x found <->
   (exists m phase,
      nth_error phases m = Some phase /\
      In x (phase_findings (Z.of_nat m) phase (names_before phases m)))
   \/ (0 < sum_percentages phases /\ sum_percentages phases <> 100 /\
       x = duration_issue (sum_percentages phases))).
Proof.
  intros Hv Hw Hp Hx.
  destruct (rules_returned _ _ _ Hv) as [_ [_ [Hr _]]].
  destruct (workflow_rule_ok _ _ _ Hw Hp Hr) as [st [Hloop Hem]].
  unfold enumerate in *.
  destruct (phases_loop_findings _ _ _ _ Hloop) as [Hall Hl].
  split; [assumption|].
  rewrite (found_workflow _ _ _ _ Hv) by assumption.
  rewrite Hem, Hl, in_app_iff, in_phases_findings. cbn [fst].
  apply or_iff_compat_l.
  destruct ((0 <? sum_percentages phases)
            && negb (sum_percentages phases =? 100)) eqn:E.
  - apply andb_true_iff in E. destruct E as [E1 E2].
    apply Z.ltb_lt in E1. apply negb_true_iff, Z.eqb_neq in E2.
    cbn. split; [intros [H|[]]; auto|intros [_ [_ ->]]; auto].
  - split; [intros []|]. intros [H1 [H2 _]].
    apply Z.ltb_lt in H1. apply Z.eqb_neq in H2.
    rewrite H1, H2 in E. discriminate.
Qed.

(** the findings on one phase, case by case *)
Lemma phase_findings_cases (m : Z) (phase : value) (seen : pyset)
    (x : ValidationIssue) :
  In x (phase_findings m phase seen) <->
  (phase_key phase = None /\ x = missing_phase_name_issue m) \/
  (exists k, phase_key phase = Some k /\ In k seen /\
             x = duplicate_phase_issue m (phase_name phase)) \/
  (exists deps items dep k,
     field "dependencies" phase = Some deps /\ py_iter deps = Ok items /\
     In dep items /\ py_hash dep = Ok k /\
     ~ In k (name_step phase seen) /\
     x = undefined_dependency_issue m (phase_name phase) dep).
Proof.
  unfold phase_findings, name_findings, dependency_findings.
  rewrite in_app_iff. split.
  - intros [H|H].
    + destruct (phase_key phase) as [k|].
      * destruct (set_mem k seen) eqn:E; [|destruct H].
        destruct H as [<-|[]]. right. left. exists k.
        apply set_mem_In in E. auto.
      * destruct H as [<-|[]]. auto.
    + right. right.
      destruct (field "dependencies" phase) as [deps|] eqn:Hd; [|destruct H].
      destruct (py_iter deps) as [items|e] eqn:Hi; [|destruct H].
      apply in_flat_map in H. destruct H as [dep [Hin H]].
      unfold dependency_finding in H.
      destruct (py_hash dep) as [k|e] eqn:Hk; [|destruct H].
      destruct (set_mem k (name_step phase seen)) eqn:E; [destruct H|].
      destruct H as [<-|[]]. apply set_mem_notIn in E.
      exists deps, items, dep, k. repeat split; auto.
  - intros [[Hk ->]|[[k [Hk [Hin ->]]]
             |[deps [items [dep [k [Hd [Hi [Hin [Hk [Hn ->]]]]]]]]]]].
    + left. rewrite Hk. now left.
    + left. rewrite Hk. apply set_mem_In in Hin. rewrite Hin. now left.
    + right. rewrite Hd, Hi. apply in_flat_map. exists dep.
      split; [assumption|]. unfold dependency_finding. rewrite Hk.
      apply set_mem_notIn in Hn. rewrite Hn. now left.
Qed.

Lemma phase_path_inj (a b : Z) (s : string) :
  ("workflow.phases[" +++ str_of_Z a +++ "]") +++ s
  = ("workflow.phases[" +++ str_of_Z b +++ "]") +++ s -> a = b.
Proof.
  intros H. apply append_inj_r, append_inj_l, append_inj_r in H.
  now apply str_of_Z_inj.
Qed.

Lemma readable_phase_at (phases : list value) (m : nat) (phase : value) :
  Forall readable_phase phases -> nth_error phases m = Some phase ->
  readable_phase phase.
Proof.
  intros Hall Hm. rewrite Forall_forall in Hall.
  apply Hall. eapply nth_error_In; eauto.
Qed.

Lemma missing_phase_name_issue_inj (a b : Z) :
  missing_phase_name_issue a = missing_phase_name_issue b -> a = b.
Proof.
  intros H. apply (f_equal path) in H. unfold missing_phase_name_issue in H.
  cbn [path] in H. injection H as H.
  apply append_inj_r in H. exact (str_of_Z_inj a b H).
Qed.

Lemma duplicate_phase_issue_inj (a b : Z) (n1 n2 : value) :
  duplicate_phase_issue a n1 = duplicate_phase_issue b n2 -> a = b.
Proof.
  intros H. apply (f_equal path) in H. unfold duplicate_phase_issue in H.
  cbn [path] in H. injection H as H.
  apply append_inj_r, append_inj_r in H. exact (str_of_Z_inj a b H).
Qed.

Lemma undefined_dependency_issue_inj (a b : Z) (n1 n2 d1 d2 : value) :
  undefined_dependency_issue a n1 d1 = undefined_dependency_issue b n2 d2 ->
  a = b.
Proof.
  intros H. apply (f_equal path) in H. unfold undefined_dependency_issue in H.
  cbn [path] in H. injection H as H.
  apply append_inj_r, append_inj_r in H. exact (str_of_Z_inj a b H).
Qed.

(** A phase without [name] is reported by a returning [validate] as an
    ERROR that carries its index, and no phase that has a [name] is;
    [passed] is then false. *)
Theorem phase_without_name_reported (self : TeamValidator) (passed : bool)
    (found : list ValidationIssue) (wf : value) (phases : list value)
    (i : nat) :
  fst (validate self) = Ok (passed, found) ->
  field "workflow" (config self) = Some wf ->
  field "phases" wf = Some (VList phases) ->
  (In (missing_phase_name_issue (Z.of_nat i)) found <->
   exists phase, nth_error phases i = Some phase /\
                 field "name" phase = None) /\
  (In (missing_phase_name_issue (Z.of_nat i)) found -> passed = false).
Proof.
  intros Hv Hw Hp.
  split; [|intros Hin; now apply (error_fails _ _ _ _ Hv Hin)].
  set (x := missing_phase_name_issue (Z.of_nat i)).
  destruct (found_phase_findings _ _ _ _ _ x Hv Hw Hp eq_refl) as [Hall E].
  rewrite E. split.
  - intros [[m [phase [Hm Hin]]]|[_ [_ H]]]; [|differ H].
    apply phase_findings_cases in Hin.
    destruct Hin as [[Hk H]|[[k [_ [_ H]]]
                     |[deps [items [dep [k [_ [_ [_ [_ [_ H]]]]]]]]]]];
      try differ H.
    apply missing_phase_name_issue_inj, Nat2Z.inj in H. subst m.
    exists phase. split; [assumption|].
    now apply (readable_phase_at _ _ _ Hall Hm).
  - intros [phase [Hm Hname]]. left. exists i, phase. split; [assumption|].
    apply phase_findings_cases. left. split; [|reflexivity].
    unfold phase_key. now rewrite Hname.
Qed.

(** A phase whose name is also the name of an earlier phase is reported
    by a returning [validate] as a duplicate, at its own position, and a
    phase whose name is new is not; [passed] is then false. *)
Theorem duplicate_phase_name_reported (self : TeamValidator)
    (passed : bool) (found : list ValidationIssue) (wf : value)
    (phases : list value) (j : nat) (phase : value) (k : hkey) :
  fst (validate self) = Ok (passed, found) ->
  field "workflow" (config self) = Some wf ->
  field "phases" wf = Some (VList phases) ->
  nth_error phases j = Some phase ->
  phase_key phase = Some k ->
  (In (duplicate_phase_issue (Z.of_nat j) (phase_name phase)) found <->
   exists i, (i < j)%nat /\ named_at phases i k) /\
  (In (duplicate_phase_issue (Z.of_nat j) (phase_name phase)) found ->
   passed = false).
Proof.
  intros Hv Hw Hp Hj Hk.
  split; [|intros Hin; now apply (error_fails _ _ _ _ Hv Hin)].
  set (x := duplicate_phase_issue (Z.of_nat j) (phase_name phase)).
  destruct (found_phase_findings _ _ _ _ _ x Hv Hw Hp eq_refl) as [_ E].
  rewrite E, <- names_before_In. split.
  - intros [[m [phase' [Hm Hin]]]|[_ [_ H]]]; [|differ H].
    apply phase_findings_cases in Hin.
    destruct Hin as [[_ H]|[[k' [Hk' [Hseen H]]]
                     |[deps [items [dep [k' [_ [_ [_ [_ [_ H]]]]]]]]]]];
      try differ H.
    apply duplicate_phase_issue_inj, Nat2Z.inj in H. subst m.
    assert (phase' = phase) by congruence. subst phase'.
    assert (k' = k) by congruence. now subst k'.
  - intros Hseen. left. exists j, phase. split; [assumption|].
    apply phase_findings_cases. right. left. exists k. auto.
Qed.

(** A returning [validate] contains the undefined-dependency ERROR of a
    phase exactly for the entries of its [dependencies] that name no
    phase declared so far, the phase itself included: an entry that names
    an earlier phase or the phase itself is never reported, and one that
    names only a later phase always is. *)
Theorem undefined_dependency_error_exact (self : TeamValidator)
    (passed : bool) (found : list ValidationIssue) (wf : value)
    (phases : list value) (i : nat) (name dep : value) :
  fst (validate self) = Ok (passed, found) ->
  field "workflow" (config self) = Some wf ->
  field "phases" wf = Some (VList phases) ->
  In (undefined_dependency_issue (Z.of_nat i) name dep) found <->
  exists phase deps items dep' k,
    nth_error phases i = Some phase /\
    field "dependencies" phase = Some deps /\
    py_iter deps = Ok items /\ In dep' items /\ py_hash dep' = Ok k /\
    ~ declared_by phases i k /\
    undefined_dependency_issue (Z.of_nat i) (phase_name phase) dep'
    = undefined_dependency_issue (Z.of_nat i) name dep.
Proof.
  intros Hv Hw Hp.
  set (x := undefined_dependency_issue (Z.of_nat i) name dep).
  destruct (found_phase_findings _ _ _ _ _ x Hv Hw Hp eq_refl) as [_ E].
  rewrite E. split.
  - intros [[m [phase [Hm Hin]]]|[_ [_ H]]]; [|differ H].
    apply phase_findings_cases in Hin.
    destruct Hin as [[_ H]|[[k' [_ [_ H]]]
                     |[deps [items [dep' [k [Hd [Hi [Hin [Hk [Hn H]]]]]]]]]]];
      try differ H.
    pose proof (undefined_dependency_issue_inj _ _ _ _ _ _ H) as Hmi.
    apply Nat2Z.inj in Hmi. subst m.
    exists phase, deps, items, dep', k. repeat split; auto.
    intros Hdecl. apply Hn. now apply names_at_In.
  - intros [phase [deps [items [dep' [k [Hm [Hd [Hi [Hin [Hk [Hn H]]]]]]]]]]].
    left. exists i, phase. split; [assumption|].
    apply phase_findings_cases. right. right.
    exists deps, items, dep', k. repeat split; auto.
    intros Hseen. apply Hn. now apply (names_at_In phases i phase).
Qed.

End PhaseFindings.

(** ** The communication rule on a list of channels *)

Section ChannelFindings.
Context {py : PyBuiltins}.

(** two issues that differ in their level, category, message or path *)
Ltac differ H :=
  solve [ apply (f_equal level) in H; cbn in H; discriminate H
        | apply (f_equal category) in H; cbn in H; discriminate H
        | apply (f_equal message) in H; cbn in H; discriminate H
        | apply (f_equal path) in H; cbn in H; discriminate H ].

(** [any(ch.get('type') == 'synchronous' for ch in channels)], when it
    does not raise *)
Lemma any_synchronous (channels : list value) (b : bool) :
  any_ (fun ch => let? t := py_get ch "type" VNone in
                  Ok (eq_str "synchronous" t)) channels = Ok b ->
  b = existsb is_synchronous channels.
Proof.
  induction channels as [|ch channels IH]; cbn [any_ existsb]; intros H.
  - now inversion H.
  - destruct ch as [| | | | |c]; try discriminate.
    unfold is_synchronous at 1. cbn [field]. cbn [py_get bindR] in H.
    destruct (lookup "type" c) as [t|]; cbn [eq_str] in *.
    + destruct (eq_str "synchronous" t); [now inversion H|]. cbn. auto.
    + cbn. auto.
Qed.

Lemma channels_body_findings (ic : Z * value) :
  outcome (channels_body ic) = Ok tt ->
  emitted (channels_body ic) = channel_findings ic.
Proof.
  destruct ic as [i ch].
  unfold channels_body, channel_findings, channel_name_or, outcome, emitted,
    bind, lift, ret, _add_issue, no_frequency_issue.
  destruct ch as [| | |s|l|c]; cbn; try discriminate.
  - destruct (str_contains "frequency" s); cbn; [reflexivity|discriminate].
  - destruct (existsb (eq_str "frequency") l); cbn;
      [reflexivity|discriminate].
  - destruct (lookup "frequency" c); cbn; [reflexivity|].
    destruct (lookup "name" c); reflexivity.
Qed.

Lemma channels_loop_findings (items : list (Z * value)) :
  outcome (for_ channels_body items) = Ok tt ->
  emitted (for_ channels_body items) = flat_map channel_findings items.
Proof.
  induction items as [|ic items IH]; intros H; [reflexivity|].
  destruct (for_cons channels_body ic items ltac:(appends_tac)) as [Ho He].
  rewrite Ho in H. rewrite He. clear Ho He.
  destruct (outcome (channels_body ic)) as [[]|e] eqn:Hb; [|discriminate].
  rewrite (channels_body_findings _ Hb), (IH H). reflexivity.
Qed.

Lemma in_enumerate_from {A} (xs : list A) (i : Z) (x : A) :
  forall i0, In (i, x) (enumerate_from i0 xs) <->
             exists m, i = i0 + Z.of_nat m /\ nth_error xs m = Some x.
Proof.
  induction xs as [|y xs IH]; intros i0; cbn [enumerate_from].
  - split; [intros []|]. intros [[|m] [_ H]]; discriminate.
  - cbn [In]. rewrite IH. split.
    + intros [H|[m [-> Hm]]].
      * inversion H; subst. exists 0%nat. split; [lia|reflexivity].
      * exists (S m). split; [lia|assumption].
    + intros [[|m] [-> Hm]].
      * cbn in Hm. inversion Hm; subst. left. f_equal. lia.
      * right. exists m. split; [lia|assumption].
Qed.

(** what the communication rule adds on a list of channels, when it does
    not raise *)
Lemma communication_rule_findings (d : list (string * value)) (comm : value)
    (channels : list value) :
  lookup "communication" d = Some comm ->
  field "channels" comm = Some (VList channels) ->
  outcome (_validate_communication (VDict d)) = Ok tt ->
  emitted (_validate_communication (VDict d)) =
    sync_findings channels ++ flat_map channel_findings (enumerate channels).
Proof.
  intros Hc Hch H. unfold _validate_communication in *.
  cbn [py_in py_getitem] in *. rewrite Hc in *.
  apply bind_lift_ok in H. destruct H as [b [Hb [H ->]]].
  inversion Hb; subst b. cbn [negb] in *.
  apply bind_lift_ok in H. destruct H as [c [Hc' [H ->]]].
  inversion Hc'; subst c.
  rewrite (field_py_in _ _ _ Hch) in *.
  apply bind_lift_ok in H. destruct H as [b [Hb' [H ->]]].
  inversion Hb'; subst b.
  rewrite (proj2 (py_getitem_field _ _ _) Hch) in *.
  apply bind_lift_ok in H. destruct H as [chs [Hchs [H ->]]].
  inversion Hchs; subst chs.
  apply bind_lift_ok in H. destruct H as [items [Hi [H ->]]].
  cbn [py_iter] in Hi. inversion Hi; subst items.
  apply bind_lift_ok in H. destruct H as [has_sync [Hs [H ->]]].
  apply any_synchronous in Hs. subst has_sync.
  apply bind_ok in H; [|appends_tac]. destruct H as [[] [_ [H ->]]].
  rewrite (channels_loop_findings _ H). f_equal.
  unfold sync_findings. destruct (existsb is_synchronous channels);
    reflexivity.
Qed.

Lemma no_frequency_issue_inj (a b : Z) (n1 n2 : value) :
  no_frequency_issue a n1 = no_frequency_issue b n2 -> a = b.
Proof.
  intros H. apply (f_equal path) in H. unfold no_frequency_issue in H.
  cbn [path] in H. injection H as H.
  apply append_inj_r in H. exact (str_of_Z_inj a b H).
Qed.

(** With a list of channels, a returning [validate] warns that no
    channel is synchronous if and only if no channel of the list has the
    [type] ["synchronous"]; an empty list of channels gets the
    warning. *)
Theorem synchronous_channel_expected (self : TeamValidator) (passed : bool)
    (found : list ValidationIssue) (d : list (string * value))
    (comm : value) (channels : list value) :
  fst (validate self) = Ok (passed, found) ->
  config self = VDict d ->
  lookup "communication" d = Some comm ->
  field "channels" comm = Some (VList channels) ->
  level no_sync_issue = WARNING /\
  (In no_sync_issue found <->
   forall channel, In channel channels ->
                   field "type" channel <> Some (VStr "synchronous")).
Proof.
  intros Hv Hcfg Hc Hch. split; [reflexivity|].
  rewrite (found_communication _ _ _ _ Hv) by reflexivity.
  destruct (rules_returned _ _ _ Hv) as [_ [_ [_ [Hr _]]]].
  rewrite Hcfg in *.
  rewrite (communication_rule_findings _ _ _ Hc Hch Hr), in_app_iff.
  unfold sync_findings.
  assert (Hsync : existsb is_synchronous channels = false <->
                  forall channel, In channel channels ->
                    field "type" channel <> Some (VStr "synchronous")).
  { split.
    - intros He ch Hin Ht.
      assert (existsb is_synchronous channels = true); [|congruence].
      apply existsb_exists. exists ch. split; [assumption|].
      unfold is_synchronous. now rewrite Ht.
    - intros Hnone. destruct (existsb is_synchronous channels) eqn:E;
        [|reflexivity].
      apply existsb_exists in E. destruct E as [ch [Hin Hs]].
      unfold is_synchronous in Hs.
      destruct (field "type" ch) as [t|] eqn:Ht; [|discriminate].
      apply eq_str_true in Hs. subst t. exfalso. eapply Hnone; eauto. }
  rewrite <- Hsync. split.
  - intros [Hin|Hin].
    + destruct (existsb is_synchronous channels); [destruct Hin|reflexivity].
    + apply in_flat_map in Hin. destruct Hin as [[i ch] [_ Hin]].
      unfold channel_findings in Hin.
      destruct ch as [| | | | |c]; try destruct Hin.
      destruct (lookup "frequency" c); [destruct Hin|].
      destruct Hin as [H|[]]. differ H.
  - intros ->. left. now left.
Qed.

(** A channel (a dict) without [frequency] gets an INFO from a returning
    [validate], naming it by its [name], or by its index when it has
    none; a channel that has a [frequency] gets none. *)
Theorem channel_without_frequency_noted (self : TeamValidator)
    (passed : bool) (found : list ValidationIssue)
    (d : list (string * value)) (comm : value) (channels : list value)
    (i : nat) (c : list (string * value)) :
  fst (validate self) = Ok (passed, found) ->
  config self = VDict d ->
  lookup "communication" d = Some comm ->
  field "channels" comm = Some (VList channels) ->
  nth_error channels i = Some (VDict c) ->
  In (no_frequency_issue (Z.of_nat i) (channel_name_or (Z.of_nat i) (VDict c)))
     found <->
  lookup "frequency" c = None.
Proof.
  intros Hv Hcfg Hc Hch Hi.
  rewrite (found_communication _ _ _ _ Hv) by reflexivity.
  destruct (rules_returned _ _ _ Hv) as [_ [_ [_ [Hr _]]]].
  rewrite Hcfg in *.
  rewrite (communication_rule_findings _ _ _ Hc Hch Hr), in_app_iff.
  split.
  - intros [Hin|Hin].
    + unfold sync_findings in Hin.
      destruct (existsb is_synchronous channels); [destruct Hin|].
      destruct Hin as [H|[]]. differ H.
    + apply in_flat_map in Hin. destruct Hin as [[m ch] [Hm Hin]].
      apply in_enumerate_from in Hm. destruct Hm as [n [-> Hn]].
      unfold channel_findings in Hin.
      destruct ch as [| | | | |c']; try destruct Hin.
      destruct (lookup "frequency" c') eqn:Hf; [destruct Hin|].
      destruct Hin as [H|[]].
      apply no_frequency_issue_inj in H.
      assert (n = i) by lia. subst n.
      assert (c' = c) by congruence. now subst c'.
  - intros Hf. right. apply in_flat_map.
    exists (Z.of_nat i, VDict c). split.
    + apply in_enumerate_from. exists i. split; [lia|assumption].
    + cbn. rewrite Hf. now left.
Qed.

End ChannelFindings.

(** ** The reference check of the dependency rule *)

Section SupervisorFindings.
Context {py : PyBuiltins}.

(** two issues that differ in their level, category, message or path *)
Ltac differ H :=
  solve [ apply (f_equal level) in H; cbn in H; discriminate H
        | apply (f_equal category) in H; cbn in H; discriminate H
        | apply (f_equal message) in H; cbn in H; discriminate H
        | apply (f_equal path) in H; cbn in H; discriminate H ].

(** the set comprehension, when it does not raise, holds the ids of all
    the roles *)
Lemma role_id_set_spec (roles : list value) :
  forall acc ids, role_id_set roles acc = Ok ids ->
  forall k, In k ids <-> In k acc \/ declared_id roles k.
Proof.
  unfold declared_id.
  induction roles as [|role roles IH]; intros acc ids H k; cbn in H.
  - inversion H; subst. split; [auto|]. intros [Hk|[r [[] _]]]. assumption.
  - assert (Hstep : exists acc',
              role_id_set roles acc' = Ok ids /\
              forall k, In k acc' <-> In k acc \/ role_key role = Some k).
    { unfold role_key.
      destruct role as [| | | s | l | d]; cbn in *; try discriminate.
      - destruct (str_contains "id" s); cbn in H; [discriminate|].
        exists acc. split; [assumption|]. intros k'.
        split; [auto|]. intros [Hk|Hk]; [assumption|discriminate].
      - destruct (existsb (eq_str "id") l); cbn in H; [discriminate|].
        exists acc. split; [assumption|]. intros k'.
        split; [auto|]. intros [Hk|Hk]; [assumption|discriminate].
      - destruct (lookup "id" d) as [rid|]; cbn in H.
        + destruct (py_hash rid) as [k0|e]; cbn in H; [|discriminate].
          exists (set_add k0 acc). split; [assumption|]. intros k'.
          rewrite set_add_In. split.
          * intros [->|Hk]; auto.
          * intros [Hk|Hk]; [auto|]. inversion Hk. auto.
        + exists acc. split; [assumption|]. intros k'.
          split; [auto|]. intros [Hk|Hk]; [assumption|discriminate]. }
    destruct Hstep as [acc' [Hrest Hacc]].
    rewrite (IH _ _ Hrest k), Hacc. split.
    + intros [[Hk|Hk]|[r [Hin Hk]]].
      * now left.
      * right. exists role. split; [now left|assumption].
      * right. exists r. split; [now right|assumption].
    + intros [Hk|[r [[<-|Hin] Hk]]].
      * left. now left.
      * left. now right.
      * right. exists r. auto.
Qed.

Lemma reports_body_findings (ids : pyset) (role : value) :
  outcome (reports_body ids role) = Ok tt ->
  emitted (reports_body ids role) = supervisor_findings ids role.
Proof.
  unfold reports_body, supervisor_findings, role_id, outcome, emitted, bind,
    lift, ret, _add_issue, set_contains, bindR, undefined_supervisor_issue.
  destruct role as [| | | s | l | d]; cbn; try discriminate.
  - destruct (str_contains "reports_to" s); cbn; [discriminate|reflexivity].
  - destruct (existsb (eq_str "reports_to") l); cbn;
      [discriminate|reflexivity].
  - destruct (lookup "reports_to" d) as [sup|]; cbn; [|reflexivity].
    destruct (py_hash sup) as [k|e]; cbn; [|discriminate].
    destruct (set_mem k ids); cbn; [reflexivity|].
    destruct (lookup "id" d) as [rid|]; cbn; [reflexivity|discriminate].
Qed.

Lemma reports_loop_findings (ids : pyset) (roles : list value) :
  outcome (for_ (reports_body ids) roles) = Ok tt ->
  emitted (for_ (reports_body ids) roles)
  = flat_map (supervisor_findings ids) roles.
Proof.
  induction roles as [|role roles IH]; intros H; [reflexivity|].
  destruct (for_cons (reports_body ids) role roles ltac:(appends_tac))
    as [Ho He].
  rewrite Ho in H. rewrite He. clear Ho He.
  destruct (outcome (reports_body ids role)) as [[]|e] eqn:Hb;
    [|discriminate].
  rewrite (reports_body_findings _ _ Hb), (IH H). reflexivity.
Qed.

(** what the dependency rule adds on a list of roles, when it does not
    raise: the findings of the reference check, against the ids of all
    the roles, then possibly the cycle error *)
Lemma dependencies_rule_findings (cfg : value) (roles : list value) :
  field "roles" cfg = Some (VList roles) ->
  outcome (_validate_dependencies cfg) = Ok tt ->
  exists ids tail,
    role_id_set roles [] = Ok ids /\
    emitted (_validate_dependencies cfg) =
      flat_map (supervisor_findings ids) roles ++ tail /\
    (tail = [] \/ tail = [cycle_issue]).
Proof.
  intros Hf H. unfold _validate_dependencies in *.
  rewrite (field_py_in _ _ _ Hf) in *.
  apply bind_lift_ok in H. destruct H as [b [Hb [H ->]]].
  inversion Hb; subst b. cbn [negb] in *.
  rewrite (proj2 (py_getitem_field _ _ _) Hf) in *.
  apply bind_lift_ok in H. destruct H as [r [Hr [H ->]]].
  inversion Hr; subst r.
  apply bind_lift_ok in H. destruct H as [items [Hi [H ->]]].
  cbn [py_iter] in Hi. inversion Hi; subst items.
  apply bind_lift_ok in H. destruct H as [ids [Hids [H ->]]].
  apply bind_ok in H; [|appends_tac]. destruct H as [[] [Hloop [H ->]]].
  apply bind_lift_ok in H. destruct H as [g [Hg [H ->]]].
  apply bind_lift_ok in H. destruct H as [b [Hc [H ->]]].
  exists ids. eexists. split; [assumption|]. split.
  - rewrite (reports_loop_findings _ _ Hloop). reflexivity.
  - destruct b; [right; apply emitted_add|left; reflexivity].
Qed.

(** The supervisor of a role must be the id of a role of the list, which
    may stand before or after it: a returning [validate] contains the
    undefined-role ERROR exactly for the roles whose [reports_to] is the
    id of no role at all, and [passed] is then false. *)
Theorem undefined_supervisor_reported (self : TeamValidator) (passed : bool)
    (found : list ValidationIssue) (roles : list value)
    (rid supervisor : value) :
  fst (validate self) = Ok (passed, found) ->
  field "roles" (config self) = Some (VList roles) ->
  (In (undefined_supervisor_issue rid supervisor) found <->
   exists role supervisor' k,
     In role roles /\ field "reports_to" role = Some supervisor' /\
     py_hash supervisor' = Ok k /\ ~ declared_id roles k /\
     undefined_supervisor_issue (role_id role) supervisor'
     = undefined_supervisor_issue rid supervisor) /\
  (In (undefined_supervisor_issue rid supervisor) found -> passed = false).
Proof.
  intros Hv Hf.
  split; [|intros Hin; now apply (error_fails _ _ _ _ Hv Hin)].
  set (x := undefined_supervisor_issue rid supervisor).
  rewrite (found_dependencies _ _ _ x Hv) by reflexivity.
  destruct (rules_returned _ _ _ Hv) as [_ [_ [_ [_ [Hr _]]]]].
  destruct (dependencies_rule_findings _ _ Hf Hr)
    as [ids [tail [Hids [-> Htail]]]].
  pose proof (role_id_set_spec _ _ _ Hids) as Hin_ids.
  rewrite in_app_iff. split.
  - intros [Hin|Hin].
    + apply in_flat_map in Hin. destruct Hin as [role [Hrole Hin]].
      unfold supervisor_findings in Hin.
      destruct (field "reports_to" role) as [sup|] eqn:Hs; [|destruct Hin].
      destruct (py_hash sup) as [k|e] eqn:Hk; [|destruct Hin].
      destruct (set_mem k ids) eqn:E; [destruct Hin|].
      destruct Hin as [H|[]].
      exists role, sup, k. repeat split; auto.
      intros Hd. apply set_mem_notIn in E. apply E, Hin_ids. now right.
    + destruct Htail as [->| ->]; [destruct Hin|].
      destruct Hin as [H|[]]. differ H.
  - intros [role [sup [k [Hrole [Hs [Hk [Hn H]]]]]]]. left.
    apply in_flat_map. exists role. split; [assumption|].
    unfold supervisor_findings. rewrite Hs, Hk.
    assert (E : set_mem k ids = false).
    { apply set_mem_notIn. intros Hin. apply Hin_ids in Hin.
      destruct Hin as [[]|Hd]. contradiction. }
    rewrite E. left. exact H.
Qed.

End SupervisorFindings.

(** ** The report *)

Section ReportProperties.

Lemma append_assoc (a b c : string) : (a +++ b) +++ c = a +++ b +++ c.
Proof. induction a as [|x a IH]; cbn; [reflexivity|now rewrite IH]. Qed.

Lemma str_join_snoc (sep x : string) (l : list string) :
  l <> [] -> str_join sep (l ++ [x]) = str_join sep l +++ sep +++ x.
Proof.
  induction l as [|y l IH]; intros Hne; [congruence|].
  destruct l as [|z l].
  - reflexivity.
  - change (str_join sep ((y :: z :: l) ++ [x]))
      with (y +++ sep +++ str_join sep ((z :: l) ++ [x])).
    rewrite IH by discriminate.
    change (str_join sep (y :: z :: l))
      with (y +++ sep +++ str_join sep (z :: l)).
    now rewrite !append_assoc.
Qed.

Lemma has_line_break_append (a b : string) :
  has_line_break (a +++ b) = has_line_break a || has_line_break b.
Proof.
  unfold has_line_break. induction a as [|c a IH]; [reflexivity|].
  cbn [String.append CPython.has_char]. rewrite IH. now rewrite orb_assoc.
Qed.

Lemma last_line_after_break (a v : string) :
  has_line_break v = false -> last_line (a +++ nl +++ v) = v.
Proof.
  intros Hv. induction a as [|c a IH].
  - unfold nl. cbn [String.append last_line]. now rewrite Hv.
  - cbn [String.append last_line].
    assert (Hb : has_line_break (a +++ nl +++ v) = true).
    { rewrite !has_line_break_append. cbn. apply orb_true_r. }
    now rewrite Hb.
Qed.

Lemma is_nil_of_level (lvl : ValidationLevel) (issues : list ValidationIssue) :
  negb (is_nil (of_level lvl issues))
  = existsb (fun i => level_eqb (level i) lvl) issues.
Proof.
  unfold of_level. induction issues as [|x issues IH]; [reflexivity|].
  cbn. destruct (level_eqb (level x) lvl); [reflexivity|exact IH].
Qed.

Lemma report_located_app (acc : list string) (x : ValidationIssue) :
  report_located acc x = acc ++ located_lines x.
Proof.
  unfold located_lines, report_located, list_append.
  destruct (has_text (suggestion x)), (has_text (path x)); cbn [app];
    now rewrite <- ?app_assoc.
Qed.

Lemma report_unlocated_app (acc : list string) (x : ValidationIssue) :
  report_unlocated acc x = acc ++ unlocated_lines x.
Proof.
  unfold unlocated_lines, report_unlocated, list_append.
  destruct (has_text (suggestion x)); cbn [app]; now rewrite <- ?app_assoc.
Qed.

Lemma fold_located (xs : list ValidationIssue) :
  forall acc,
  fold_left report_located xs acc = acc ++ flat_map located_lines xs.
Proof.
  induction xs as [|x xs IH]; intros acc; cbn [fold_left flat_map].
  - now rewrite List.app_nil_r.
  - now rewrite IH, report_located_app, <- app_assoc.
Qed.

Lemma fold_unlocated (xs : list ValidationIssue) :
  forall acc,
  fold_left report_unlocated xs acc = acc ++ flat_map unlocated_lines xs.
Proof.
  induction xs as [|x xs IH]; intros acc; cbn [fold_left flat_map].
  - now rewrite List.app_nil_r.
  - now rewrite IH, report_unlocated_app, <- app_assoc.
Qed.

(** the report ends with its conclusion *)
Lemma report_lines_end (issues : list ValidationIssue) :
  exists body,
    body <> [] /\ report_lines issues = body ++ [verdict_line issues].
Proof.
  unfold report_lines, verdict_line. cbv zeta.
  change is_error with (fun i => level_eqb (level i) ERROR).
  change is_warning with (fun i => level_eqb (level i) WARNING).
  rewrite <- !is_nil_of_level.
  unfold list_append at 1 2 3 4.
  match goal with
  | |- context [if _ then ?r ++ [failed_line] else _] =>
      exists r; split; [intros H; now apply app_eq_nil in H|]
  end.
  destruct (negb (is_nil (of_level ERROR issues))); [reflexivity|].
  destruct (negb (is_nil (of_level WARNING issues))); reflexivity.
Qed.

Lemma verdict_line_unbroken (issues : list ValidationIssue) :
  has_line_break (verdict_line issues) = false.
Proof.
  unfold verdict_line.
  destruct (existsb is_error issues); [reflexivity|].
  destruct (existsb is_warning issues); reflexivity.
Qed.

(** The last line of the report is its conclusion: FAILED when an issue
    is an ERROR, PASSED with warnings when none is but one is a WARNING,
    and PASSED otherwise, whatever the number and the texts of the
    issues. *)
Theorem report_ends_with_verdict (issues : list ValidationIssue) :
  last_line (generate_optimization_report issues) =
  if existsb is_error issues then failed_line
  else if existsb is_warning issues then warnings_line
  else ready_line.
Proof.
  fold (verdict_line issues). unfold generate_optimization_report.
  destruct (report_lines_end issues) as [body [Hne ->]].
  rewrite (str_join_snoc _ _ _ Hne).
  apply last_line_after_break, verdict_line_unbroken.
Qed.

Lemma failed_line_only_on_error (issues : list ValidationIssue) :
  verdict_line issues = failed_line <-> existsb is_error issues = true.
Proof.
  unfold verdict_line. destruct (existsb is_error issues).
  - tauto.
  - split; [|discriminate].
    destruct (existsb is_warning issues); intros H; vm_compute in H;
      discriminate.
Qed.

Lemma entry_line_is_entry (x : ValidationIssue) :
  is_entry_line (entry_line x) = true.
Proof.
  unfold is_entry_line.
  change (entry_line x)
    with ((nl +++ "  [") +++ category x +++ "] " +++ message x).
  apply prefix_append.
Qed.

Lemma located_lines_entries (x : ValidationIssue) :
  filter is_entry_line (located_lines x) = [entry_line x].
Proof.
  unfold located_lines, report_located, list_append.
  fold (entry_line x).
  destruct (has_text (suggestion x)), (has_text (path x));
    cbn [app filter]; rewrite entry_line_is_entry; reflexivity.
Qed.

Lemma unlocated_lines_entries (x : ValidationIssue) :
  filter is_entry_line (unlocated_lines x) = [entry_line x].
Proof.
  unfold unlocated_lines, report_unlocated, list_append.
  fold (entry_line x).
  destruct (has_text (suggestion x));
    cbn [app filter]; rewrite entry_line_is_entry; reflexivity.
Qed.

Lemma filter_flat_map_entries (lines : ValidationIssue -> list string)
    (xs : list ValidationIssue) :
  (forall x, filter is_entry_line (lines x) = [entry_line x]) ->
  filter is_entry_line (flat_map lines xs) = map entry_line xs.
Proof.
  intros H. induction xs as [|x xs IH]; [reflexivity|].
  cbn [flat_map map]. now rewrite filter_app, H, IH.
Qed.

(** The entries of the report are the issues, each one once, grouped by
    level (the errors, then the warnings, then the infos) and, within a
    level, in the order of the list: no issue is left out and none is
    shown twice. *)
Theorem report_lists_issues_by_level (issues : list ValidationIssue) :
  filter is_entry_line (report_lines issues) =
  map entry_line
    (of_level ERROR issues ++ of_level WARNING issues ++ of_level INFO issues).
Proof.
  unfold report_lines, list_append. cbv zeta.
  rewrite !fold_located, !fold_unlocated, !map_app.
  rewrite <- (filter_flat_map_entries located_lines (of_level ERROR issues)
                located_lines_entries).
  rewrite <- (filter_flat_map_entries located_lines (of_level WARNING issues)
                located_lines_entries).
  rewrite <- (filter_flat_map_entries unlocated_lines (of_level INFO issues)
                unlocated_lines_entries).
  destruct (of_level ERROR issues) as [|e es];
    destruct (of_level WARNING issues) as [|w ws];
    destruct (of_level INFO issues) as [|i infos];
    cbn [is_nil negb];
    rewrite ?filter_app;
    repeat match goal with
    | |- context [filter is_entry_line [?line]] =>
        change (filter is_entry_line [line]) with (@nil string)
    end;
    cbn [app filter]; rewrite ?List.app_nil_r, <- ?app_assoc;
    reflexivity.
Qed.

Lemma level_without_info_path (x : ValidationIssue) :
  level (without_info_path x) = level x.
Proof. unfold without_info_path. destruct (level x) eqn:E; cbn; auto. Qed.

Lemma of_level_without_info_path (lvl : ValidationLevel)
    (issues : list ValidationIssue) :
  of_level lvl (map without_info_path issues)
  = map without_info_path (of_level lvl issues).
Proof.
  unfold of_level. induction issues as [|x issues IH]; [reflexivity|].
  cbn [map filter]. rewrite level_without_info_path, IH.
  destruct (level_eqb (level x) lvl); reflexivity.
Qed.

Lemma without_info_path_kept (lvl : ValidationLevel)
    (issues : list ValidationIssue) :
  lvl <> INFO ->
  map without_info_path (of_level lvl issues) = of_level lvl issues.
Proof.
  intros Hl. unfold of_level.
  induction issues as [|x issues IH]; [reflexivity|].
  cbn [filter]. destruct (level_eqb (level x) lvl) eqn:E; [|exact IH].
  cbn [map]. rewrite IH. f_equal. unfold without_info_path.
  destruct (level x), lvl; try discriminate; congruence.
Qed.

Lemma report_unlocated_without (acc : list string) (x : ValidationIssue) :
  report_unlocated acc (without_info_path x) = report_unlocated acc x.
Proof. unfold without_info_path. destruct (level x); reflexivity. Qed.

Lemma fold_unlocated_without (xs : list ValidationIssue) :
  forall acc,
  fold_left report_unlocated (map without_info_path xs) acc
  = fold_left report_unlocated xs acc.
Proof.
  induction xs as [|x xs IH]; intros acc; [reflexivity|].
  cbn [map fold_left]. now rewrite report_unlocated_without, IH.
Qed.

Lemma is_nil_map {A B} (f : A -> B) (l : list A) :
  is_nil (map f l) = is_nil l.
Proof. now destruct l. Qed.

(** The report never shows where an INFO issue was found: the location
    is printed for the errors and for the warnings only, so the report
    is the same when the paths of the INFO issues are taken away. *)
Theorem report_hides_info_location (issues : list ValidationIssue) :
  generate_optimization_report (map without_info_path issues)
  = generate_optimization_report issues.
Proof.
  unfold generate_optimization_report. f_equal.
  unfold report_lines. cbv zeta.
  rewrite !of_level_without_info_path.
  rewrite (without_info_path_kept ERROR) by discriminate.
  rewrite (without_info_path_kept WARNING) by discriminate.
  rewrite !length_map, !is_nil_map, fold_unlocated_without.
  reflexivity.
Qed.

End ReportProperties.

Section ReportOfValidate.
Context {py : PyBuiltins}.

(** The report of the issues [validate] returns concludes FAILED exactly
    when [validate] answers that the configuration did not pass: what
    [main] prints and the exit status it returns agree. *)
Theorem report_agrees_with_validate (self : TeamValidator) (passed : bool)
    (found : list ValidationIssue) :
  fst (validate self) = Ok (passed, found) ->
  passed = false <->
  last_line (generate_optimization_report found) = failed_line.
Proof.
  intros Hv. apply validate_ok_inv in Hv. cbv zeta in Hv.
  destruct Hv as [_ [_ ->]].
  unfold generate_optimization_report.
  destruct (report_lines_end found) as [body [Hne ->]].
  rewrite (str_join_snoc _ _ _ Hne).
  rewrite (last_line_after_break _ _ (verdict_line_unbroken found)).
  rewrite failed_line_only_on_error. apply negb_false_iff.
Qed.

End ReportOfValidate.

(** * The claims on the example documents *)

Import Examples.

Local Open Scope string_scope.

(** C1, as first stated, fails on a document whose [workflow] is null:
    ['phases' not in None] raises and [validate] returns no pair. *)
Lemma validate_raises_on_null_workflow :
  fst (validate (py := cpython) null_workflow) = Raise TypeError.
Proof. vm_compute. reflexivity. Qed.

(** C5: on a role that has no id and reports to an undeclared role,
    [_validate_dependencies] evaluates [role['id']] for its message and
    [validate] raises [KeyError]. *)
Lemma validate_raises_on_anonymous_report :
  fst (validate (py := cpython) anonymous_report) = Raise KeyError.
Proof. vm_compute. reflexivity. Qed.

(** C3, as first stated, fails on a phase that names itself as a
    dependency: no issue at all is reported. *)
Lemma self_dependency_not_reported :
  fst (validate (py := cpython) self_dependency) = Ok (true, []).
Proof. vm_compute. reflexivity. Qed.

Lemma undeclared_dependency_reported_witness :
  exists passed found,
    fst (validate (py := cpython) forward_dependency) = Ok (passed, found) /\
    In (undefined_dependency_issue (py := cpython) 0 (VStr "design")
          (VStr "build")) found /\
    passed = false.
Proof.
  assert (Hv : fst (validate (py := cpython) forward_dependency)
               = Ok (false, [undefined_dependency_issue (py := cpython) 0
                               (VStr "design") (VStr "build")]))
    by (vm_compute; reflexivity).
  assert (Hnew : forall j, (j <= 0)%nat ->
                   ~ named_at forward_phases j (KStr "build")).
  { intros j Hj [phase [Hn Hk]].
    assert (j = 0%nat) by lia. subst j.
    cbn in Hn. inversion Hn; subst. vm_compute in Hk. discriminate. }
  eexists. eexists. split; [exact Hv|].
  destruct (undeclared_dependency_reported (py := cpython) forward_dependency
              _ _ (VDict [("phases", VList forward_phases)]) forward_phases
              0 design_phase [VStr "build"] (VStr "build") (KStr "build")
              Hv eq_refl eq_refl eq_refl eq_refl (or_introl eq_refl) eq_refl
              Hnew) as [H1 [_ H2]].
  split; [exact H1 | exact H2].
Defined.

(** C6, as first stated, fails on a negative total: the sum is -20, which
    is neither zero nor 100, and no warning is reported. *)
Lemma negative_total_not_reported :
  sum_percentages (py := cpython)
    [VDict [("name", VStr "a"); ("duration", VStr "-20%")]] = -20 /\
  fst (validate (py := cpython) negative_duration) = Ok (true, []).
Proof. split; vm_compute; reflexivity. Qed.

Lemma duration_warning_iff_witness :
  exists passed found,
    fst (validate (py := cpython) eighty_percent) = Ok (passed, found) /\
    In (duration_issue (py := cpython) 80) found.
Proof.
  assert (Hv : fst (validate (py := cpython) eighty_percent)
               = Ok (true, [duration_issue (py := cpython) 80]))
    by (vm_compute; reflexivity).
  eexists. eexists. split; [exact Hv|].
  destruct (duration_warning_iff (py := cpython) eighty_percent _ _
              (VDict [("phases", VList eighty_phases)]) eighty_phases
              Hv eq_refl eq_refl) as [_ [_ H]].
  apply H. vm_compute. split; [reflexivity | discriminate].
Defined.

Lemma duplicate_role_id_reported_once_witness :
  exists passed found,
    fst (validate (py := cpython) twice_a) = Ok (passed, found) /\
    filter is_duplicate_error found
      = [duplicate_id_issue (py := cpython) 1 (VStr "a")] /\
    passed = false.
Proof.
  assert (Hv : fst (validate (py := cpython) twice_a)
               = Ok (false, [duplicate_id_issue (py := cpython) 1 (VStr "a")]))
    by (vm_compute; reflexivity).
  assert (Honly : forall a b k', (a < b)%nat ->
                    key_at twice_a_roles a k' -> key_at twice_a_roles b k' ->
                    a = 0%nat /\ b = 1%nat).
  { intros a b k' Hab [ra [Ha Hka]] [rb [Hb Hkb]].
    destruct a as [|[|[|a]]]; destruct b as [|[|[|b]]];
      cbn in Ha, Hb; rewrite ?nth_error_nil in *; try discriminate; try lia;
      inversion Ha; inversion Hb; subst;
      vm_compute in Hka, Hkb; try (split; reflexivity); congruence. }
  eexists. eexists. split; [exact Hv|].
  destruct (duplicate_role_id_reported_once (py := cpython) twice_a _ _
              twice_a_roles 0 1 (role "a" []) (role "a" []) (KStr "a")
              Hv eq_refl ltac:(lia) eq_refl eq_refl eq_refl eq_refl Honly)
    as [H1 [_ H2]].
  split; [exact H1 | exact H2].
Defined.

Lemma model_fit_info_iff_model_differs_witness :
  exists passed found,
    fst (validate (py := cpython) senior_developer) = Ok (passed, found) /\
    In (model_fit_issue (py := cpython) 0 (VStr "a") (VStr "opus") "sonnet"
          (VStr "Senior Developer")) found.
Proof.
  assert (Hv : fst (validate (py := cpython) senior_developer)
               = Ok (true, [model_fit_issue (py := cpython) 0 (VStr "a")
                              (VStr "opus") "sonnet"
                              (VStr "Senior Developer")]))
    by (vm_compute; reflexivity).
  eexists. eexists. split; [exact Hv|].
  destruct (model_fit_info_iff_model_differs (py := cpython)
              senior_developer _ _
              [developer_role; role "b" []; role "c" []] 0 developer_role
              (VStr "opus") Hv eq_refl eq_refl eq_refl)
    as [t [sug [Ht [Hs _]]]].
  now left.
Defined.

Lemma cycle_error_iff_cycle_witness :
  exists passed found,
    fst (validate (py := cpython) two_cycle) = Ok (passed, found) /\
    count_occ issue_eq_dec found cycle_issue = 1%nat.
Proof.
  assert (Hv : fst (validate (py := cpython) two_cycle)
               = Ok (false, [cycle_issue]))
    by (vm_compute; reflexivity).
  eexists. eexists. split; [exact Hv|].
  apply (proj1 (cycle_error_iff_cycle (py := cpython) two_cycle _ _
                  two_cycle_roles
                  [(KStr "a", VStr "b"); (KStr "b", VStr "a")]
                  Hv eq_refl eq_refl)).
  exists [KStr "a"; KStr "b"]. split; [|cbn; lia].
  cbn. split; reflexivity.
Defined.

(** C9, as first stated, fails when a later role repeats the id: its
    link replaces the self-link in the reporting map and no cycle error
    is reported (the duplicate id is). *)
Lemma overridden_self_report_not_reported :
  fst (validate (py := cpython) overridden_self_report)
  = Ok (false, [duplicate_id_issue (py := cpython) 1 (VStr "a")]).
Proof. vm_compute. reflexivity. Qed.

Lemma self_report_is_cycle_witness :
  exists passed found,
    fst (validate (py := cpython) self_report) = Ok (passed, found) /\
    In cycle_issue found /\ passed = false.
Proof.
  assert (Hv : fst (validate (py := cpython) self_report)
               = Ok (false, [cycle_issue]))
    by (vm_compute; reflexivity).
  assert (Hlater : forall j later, (0 < j)%nat ->
                     nth_error self_report_roles j = Some later ->
                     role_key later = Some (KStr "a") ->
                     field "reports_to" later = None).
  { intros j later Hj Hn Hk.
    destruct j as [|[|[|j]]]; cbn in Hn; rewrite ?nth_error_nil in *;
      try lia; try discriminate;
      inversion Hn; subst; vm_compute in Hk; discriminate. }
  eexists. eexists. split; [exact Hv|].
  exact (self_report_is_cycle (py := cpython) self_report _ _
           self_report_roles 0 (role "a" [("reports_to", VStr "a")])
           (VStr "a") (VStr "a") (KStr "a")
           Hv eq_refl eq_refl eq_refl eq_refl eq_refl eq_refl Hlater).
Defined.

Lemma disjoint_cycles_one_error_witness :
  exists passed found,
    fst (validate (py := cpython) two_cycles) = Ok (passed, found) /\
    count_occ issue_eq_dec found cycle_issue = 1%nat.
Proof.
  assert (Hv : fst (validate (py := cpython) two_cycles)
               = Ok (false, [cycle_issue]))
    by (vm_compute; reflexivity).
  eexists. eexists. split; [exact Hv|].
  apply (disjoint_cycles_one_error (py := cpython) two_cycles _ _
           two_cycles_roles
           [(KStr "a", VStr "b"); (KStr "b", VStr "a");
            (KStr "c", VStr "d"); (KStr "d", VStr "c")]
           [KStr "a"; KStr "b"] [KStr "c"; KStr "d"]
           Hv eq_refl eq_refl).
  - cbn. split; reflexivity.
  - cbn. split; reflexivity.
  - intros x [<-|[<-|[]]] [H|[H|[]]]; discriminate.
Defined.

Lemma missing_required_field_reported_witness :
  exists passed found,
    fst (validate (py := cpython) no_workflow) = Ok (passed, found) /\
    In (missing_field_issue "workflow") found /\ passed = false.
Proof.
  assert (Hv : fst (validate (py := cpython) no_workflow)
               = Ok (false, [missing_field_issue "workflow"]))
    by (vm_compute; reflexivity).
  eexists. eexists. split; [exact Hv|].
  exact (missing_required_field_reported (py := cpython) no_workflow _ _
           no_workflow_items "workflow" Hv eq_refl
           (or_intror (or_intror (or_introl eq_refl))) eq_refl).
Defined.

Lemma empty_roles_reported_witness :
  exists passed found,
    fst (validate (py := cpython) no_roles) = Ok (passed, found) /\
    In no_roles_issue found /\ passed = false.
Proof.
  assert (Hv : fst (validate (py := cpython) no_roles)
               = Ok (false, [no_roles_issue]))
    by (vm_compute; reflexivity).
  eexists. eexists. split; [exact Hv|].
  exact (empty_roles_reported (py := cpython) no_roles _ _ Hv eq_refl).
Defined.



(** * The further properties on the example documents *)

Lemma team_name_checked_witness :
  exists passed found,
    fst (validate (py := cpython) unnamed) = Ok (passed, found) /\
    In team_name_issue found /\ passed = false.
Proof.
  assert (Hv : fst (validate (py := cpython) unnamed)
               = Ok (false, [team_name_issue]))
    by (vm_compute; reflexivity).
  eexists. eexists. split; [exact Hv|].
  destruct (team_name_checked (py := cpython) unnamed _ _ unnamed_items
              Hv eq_refl) as [Hiff Hfail].
  assert (Hin : In team_name_issue [team_name_issue]).
  { apply Hiff. exists (VStr ""). split; [reflexivity|].
    intros [s [E Hs]]. inversion E; subst. now apply Hs. }
  split; [exact Hin | exact (Hfail Hin)].
Defined.

Lemma communication_absent_noted_witness :
  exists passed found,
    fst (validate (py := cpython) no_communication) = Ok (passed, found) /\
    In no_communication_issue found.
Proof.
  assert (Hv : fst (validate (py := cpython) no_communication)
               = Ok (true, [no_communication_issue]))
    by (vm_compute; reflexivity).
  eexists. eexists. split; [exact Hv|].
  apply (communication_absent_noted (py := cpython) no_communication _ _
           no_communication_items Hv eq_refl eq_refl
           no_communication_issue eq_refl).
  reflexivity.
Defined.

Lemma workflow_without_phases_warned_witness :
  exists passed found,
    fst (validate (py := cpython) no_phases) = Ok (passed, found) /\
    In no_phases_issue found.
Proof.
  assert (Hv : fst (validate (py := cpython) no_phases)
               = Ok (true, [no_phases_issue]))
    by (vm_compute; reflexivity).
  eexists. eexists. split; [exact Hv|].
  destruct (workflow_without_phases_warned (py := cpython) no_phases _ _
              (VDict []) Hv eq_refl eq_refl) as [_ H].
  apply (H no_phases_issue eq_refl). reflexivity.
Defined.

Lemma unknown_budget_warned_witness :
  exists passed found,
    fst (validate (py := cpython) cheap_budget) = Ok (passed, found) /\
    In (unknown_budget_issue (py := cpython) (VStr "cheap")) found.
Proof.
  assert (Hv : fst (validate (py := cpython) cheap_budget)
               = Ok (true, [unknown_budget_issue (py := cpython)
                              (VStr "cheap")]))
    by (vm_compute; reflexivity).
  eexists. eexists. split; [exact Hv|].
  destruct (unknown_budget_warned (py := cpython) cheap_budget _ _
              cheap_budget_items (VStr "cheap") Hv eq_refl eq_refl)
    as [_ H].
  apply H. intros s [<-|[<-|[<-|[]]]]; discriminate.
Defined.

Lemma budget_checked_against_opus_roles_witness :
  exists passed found,
    fst (validate (py := cpython) economic_leads) = Ok (passed, found) /\
    In (economic_opus_issue (py := cpython) (opus_roles two_leads)) found.
Proof.
  assert (Hv : fst (validate (py := cpython) economic_leads)
               = Ok (true, [economic_opus_issue (py := cpython) 2]))
    by (vm_compute; reflexivity).
  eexists. eexists. split; [exact Hv|].
  destruct (budget_checked_against_opus_roles (py := cpython) economic_leads
              _ _ economic_items (VStr "economic") two_leads
              Hv eq_refl eq_refl eq_refl) as [H _].
  apply H. split; reflexivity.
Defined.

Lemma best_practice_keys_checked_witness :
  exists passed found,
    fst (validate (py := cpython) no_recovery) = Ok (passed, found) /\
    In no_recovery_issue found.
Proof.
  assert (Hv : fst (validate (py := cpython) no_recovery)
               = Ok (true, [no_recovery_issue]))
    by (vm_compute; reflexivity).
  eexists. eexists. split; [exact Hv|].
  destruct (best_practice_keys_checked (py := cpython) no_recovery _ _
              no_recovery_items Hv eq_refl) as [_ [H _]].
  apply H. reflexivity.
Defined.

Lemma parallel_hint_given_witness :
  exists passed found,
    fst (validate (py := cpython) sequential) = Ok (passed, found) /\
    (3 < length four_phases)%nat /\
    forall phase, In phase four_phases ->
                  ~ is_substring "parallel" (py_str (py := cpython) phase).
Proof.
  assert (Hv : fst (validate (py := cpython) sequential)
               = Ok (true, [no_parallel_issue]))
    by (vm_compute; reflexivity).
  eexists. eexists. split; [exact Hv|].
  apply (proj1 (parallel_hint_given (py := cpython) sequential _ _
                  four_phases_items [("phases", VList four_phases)]
                  four_phases Hv eq_refl eq_refl eq_refl)).
  now left.
Defined.

Lemma role_without_id_reported_witness :
  exists passed found,
    fst (validate (py := cpython) anonymous) = Ok (passed, found) /\
    In (missing_id_issue (py := cpython) 0) found /\ passed = false.
Proof.
  assert (Hv : fst (validate (py := cpython) anonymous)
               = Ok (false, [missing_id_issue (py := cpython) 0]))
    by (vm_compute; reflexivity).
  eexists. eexists. split; [exact Hv|].
  destruct (role_without_id_reported (py := cpython) anonymous _ _
              anonymous_roles 0 Hv eq_refl) as [Hiff Hfail].
  assert (Hin : In (missing_id_issue (py := cpython) (Z.of_nat 0))
                  [missing_id_issue (py := cpython) 0]).
  { apply Hiff. exists anonymous_role. split; reflexivity. }
  split; [exact Hin | exact (Hfail Hin)].
Defined.

Lemma invalid_model_reported_witness :
  exists passed found,
    fst (validate (py := cpython) gpt) = Ok (passed, found) /\
    In (invalid_model_issue (py := cpython) 0 (VStr "gpt") (VStr "a")) found /\
    passed = false.
Proof.
  assert (Hv : fst (validate (py := cpython) gpt)
               = Ok (false,
                     [invalid_model_issue (py := cpython) 0 (VStr "gpt")
                        (VStr "a");
                      model_fit_issue (py := cpython) 0 (VStr "a")
                        (VStr "gpt") "sonnet" (VStr "developer")]))
    by (vm_compute; reflexivity).
  assert (Hbad : forall s, In s valid_models -> VStr "gpt" <> VStr s).
  { intros s [<-|[<-|[<-|[]]]]; discriminate. }
  eexists. eexists. split; [exact Hv|].
  destruct (invalid_model_reported (py := cpython) gpt _ _ gpt_roles 0
              gpt_role (VStr "gpt") Hv eq_refl eq_refl eq_refl)
    as [Hiff Hfail].
  split; [exact (proj2 Hiff Hbad) | exact (proj1 (Hfail Hbad))].
Defined.

Lemma missing_responsibilities_warned_witness :
  exists passed found,
    fst (validate (py := cpython) idle) = Ok (passed, found) /\
    In (no_responsibilities_issue (py := cpython) 0 (VStr "a")) found.
Proof.
  assert (Hv : fst (validate (py := cpython) idle)
               = Ok (true, [no_responsibilities_issue (py := cpython) 0
                              (VStr "a")]))
    by (vm_compute; reflexivity).
  eexists. eexists. split; [exact Hv|].
  destruct (missing_responsibilities_warned (py := cpython) idle _ _
              idle_roles 0 idle_role Hv eq_refl eq_refl) as [_ H].
  apply H. exact I.
Defined.

Lemma team_size_remarked_witness :
  exists passed found,
    fst (validate (py := cpython) solo) = Ok (passed, found) /\
    In (small_team_issue (py := cpython) 1) found.
Proof.
  assert (Hv : fst (validate (py := cpython) solo)
               = Ok (true, [small_team_issue (py := cpython) 1]))
    by (vm_compute; reflexivity).
  eexists. eexists. split; [exact Hv|].
  destruct (team_size_remarked (py := cpython) solo _ _ [role "a" []] 1
              Hv eq_refl) as [_ H].
  apply H. cbn. lia.
Defined.

Lemma phase_without_name_reported_witness :
  exists passed found,
    fst (validate (py := cpython) unnamed_phases) = Ok (passed, found) /\
    In (missing_phase_name_issue (py := cpython) 0) found /\ passed = false.
Proof.
  assert (Hv : fst (validate (py := cpython) unnamed_phases)
               = Ok (false, [missing_phase_name_issue (py := cpython) 0]))
    by (vm_compute; reflexivity).
  eexists. eexists. split; [exact Hv|].
  destruct (phase_without_name_reported (py := cpython) unnamed_phases _ _
              (VDict [("phases", VList [unnamed_phase])]) [unnamed_phase] 0
              Hv eq_refl eq_refl) as [Hiff Hfail].
  assert (Hin : In (missing_phase_name_issue (py := cpython) (Z.of_nat 0))
                  [missing_phase_name_issue (py := cpython) 0]).
  { apply Hiff. exists unnamed_phase. split; reflexivity. }
  split; [exact Hin | exact (Hfail Hin)].
Defined.

Lemma duplicate_phase_name_reported_witness :
  exists passed found,
    fst (validate (py := cpython) repeated_phase) = Ok (passed, found) /\
    In (duplicate_phase_issue (py := cpython) 1 (VStr "build")) found /\
    passed = false.
Proof.
  assert (Hv : fst (validate (py := cpython) repeated_phase)
               = Ok (false, [duplicate_phase_issue (py := cpython) 1
                               (VStr "build")]))
    by (vm_compute; reflexivity).
  eexists. eexists. split; [exact Hv|].
  destruct (duplicate_phase_name_reported (py := cpython) repeated_phase _ _
              (VDict [("phases", VList twice_build)]) twice_build 1
              (phase "build") (KStr "build") Hv eq_refl eq_refl eq_refl
              eq_refl) as [Hiff Hfail].
  assert (Hin : In (duplicate_phase_issue (py := cpython) (Z.of_nat 1)
                      (phase_name (phase "build")))
                  [duplicate_phase_issue (py := cpython) 1 (VStr "build")]).
  { apply Hiff. exists 0%nat. split; [lia|].
    exists (phase "build"). split; reflexivity. }
  split; [exact Hin | exact (Hfail Hin)].
Defined.

Lemma undefined_dependency_error_exact_witness :
  exists passed found,
    fst (validate (py := cpython) forward_dependency) = Ok (passed, found) /\
    exists k, py_hash (VStr "build") = Ok k /\
              ~ declared_by forward_phases 0 k.
Proof.
  assert (Hv : fst (validate (py := cpython) forward_dependency)
               = Ok (false, [undefined_dependency_issue (py := cpython) 0
                               (VStr "design") (VStr "build")]))
    by (vm_compute; reflexivity).
  eexists. eexists. split; [exact Hv|].
  destruct (proj1 (undefined_dependency_error_exact (py := cpython)
                     forward_dependency _ _
                     (VDict [("phases", VList forward_phases)])
                     forward_phases 0 (VStr "design") (VStr "build")
                     Hv eq_refl eq_refl) (or_introl eq_refl))
    as [p [deps [items [dep' [k [Hp [Hd [Hi [Hin [Hk [Hn _]]]]]]]]]]].
  cbn in Hp. inversion Hp; subst p.
  cbn in Hd. inversion Hd; subst deps.
  cbn in Hi. inversion Hi; subst items.
  destruct Hin as [<-|[]]. exists k. split; [exact Hk | exact Hn].
Defined.

Lemma synchronous_channel_expected_witness :
  exists passed found,
    fst (validate (py := cpython) asynchronous_only) = Ok (passed, found) /\
    In no_sync_issue found.
Proof.
  assert (Hv : fst (validate (py := cpython) asynchronous_only)
               = Ok (true, [no_sync_issue]))
    by (vm_compute; reflexivity).
  eexists. eexists. split; [exact Hv|].
  destruct (synchronous_channel_expected (py := cpython) asynchronous_only
              _ _ (channels_items [VDict mail])
              (VDict [("channels", VList [VDict mail])]) [VDict mail]
              Hv eq_refl eq_refl eq_refl) as [_ H].
  apply H. intros channel [<-|[]]. discriminate.
Defined.

Lemma channel_without_frequency_noted_witness :
  exists passed found,
    fst (validate (py := cpython) unscheduled) = Ok (passed, found) /\
    In (no_frequency_issue (py := cpython) 0 (VStr "standup")) found.
Proof.
  assert (Hv : fst (validate (py := cpython) unscheduled)
               = Ok (true, [no_frequency_issue (py := cpython) 0
                              (VStr "standup")]))
    by (vm_compute; reflexivity).
  eexists. eexists. split; [exact Hv|].
  apply (channel_without_frequency_noted (py := cpython) unscheduled _ _
           (channels_items [VDict standup])
           (VDict [("channels", VList [VDict standup])]) [VDict standup]
           0 standup Hv eq_refl eq_refl eq_refl eq_refl).
  reflexivity.
Defined.

Lemma undefined_supervisor_reported_witness :
  exists passed found,
    fst (validate (py := cpython) orphan) = Ok (passed, found) /\
    In (undefined_supervisor_issue (py := cpython) (VStr "a") (VStr "boss"))
       found /\
    passed = false.
Proof.
  assert (Hv : fst (validate (py := cpython) orphan)
               = Ok (false, [undefined_supervisor_issue (py := cpython)
                               (VStr "a") (VStr "boss")]))
    by (vm_compute; reflexivity).
  eexists. eexists. split; [exact Hv|].
  destruct (undefined_supervisor_reported (py := cpython) orphan _ _
              orphan_roles (VStr "a") (VStr "boss") Hv eq_refl)
    as [Hiff Hfail].
  assert (Hin : In (undefined_supervisor_issue (py := cpython) (VStr "a")
                      (VStr "boss"))
                  [undefined_supervisor_issue (py := cpython) (VStr "a")
                     (VStr "boss")]).
  { apply Hiff.
    exists (role "a" [("reports_to", VStr "boss")]), (VStr "boss"),
      (KStr "boss").
    split; [now left|]. split; [reflexivity|]. split; [reflexivity|].
    split; [|reflexivity].
    intros [r [Hr Hk]].
    destruct Hr as [<-|[<-|[<-|[]]]]; vm_compute in Hk; discriminate. }
  split; [exact Hin | exact (Hfail Hin)].
Defined.

Lemma report_agrees_with_validate_witness :
  exists passed found,
    fst (validate (py := cpython) twice_a) = Ok (passed, found) /\
    last_line (generate_optimization_report found) = failed_line.
Proof.
  assert (Hv : fst (validate (py := cpython) twice_a)
               = Ok (false, [duplicate_id_issue (py := cpython) 1 (VStr "a")]))
    by (vm_compute; reflexivity).
  eexists. eexists. split; [exact Hv|].
  apply (proj1 (report_agrees_with_validate (py := cpython) twice_a _ _ Hv)).
  reflexivity.
Defined.
